(** * The ART garbage-collected heap (runtime/gc/heap.cc): a shallow embedding

    The heap manager is embedded as pure functions over a record of the
    [Heap] members that the modelled methods read or write.  Methods that block
    on other threads take what those threads do from a script carried by the
    [World]; collectors, the allocator fast path and the two floating-point
    expressions of the growth policy are parameters of the model. *)

From stdpp Require Import base numbers functions list sorting gmap.

Local Open Scope Z_scope.

(** ** Machine integers *)

(** [size_t] and pointers are 32 bits wide on the ARM and x86 targets of this
    runtime; [uint64_t] and [int] are as in C++. *)
Definition kBitsPerSizeT : Z := 32.
Definition SIZE_MAX : Z := 2 ^ kBitsPerSizeT - 1.
Definition to_size_t (z : Z) : Z := z mod 2 ^ kBitsPerSizeT.
Definition to_uint64_t (z : Z) : Z := z mod 2 ^ 64.
Definition INT_MIN : Z := - 2 ^ 31.
Definition INT_MAX : Z := 2 ^ 31 - 1.
(** Two's complement wrap-around of a 32-bit [int]. *)
Definition to_int (z : Z) : Z := (z + 2 ^ 31) mod 2 ^ 32 - 2 ^ 31.

Definition KB : Z := 1024.
Definition MB : Z := KB * KB.

(** heap.cc:73-75 *)
Definition kMinConcurrentRemainingBytes : Z := 128 * KB.
Definition kMaxConcurrentRemainingBytes : Z := 512 * KB.

(** utils.h: nanoseconds to milliseconds, by integer division. *)
Definition NsToMs (ns : Z) : Z := ns / 1000000.

(** ** Enumerations *)

Inductive GcType : Type :=
  | kGcTypeNone | kGcTypeSticky | kGcTypePartial | kGcTypeFull.

Inductive GcCause : Type :=
  | kGcCauseForAlloc | kGcCauseBackground | kGcCauseExplicit
  | kGcCauseForNativeAlloc | kGcCauseCollectorTransition.

Inductive CollectorType : Type :=
  | kCollectorTypeNone | kCollectorTypeMS | kCollectorTypeCMS
  | kCollectorTypeSS | kCollectorTypeGSS.

Inductive AllocatorType : Type :=
  | kAllocatorTypeBumpPointer | kAllocatorTypeTLAB | kAllocatorTypeRosAlloc
  | kAllocatorTypeDlMalloc | kAllocatorTypeNonMoving | kAllocatorTypeLOS.

Inductive ProcessState : Type :=
  | kProcessStateJankPerceptible | kProcessStateJankImperceptible.

(** The main malloc space is one of the two free-list flavours; the memory map
    kept aside while a moving collector is in use is a single object. *)
Inductive MallocSpace : Type := RosAllocSpace | DlMallocSpace.
Inductive MemMap : Type := AllocSpaceMemMap.

#[global] Instance GcType_eq_dec : EqDecision GcType.
Proof. solve_decision. Defined.
#[global] Instance GcCause_eq_dec : EqDecision GcCause.
Proof. solve_decision. Defined.
#[global] Instance CollectorType_eq_dec : EqDecision CollectorType.
Proof. solve_decision. Defined.
#[global] Instance AllocatorType_eq_dec : EqDecision AllocatorType.
Proof. solve_decision. Defined.
#[global] Instance ProcessState_eq_dec : EqDecision ProcessState.
Proof. solve_decision. Defined.

(** Modelled from the spec: [IsCompactingGC] is declared in heap.h, which is
    not part of the sources at hand.  Section 4.8 separates the moving
    configurations (bump-pointer space with the semi-space collector, SS and
    GSS) from the non-moving ones (malloc space with mark-sweep, MS and CMS). *)
Definition IsCompactingGC (collector_type : CollectorType) : bool :=
  match collector_type with
  | kCollectorTypeSS | kCollectorTypeGSS => true
  | _ => false
  end.

(** ** The collectors owned by the heap *)

Inductive Collector : Type :=
  | MarkSweep (concurrent : bool)
  | PartialMarkSweep (concurrent : bool)
  | StickyMarkSweep (concurrent : bool)
  | SemiSpace.

Definition IsConcurrent (c : Collector) : bool :=
  match c with
  | MarkSweep b | PartialMarkSweep b | StickyMarkSweep b => b
  | SemiSpace => false
  end.

(** Modelled from the spec: the collector classes live in gc/collector/, which
    is not part of the sources at hand.  Section 4.5 names the full, partial
    and sticky mark-sweep variants; the type the semi-space collector reports
    is overwritten with [kGcTypeFull] by its only reader (heap.cc:1562-1568). *)
Definition GetGcType (c : Collector) : GcType :=
  match c with
  | MarkSweep _ => kGcTypeFull
  | PartialMarkSweep _ => kGcTypePartial
  | StickyMarkSweep _ => kGcTypeSticky
  | SemiSpace => kGcTypePartial
  end.

(** What a finished collector run reports back to the heap. *)
Record RunResult : Type := mkRunResult {
  GetFreedObjects : Z;
  GetFreedBytes : Z;
  GetDurationNs : Z
}.

(** ** The heap members *)

#[projections(primitive)]
Record Heap : Type := mkHeap {
  collector_type_ : CollectorType;
  post_zygote_collector_type_ : CollectorType;
  background_collector_type_ : CollectorType;
  concurrent_gc_ : bool;
  gc_plan_ : list GcType;
  current_allocator_ : AllocatorType;
  use_tlab_ : bool;
  have_zygote_space_ : bool;
  is_gc_running_ : bool;
  last_gc_type_ : GcType;
  next_gc_type_ : GcType;
  growth_limit_ : Z;
  max_allowed_footprint_ : Z;
  min_free_ : Z;
  max_free_ : Z;
  ignore_max_footprint_ : bool;
  concurrent_start_bytes_ : Z;
  num_bytes_allocated_ : Z;
  native_bytes_allocated_ : Z;
  allocation_rate_ : Z;
  last_gc_size_ : Z;
  last_gc_time_ns_ : Z;
  disable_moving_gc_count_ : Z;
  process_state_ : ProcessState;
  native_need_to_run_finalization_ : bool;
  total_wait_time_ : Z;
  total_bytes_freed_ever_ : Z;
  total_objects_freed_ever_ : Z;
  main_space_ : option MallocSpace;
  allocator_mem_map_ : option MemMap
}.

(** Assignment to one member: [set_f v h] is [h] with member [f] replaced by
    [v].  The setters are all read off the eta-expansion of the record. *)
Definition eta_Heap (h : Heap) : Heap :=
  mkHeap (collector_type_ h) (post_zygote_collector_type_ h)
    (background_collector_type_ h) (concurrent_gc_ h) (gc_plan_ h)
    (current_allocator_ h) (use_tlab_ h) (have_zygote_space_ h)
    (is_gc_running_ h) (last_gc_type_ h) (next_gc_type_ h) (growth_limit_ h)
    (max_allowed_footprint_ h) (min_free_ h) (max_free_ h)
    (ignore_max_footprint_ h) (concurrent_start_bytes_ h)
    (num_bytes_allocated_ h) (native_bytes_allocated_ h) (allocation_rate_ h)
    (last_gc_size_ h)
    (last_gc_time_ns_ h) (disable_moving_gc_count_ h) (process_state_ h)
    (native_need_to_run_finalization_ h) (total_wait_time_ h)
    (total_bytes_freed_ever_ h) (total_objects_freed_ever_ h) (main_space_ h)
    (allocator_mem_map_ h).

Ltac member_setter f :=
  let v := fresh "v" in
  let h := fresh "h" in
  intros v h;
  let e := eval cbv beta delta [eta_Heap] in (eta_Heap h) in
  match eval pattern (f h) in e with
  | ?g _ => let r := eval cbv beta in (g v) in exact r
  end.

Definition set_collector_type_ : CollectorType -> Heap -> Heap :=
  ltac:(member_setter collector_type_).
Definition set_concurrent_gc_ : bool -> Heap -> Heap :=
  ltac:(member_setter concurrent_gc_).
Definition set_gc_plan_ : list GcType -> Heap -> Heap :=
  ltac:(member_setter gc_plan_).
Definition set_current_allocator_ : AllocatorType -> Heap -> Heap :=
  ltac:(member_setter current_allocator_).
Definition set_is_gc_running_ : bool -> Heap -> Heap :=
  ltac:(member_setter is_gc_running_).
Definition set_last_gc_type_ : GcType -> Heap -> Heap :=
  ltac:(member_setter last_gc_type_).
Definition set_next_gc_type_ : GcType -> Heap -> Heap :=
  ltac:(member_setter next_gc_type_).
Definition set_max_allowed_footprint_ : Z -> Heap -> Heap :=
  ltac:(member_setter max_allowed_footprint_).
Definition set_concurrent_start_bytes_ : Z -> Heap -> Heap :=
  ltac:(member_setter concurrent_start_bytes_).
Definition set_num_bytes_allocated_ : Z -> Heap -> Heap :=
  ltac:(member_setter num_bytes_allocated_).
Definition set_native_bytes_allocated_ : Z -> Heap -> Heap :=
  ltac:(member_setter native_bytes_allocated_).
Definition set_allocation_rate_ : Z -> Heap -> Heap :=
  ltac:(member_setter allocation_rate_).
Definition set_last_gc_size_ : Z -> Heap -> Heap :=
  ltac:(member_setter last_gc_size_).
Definition set_last_gc_time_ns_ : Z -> Heap -> Heap :=
  ltac:(member_setter last_gc_time_ns_).
Definition set_disable_moving_gc_count_ : Z -> Heap -> Heap :=
  ltac:(member_setter disable_moving_gc_count_).
Definition set_process_state_ : ProcessState -> Heap -> Heap :=
  ltac:(member_setter process_state_).
Definition set_native_need_to_run_finalization_ : bool -> Heap -> Heap :=
  ltac:(member_setter native_need_to_run_finalization_).
Definition set_total_wait_time_ : Z -> Heap -> Heap :=
  ltac:(member_setter total_wait_time_).
Definition set_total_bytes_freed_ever_ : Z -> Heap -> Heap :=
  ltac:(member_setter total_bytes_freed_ever_).
Definition set_total_objects_freed_ever_ : Z -> Heap -> Heap :=
  ltac:(member_setter total_objects_freed_ever_).
Definition set_main_space_ : option MallocSpace -> Heap -> Heap :=
  ltac:(member_setter main_space_).
Definition set_allocator_mem_map_ : option MemMap -> Heap -> Heap :=
  ltac:(member_setter allocator_mem_map_).

(** ** Other threads, the clock and the log *)

(** What other threads may do while the modelled thread sleeps or waits on
    [gc_complete_cond_]: finish or start a collection, complete a collector
    transition, pin or unpin objects (heap.cc:331-344), or just let time pass. *)
Inductive OtherThread : Type :=
  | OtherFinishGC (gc_type : GcType)
  | OtherStartGC
  | OtherTransitionCollector (collector_type : CollectorType)
  | OtherIncrementDisableMovingGC
  | OtherDecrementDisableMovingGC
  | OtherElapse (ns : Z).

(** What the modelled methods do that can be observed from outside the heap
    members: warnings logged, collector runs, and the calls and results of the
    allocation slow path. *)
Inductive Event : Type :=
  | LogWarningSkippingGC (disable_moving_gc_count : Z)
  | CollectorRun (collector : Collector) (gc_cause : GcCause) (clear_soft_references : bool)
  | CallWaitForGcToComplete (result : GcType)
  | CallTryToAllocate (kGrow : bool) (allocator : AllocatorType) (alloc_size : Z) (result : Z)
  | CallCollectGarbageInternal (gc_type : GcType) (gc_cause : GcCause)
      (clear_soft_references : bool) (result : GcType)
  | ThrowOutOfMemoryError (byte_count : Z).

(** [w_now] is the time of the last event; [w_clock] gives, from that time,
    what the clock shows when it is read next. *)
#[projections(primitive)]
Record World : Type := mkWorld {
  w_heap : Heap;
  w_now : Z;
  w_clock : Z -> Z;
  w_others : list OtherThread;
  w_log : list Event
}.

Definition with_heap (h : Heap) (w : World) : World :=
  {| w_heap := h; w_now := w_now w; w_clock := w_clock w; w_others := w_others w;
     w_log := w_log w |}.
Definition with_now (now : Z) (w : World) : World :=
  {| w_heap := w_heap w; w_now := now; w_clock := w_clock w; w_others := w_others w;
     w_log := w_log w |}.
Definition with_others (others : list OtherThread) (w : World) : World :=
  {| w_heap := w_heap w; w_now := w_now w; w_clock := w_clock w; w_others := others;
     w_log := w_log w |}.
Definition emit (e : Event) (w : World) : World :=
  {| w_heap := w_heap w; w_now := w_now w; w_clock := w_clock w; w_others := w_others w;
     w_log := w_log w ++ [e] |}.

(** A method returns, waits for ever (no other thread is left to wake it), or
    aborts the runtime ([LOG(FATAL)], a failed [CHECK]). *)
Inductive Outcome (A : Type) : Type :=
  | Returns (a : A) (w : World)
  | Blocks (w : World)
  | Aborts (w : World).
Arguments Returns {A} a w.
Arguments Blocks {A} w.
Arguments Aborts {A} w.

Definition Method (A : Type) : Type := World -> Outcome A.

Definition ret {A : Type} (a : A) : Method A := fun w => Returns a w.

Definition bind {A B : Type} (m : Method A) (k : A -> Method B) : Method B :=
  fun w =>
    match m w with
    | Returns a w' => k a w'
    | Blocks w' => Blocks w'
    | Aborts w' => Aborts w'
    end.

Definition get_heap : Method Heap := fun w => Returns (w_heap w) w.
Definition modify_heap (f : Heap -> Heap) : Method unit :=
  fun w => Returns tt (with_heap (f (w_heap w)) w).
(** [NanoTime()] of utils.h: the clock is read, and what it shows is the time
    from then on. *)
Definition clock_read (w : World) : World := with_now (w_clock w (w_now w)) w.
Definition NanoTime : Method Z := fun w => Returns (w_now (clock_read w)) (clock_read w).
Definition log_event (e : Event) : Method unit := fun w => Returns tt (emit e w).
Definition LOG_FATAL {A : Type} : Method A := fun w => Aborts w.
Definition CHECK (b : bool) : Method unit := fun w => if b then Returns tt w else Aborts w.

Declare Scope method_scope.
Delimit Scope method_scope with method.
Notation "x <- c1 ;; c2" := (bind c1 (fun x => c2))
  (at level 100, c1 at next level, right associativity) : method_scope.
Notation "c1 ;; c2" := (bind c1 (fun _ => c2))
  (at level 100, right associativity) : method_scope.
Local Open Scope method_scope.

(** ** Sample parameters, heaps and worlds *)

(** A target utilization of one half, an exact product for the estimate, a
    collector that frees nothing in two milliseconds, and an allocator for
    which there is never room. *)
Definition utilization_one_half (bytes_allocated : Z) : Z := 2 * bytes_allocated.
Definition estimate_exactly (allocation_rate ms : Z) : Z := allocation_rate * ms / 1000.
Definition run_frees_nothing (collector : Collector) (gc_cause : GcCause)
    (clear_soft_references : bool) (h : Heap) : RunResult * Z :=
  (mkRunResult 0 0 2000000, num_bytes_allocated_ h).
Definition allocation_fails (kGrow : bool) (allocator : AllocatorType) (alloc_size : Z)
    (h : Heap) : Z * Z :=
  (0, max_allowed_footprint_ h).

(** A heap under the mark-sweep collector, with a semi-space collector for the
    background, one megabyte allocated and no zygote space yet. *)
Definition sample_heap : Heap :=
  {| collector_type_ := kCollectorTypeMS;
     post_zygote_collector_type_ := kCollectorTypeMS;
     background_collector_type_ := kCollectorTypeSS;
     concurrent_gc_ := false;
     gc_plan_ := [kGcTypeSticky; kGcTypePartial; kGcTypeFull];
     current_allocator_ := kAllocatorTypeRosAlloc;
     use_tlab_ := false;
     have_zygote_space_ := false;
     is_gc_running_ := false;
     last_gc_type_ := kGcTypeNone;
     next_gc_type_ := kGcTypePartial;
     growth_limit_ := 64 * MB;
     max_allowed_footprint_ := 2 * MB;
     min_free_ := 512 * KB;
     max_free_ := 2 * MB;
     ignore_max_footprint_ := false;
     concurrent_start_bytes_ := SIZE_MAX;
     num_bytes_allocated_ := MB;
     native_bytes_allocated_ := 4096;
     allocation_rate_ := 0;
     last_gc_size_ := 0;
     last_gc_time_ns_ := 0;
     disable_moving_gc_count_ := 0;
     process_state_ := kProcessStateJankPerceptible;
     native_need_to_run_finalization_ := false;
     total_wait_time_ := 0;
     total_bytes_freed_ever_ := 0;
     total_objects_freed_ever_ := 0;
     main_space_ := Some RosAllocSpace;
     allocator_mem_map_ := None |}.

(** A world that starts five seconds after the clock did; every reading of
    the clock is a microsecond after the time of the last event. *)
Definition sample_world (h : Heap) (others : list OtherThread) : World :=
  {| w_heap := h; w_now := 5000000000; w_clock := fun now => now + 1000;
     w_others := others; w_log := [] |}.

(** A temp space that every collector run leaves empty, and one that the
    first run of the semi-space collector leaves in use. *)
Definition temp_space_stays_empty (w : World) : bool := true.
Definition temp_space_used_after_compaction (w : World) : bool :=
  negb (existsb
          (fun e => match e with CollectorRun SemiSpace _ _ => true | _ => false end)
          (w_log w)).

(** The same heap with [min_free_] above [max_free_] and four megabytes
    allocated. *)
Definition heap_with_min_free_above_max_free : Heap :=
  {| collector_type_ := kCollectorTypeMS;
     post_zygote_collector_type_ := kCollectorTypeMS;
     background_collector_type_ := kCollectorTypeSS;
     concurrent_gc_ := false;
     gc_plan_ := [kGcTypeSticky; kGcTypePartial; kGcTypeFull];
     current_allocator_ := kAllocatorTypeRosAlloc;
     use_tlab_ := false;
     have_zygote_space_ := false;
     is_gc_running_ := false;
     last_gc_type_ := kGcTypeNone;
     next_gc_type_ := kGcTypePartial;
     growth_limit_ := 64 * MB;
     max_allowed_footprint_ := 2 * MB;
     min_free_ := 4 * MB;
     max_free_ := 2 * MB;
     ignore_max_footprint_ := false;
     concurrent_start_bytes_ := SIZE_MAX;
     num_bytes_allocated_ := 4 * MB;
     native_bytes_allocated_ := 4096;
     allocation_rate_ := 0;
     last_gc_size_ := 0;
     last_gc_time_ns_ := 0;
     disable_moving_gc_count_ := 0;
     process_state_ := kProcessStateJankPerceptible;
     native_need_to_run_finalization_ := false;
     total_wait_time_ := 0;
     total_bytes_freed_ever_ := 0;
     total_objects_freed_ever_ := 0;
     main_space_ := Some RosAllocSpace;
     allocator_mem_map_ := None |}.

(** A small heap under the concurrent mark-sweep collector, in the foreground
    and in the background: 100 KiB allocated of 300 KiB allowed, filling at
    400 KiB per second. *)
Definition small_concurrent_heap : Heap :=
  {| collector_type_ := kCollectorTypeCMS;
     post_zygote_collector_type_ := kCollectorTypeCMS;
     background_collector_type_ := kCollectorTypeCMS;
     concurrent_gc_ := true;
     gc_plan_ := [kGcTypeSticky; kGcTypePartial; kGcTypeFull];
     current_allocator_ := kAllocatorTypeRosAlloc;
     use_tlab_ := false;
     have_zygote_space_ := false;
     is_gc_running_ := false;
     last_gc_type_ := kGcTypeNone;
     next_gc_type_ := kGcTypeSticky;
     growth_limit_ := 64 * MB;
     max_allowed_footprint_ := 300 * KB;
     min_free_ := 512 * KB;
     max_free_ := 2 * MB;
     ignore_max_footprint_ := false;
     concurrent_start_bytes_ := 172 * KB;
     num_bytes_allocated_ := 100 * KB;
     native_bytes_allocated_ := 0;
     allocation_rate_ := 400 * KB;
     last_gc_size_ := 0;
     last_gc_time_ns_ := 0;
     disable_moving_gc_count_ := 0;
     process_state_ := kProcessStateJankPerceptible;
     native_need_to_run_finalization_ := false;
     total_wait_time_ := 0;
     total_bytes_freed_ever_ := 0;
     total_objects_freed_ever_ := 0;
     main_space_ := Some RosAllocSpace;
     allocator_mem_map_ := None |}.

(** ** The heap manager *)

Section HeapManager.

(** Build-time constants of globals.h. *)
Variable kMovingCollector : bool.
Variable kUseRosAlloc : bool.

(** The two floating-point expressions of [GrowForUtilization], as the
    [size_t] they are converted to: [bytes_allocated / GetTargetHeapUtilization()]
    and [allocation_rate_ * (NsToMs(gc_duration) / 1000.0)]. *)
Variable DivideByTargetHeapUtilization : Z -> Z.
Variable EstimateRemainingBytes : Z -> Z -> Z.

(** [collector->Run(gc_cause, clear_soft_references)] with what the collector
    reports afterwards, and the number of bytes it leaves allocated. *)
Variable Run : Collector -> GcCause -> bool -> Heap -> RunResult * Z.

(** [temp_space_->IsEmpty()] of gc/space/bump_pointer_space.h.  What the space
    holds is the work of the collectors, whose runs the world records. *)
Variable temp_space_IsEmpty : World -> bool.

(** [TryToAllocate<true, kGrow>] of heap-inl.h: the address of the new object
    (0 for [nullptr]) and the footprint limit, which it may raise when [kGrow]
    is set. *)
Variable TryToAllocate : bool -> AllocatorType -> Z -> Heap -> Z * Z.

Definition GetBytesAllocated (h : Heap) : Z := num_bytes_allocated_ h.

Definition GetCurrentAllocator (h : Heap) : AllocatorType := current_allocator_ h.

(** Modelled from the spec: [GetMaxMemory] is declared in heap.h; section 4.1
    has the heap grow "up to the hard growth limit". *)
Definition GetMaxMemory (h : Heap) : Z := growth_limit_ h.

(** heap.cc:2114-2121 *)
Definition SetIdealFootprint (max_allowed_footprint : Z) (h : Heap) : Heap :=
  let max_allowed_footprint :=
    if GetMaxMemory h <? max_allowed_footprint then GetMaxMemory h
    else max_allowed_footprint in
  set_max_allowed_footprint_ max_allowed_footprint h.

(** heap.cc:2167-2192: the local [target_size] and the members assigned while
    it is computed. *)
Definition GrowForUtilization_target_size (gc_type : GcType) (h : Heap) : Z * Heap :=
  let bytes_allocated := GetBytesAllocated h in
  if decide (gc_type <> kGcTypeSticky) then
    let target_size := DivideByTargetHeapUtilization bytes_allocated in
    let target_size :=
      if to_size_t (bytes_allocated + max_free_ h) <? target_size then
        to_size_t (bytes_allocated + max_free_ h)
      else if target_size <? to_size_t (bytes_allocated + min_free_ h) then
        to_size_t (bytes_allocated + min_free_ h)
      else target_size in
    (target_size,
     set_next_gc_type_ kGcTypeSticky (set_native_need_to_run_finalization_ true h))
  else
    let next_gc_type :=
      if to_size_t (bytes_allocated + min_free_ h) <=? max_allowed_footprint_ h then
        kGcTypeSticky
      else if have_zygote_space_ h then kGcTypePartial else kGcTypeFull in
    let h := set_next_gc_type_ next_gc_type h in
    let target_size :=
      if to_size_t (bytes_allocated + max_free_ h) <? max_allowed_footprint_ h then
        to_size_t (bytes_allocated + max_free_ h)
      else Z.max bytes_allocated (max_allowed_footprint_ h) in
    (target_size, h).

(** heap.cc:2196-2214: the trigger of the next concurrent collection. *)
Definition GrowForUtilization_concurrent_start_bytes
    (bytes_allocated gc_duration : Z) (h : Heap) : Z :=
  let remaining_bytes := EstimateRemainingBytes (allocation_rate_ h) (NsToMs gc_duration) in
  let remaining_bytes := Z.min remaining_bytes kMaxConcurrentRemainingBytes in
  let remaining_bytes := Z.max remaining_bytes kMinConcurrentRemainingBytes in
  let remaining_bytes :=
    if max_allowed_footprint_ h <? remaining_bytes then kMinConcurrentRemainingBytes
    else remaining_bytes in
  Z.max (to_size_t (max_allowed_footprint_ h - remaining_bytes)) bytes_allocated.

(** heap.cc:2161-2217 *)
Definition GrowForUtilization (now : Z) (gc_type : GcType) (gc_duration : Z)
    (h : Heap) : Heap :=
  let bytes_allocated := GetBytesAllocated h in
  let h := set_last_gc_size_ bytes_allocated h in
  let h := set_last_gc_time_ns_ now h in
  let '(target_size, h) := GrowForUtilization_target_size gc_type h in
  if negb (ignore_max_footprint_ h) then
    let h := SetIdealFootprint target_size h in
    if concurrent_gc_ h then
      set_concurrent_start_bytes_
        (GrowForUtilization_concurrent_start_bytes bytes_allocated gc_duration h) h
    else h
  else h.

(** heap.cc:300-309 *)
Definition ChangeAllocator (allocator : AllocatorType) (h : Heap) : Heap :=
  if decide (current_allocator_ h <> allocator) then set_current_allocator_ allocator h
  else h.

(** heap.cc:1256-1301; [None] is the [LOG(FATAL)] of the default case. *)
Definition ChangeCollector (collector_type : CollectorType) (h : Heap) : option Heap :=
  if decide (collector_type <> collector_type_ h) then
    let h := set_gc_plan_ [] (set_collector_type_ collector_type h) in
    let malloc_allocator :=
      if kUseRosAlloc then kAllocatorTypeRosAlloc else kAllocatorTypeDlMalloc in
    let switched :=
      match collector_type with
      | kCollectorTypeSS | kCollectorTypeGSS =>
          let h := set_gc_plan_ [kGcTypeFull] (set_concurrent_gc_ false h) in
          Some (ChangeAllocator
                  (if use_tlab_ h then kAllocatorTypeTLAB else kAllocatorTypeBumpPointer) h)
      | kCollectorTypeMS =>
          let h := set_gc_plan_ [kGcTypeSticky; kGcTypePartial; kGcTypeFull]
                     (set_concurrent_gc_ false h) in
          Some (ChangeAllocator malloc_allocator h)
      | kCollectorTypeCMS =>
          let h := set_gc_plan_ [kGcTypeSticky; kGcTypePartial; kGcTypeFull]
                     (set_concurrent_gc_ true h) in
          Some (ChangeAllocator malloc_allocator h)
      | kCollectorTypeNone => None
      end in
    match switched with
    | Some h =>
        Some (if concurrent_gc_ h then
                set_concurrent_start_bytes_
                  (Z.max (max_allowed_footprint_ h) kMinConcurrentRemainingBytes
                   - kMinConcurrentRemainingBytes) h
              else set_concurrent_start_bytes_ SIZE_MAX h)
    | None => None
    end
  else Some h.

(** heap.cc:1654-1660 *)
Definition FinishGC (gc_type : GcType) (h : Heap) : Heap :=
  set_last_gc_type_ gc_type (set_is_gc_running_ false h).

(** heap.cc:331-344, run by a thread that pins or unpins an object. *)
Definition IncrementDisableMovingGC (h : Heap) : Heap :=
  set_disable_moving_gc_count_ (to_size_t (disable_moving_gc_count_ h + 1)) h.
Definition DecrementDisableMovingGC (h : Heap) : Heap :=
  set_disable_moving_gc_count_ (to_size_t (disable_moving_gc_count_ h - 1)) h.

(** One step of another thread, seen from the modelled one. *)
Definition other_thread (o : OtherThread) (w : World) : World :=
  match o with
  | OtherFinishGC gc_type => with_heap (FinishGC gc_type (w_heap w)) w
  | OtherStartGC => with_heap (set_is_gc_running_ true (w_heap w)) w
  | OtherTransitionCollector collector_type =>
      match ChangeCollector collector_type (w_heap w) with
      | Some h => with_heap (FinishGC kGcTypeFull h) w
      | None => w
      end
  | OtherIncrementDisableMovingGC => with_heap (IncrementDisableMovingGC (w_heap w)) w
  | OtherDecrementDisableMovingGC => with_heap (DecrementDisableMovingGC (w_heap w)) w
  | OtherElapse ns => with_now (w_now w + ns) w
  end.

(** heap.cc:2089-2095: each [gc_complete_cond_->Wait] lets the next step of
    another thread happen; with no step left the wait never ends. *)
Fixpoint WaitWhileGcIsRunning (others : list OtherThread) (last_gc_type : GcType)
    (w : World) : Outcome GcType :=
  if is_gc_running_ (w_heap w) then
    match others with
    | [] => Blocks (with_others [] w)
    | o :: others' =>
        let w' := other_thread o w in
        WaitWhileGcIsRunning others' (last_gc_type_ (w_heap w')) w'
    end
  else Returns last_gc_type (with_others others w).

(** heap.cc:2086-2102.  The log line at [INFO] level that follows a long wait
    is left out. *)
Definition WaitForGcToCompleteLocked : Method GcType :=
  wait_start <- NanoTime ;;
  last_gc_type <- (fun w => WaitWhileGcIsRunning (w_others w) kGcTypeNone w) ;;
  now <- NanoTime ;;
  let wait_time := to_uint64_t (now - wait_start) in
  modify_heap (fun h => set_total_wait_time_ (to_uint64_t (total_wait_time_ h + wait_time)) h) ;;
  ret last_gc_type.

(** heap.cc:2080-2084 *)
Definition WaitForGcToComplete : Method GcType := WaitForGcToCompleteLocked.

(** The world after a wait that found no collection in progress: the clock
    was read twice, and the time between the readings counts as waited. *)
Definition after_idle_wait (w : World) : World :=
  let wait_start := w_now (clock_read w) in
  let now := w_now (clock_read (clock_read w)) in
  with_heap
    (set_total_wait_time_
       (to_uint64_t (total_wait_time_ (w_heap w) + to_uint64_t (now - wait_start)))
       (w_heap w))
    (clock_read (clock_read w)).

(** heap.cc:1639-1652 *)
Definition StartGC (is_compacting : bool) : Method bool :=
  WaitForGcToCompleteLocked ;;
  h <- get_heap ;;
  if is_compacting && bool_decide (disable_moving_gc_count_ h <> 0) then
    log_event (LogWarningSkippingGC (disable_moving_gc_count_ h)) ;;
    ret false
  else
    modify_heap (set_is_gc_running_ true) ;;
    ret true.

(** The collector runs, time passes, and the bytes it freed are gone from
    [num_bytes_allocated_] (heap.cc:936-938). *)
Definition run_collector (collector : Collector) (gc_cause : GcCause)
    (clear_soft_references : bool) : Method RunResult :=
  fun w =>
    let '(result, bytes_allocated) :=
      Run collector gc_cause clear_soft_references (w_heap w) in
    Returns result
      (emit (CollectorRun collector gc_cause clear_soft_references)
         (with_now (w_now w + GetDurationNs result)
            (with_heap (set_num_bytes_allocated_ bytes_allocated (w_heap w)) w))).

(** heap.cc:277-288 *)
Definition garbage_collectors_ : list Collector :=
  [MarkSweep false; PartialMarkSweep false; StickyMarkSweep false;
   MarkSweep true; PartialMarkSweep true; StickyMarkSweep true]
  ++ (if kMovingCollector then [SemiSpace] else []).

(** heap.cc:1513-1637.  The statistics kept per thread, the warning for a
    thread that is handling a stack overflow, the log lines at [INFO] level,
    the handing over of the cleared references to the language runtime and
    the debugger hook are left out.  [semi_space_collector_]
    is used as the code uses it, unchecked: it is the collector that the
    constructor makes in a build with the moving collector (heap.cc:284-289),
    and null, with no behaviour defined for this branch, in a build
    without. *)
Definition CollectGarbageInternal (gc_type : GcType) (gc_cause : GcCause)
    (clear_soft_references : bool) : Method GcType :=
  h <- get_heap ;;
  if bool_decide (gc_type = kGcTypePartial) && negb (have_zygote_space_ h) then
    ret kGcTypeNone
  else
    let compacting_gc := IsCompactingGC (collector_type_ h) in
    started <- StartGC compacting_gc ;;
    if negb started then ret kGcTypeNone
    else
      gc_start_time_ns <- NanoTime ;;
      h <- get_heap ;;
      let gc_start_size := GetBytesAllocated h in
      let ms_delta := NsToMs (to_uint64_t (gc_start_time_ns - last_gc_time_ns_ h)) in
      (if bool_decide (ms_delta <> 0) then
         modify_heap
           (set_allocation_rate_
              (to_uint64_t (to_uint64_t (gc_start_size - last_gc_size_ h) * 1000) / ms_delta))
       else ret tt) ;;
      h <- get_heap ;;
      chosen <-
        (if compacting_gc then
           (fun w => CHECK (temp_space_IsEmpty w) w) ;;
           ret (SemiSpace, kGcTypeFull)
         else if bool_decide (current_allocator_ h = kAllocatorTypeRosAlloc)
                 || bool_decide (current_allocator_ h = kAllocatorTypeDlMalloc) then
           match List.find
                   (fun cur_collector =>
                      bool_decide (IsConcurrent cur_collector = concurrent_gc_ h)
                      && bool_decide (GetGcType cur_collector = gc_type))
                   garbage_collectors_ with
           | Some collector => ret (collector, gc_type)
           | None => LOG_FATAL
           end
         else LOG_FATAL) ;;
      let collector := fst chosen in
      let gc_type := snd chosen in
      result <- run_collector collector gc_cause clear_soft_references ;;
      modify_heap
        (fun h =>
           set_total_bytes_freed_ever_
             (to_size_t (total_bytes_freed_ever_ h + GetFreedBytes result))
             (set_total_objects_freed_ever_
                (to_size_t (total_objects_freed_ever_ h + GetFreedObjects result)) h)) ;;
      now <- NanoTime ;;
      modify_heap (GrowForUtilization now gc_type (GetDurationNs result)) ;;
      modify_heap (FinishGC gc_type) ;;
      ret gc_type.

(** [usleep(100)]: time passes and another thread gets its next step in. *)
Definition usleep (usec : Z) : Method unit :=
  fun w =>
    let w := with_now (w_now w + usec * 1000) w in
    match w_others w with
    | [] => Returns tt w
    | o :: others => Returns tt (other_thread o (with_others others w))
    end.

(** heap.cc:1187-1189: [while (!StartGC(self, copying_transition)) usleep(100)].
    Each round of the loop gives one more step to the other threads; [patience]
    is the number of steps they have left, after which nothing a further
    round would see can change and the loop spins for ever. *)
Fixpoint busy_wait_StartGC (patience : nat) (copying_transition : bool) : Method unit :=
  started <- StartGC copying_transition ;;
  if started then ret tt
  else
    match patience with
    | O => fun w => Blocks w
    | S patience' => usleep 100 ;; busy_wait_StartGC patience' copying_transition
    end.

(** heap.cc:1502-1511; both callers pass two different spaces. *)
Definition Compact : Method unit :=
  CHECK kMovingCollector ;;
  run_collector SemiSpace kGcCauseCollectorTransition false ;;
  ret tt.

(** *** What a collector transition changes *)

(** The collector in use with its plan and allocator, and the spaces that a
    transition creates or releases. *)
Definition heap_configuration (h : Heap)
    : CollectorType * bool * list GcType * AllocatorType
      * option MallocSpace * option MemMap :=
  (collector_type_ h, concurrent_gc_ h, gc_plan_ h, current_allocator_ h,
   main_space_ h, allocator_mem_map_ h).

(** [copying_transition] of heap.cc:1185-1186. *)
Definition copying_transition (h : Heap) : bool :=
  IsCompactingGC (background_collector_type_ h)
  || IsCompactingGC (post_zygote_collector_type_ h).

(** heap.cc:1191-1233: the spaces are reshaped for the new collector. *)
Definition TransitionCollector_spaces (collector_type : CollectorType) : Method unit :=
  match collector_type with
  | kCollectorTypeSS | kCollectorTypeGSS =>
      h <- get_heap ;;
      CHECK (bool_decide (main_space_ h <> None)) ;;
      Compact ;;
      modify_heap
        (fun h => set_main_space_ None (set_allocator_mem_map_ (Some AllocSpaceMemMap) h))
  | kCollectorTypeMS | kCollectorTypeCMS =>
      h <- get_heap ;;
      if IsCompactingGC (collector_type_ h) then
        let mem_map := allocator_mem_map_ h in
        modify_heap (set_allocator_mem_map_ None) ;;
        CHECK (bool_decide (mem_map <> None)) ;;
        CHECK (bool_decide (main_space_ h = None)) ;;
        modify_heap
          (set_main_space_ (Some (if kUseRosAlloc then RosAllocSpace else DlMallocSpace))) ;;
        Compact
      else ret tt
  | kCollectorTypeNone => LOG_FATAL
  end.

(** heap.cc:1234-1241: the collector is changed and the collection ends. *)
Definition TransitionCollector_finish (collector_type : CollectorType) (start_time : Z)
    : Method unit :=
  h <- get_heap ;;
  match ChangeCollector collector_type h with
  | None => LOG_FATAL
  | Some h' =>
      modify_heap (fun _ => h') ;;
      end_time <- NanoTime ;;
      let duration := to_uint64_t (end_time - start_time) in
      now <- NanoTime ;;
      modify_heap (GrowForUtilization now kGcTypeFull duration) ;;
      modify_heap (FinishGC kGcTypeFull)
  end.

(** heap.cc:1172-1254 *)
Definition TransitionCollector (collector_type : CollectorType) : Method unit :=
  h <- get_heap ;;
  if decide (collector_type = collector_type_ h) then ret tt
  else
    start_time <- NanoTime ;;
    (fun w => busy_wait_StartGC (length (w_others w)) (copying_transition h) w) ;;
    TransitionCollector_spaces collector_type ;;
    TransitionCollector_finish collector_type start_time.

(** heap.cc:346-357 *)
Definition UpdateProcessState (process_state : ProcessState) : Method unit :=
  h <- get_heap ;;
  if decide (process_state_ h <> process_state) then
    modify_heap (set_process_state_ process_state) ;;
    if decide (process_state = kProcessStateJankPerceptible) then
      TransitionCollector (post_zygote_collector_type_ h)
    else
      TransitionCollector (background_collector_type_ h)
  else
    CollectGarbageInternal kGcTypeFull kGcCauseBackground false ;;
    ret tt.

(** *** The allocation slow path *)

(** A call of [TryToAllocate], recorded in the log. *)
Definition try_to_allocate (kGrow : bool) (allocator : AllocatorType) (alloc_size : Z)
    : Method Z :=
  fun w =>
    let '(ptr, footprint) := TryToAllocate kGrow allocator alloc_size (w_heap w) in
    Returns ptr
      (emit (CallTryToAllocate kGrow allocator alloc_size ptr)
         (with_heap (set_max_allowed_footprint_ footprint (w_heap w)) w)).

(** A call of [CollectGarbageInternal], recorded in the log with its result. *)
Definition collect_garbage (gc_type : GcType) (clear_soft_references : bool)
    : Method GcType :=
  result <- CollectGarbageInternal gc_type kGcCauseForAlloc clear_soft_references ;;
  log_event
    (CallCollectGarbageInternal gc_type kGcCauseForAlloc clear_soft_references result) ;;
  ret result.

(** How the loop over [gc_plan_] is left: by [return nullptr] out of the whole
    method, or at its end with the pointer obtained so far. *)
Inductive PlanLoopExit : Type :=
  | ReturnNullptr
  | EndOfLoop (ptr : Z).

(** heap.cc:972-987 *)
Fixpoint gc_plan_loop (plan : list GcType) (was_default_allocator : bool)
    (allocator : AllocatorType) (alloc_size : Z) (ptr : Z) : Method PlanLoopExit :=
  match plan with
  | [] => ret (EndOfLoop ptr)
  | gc_type :: plan' =>
      if bool_decide (ptr <> 0) then ret (EndOfLoop ptr)
      else
        result <- collect_garbage gc_type false ;;
        let gc_ran := bool_decide (result <> kGcTypeNone) in
        h <- get_heap ;;
        if was_default_allocator && bool_decide (allocator <> GetCurrentAllocator h) then
          ret ReturnNullptr
        else
          ptr <- (if gc_ran then try_to_allocate false allocator alloc_size else ret ptr) ;;
          gc_plan_loop plan' was_default_allocator allocator alloc_size ptr
  end.

(** heap.cc:950-1015.  The result is the address of the object, 0 for
    [nullptr]; the class handle, which only a moving collector updates, is left
    out.  [gc_plan_.back()] of an empty plan aborts, as its [DCHECK] does. *)
Definition AllocateInternalWithGc (allocator : AllocatorType) (alloc_size : Z)
    : Method Z :=
  h <- get_heap ;;
  let was_default_allocator := bool_decide (allocator = GetCurrentAllocator h) in
  last_gc <- WaitForGcToComplete ;;
  log_event (CallWaitForGcToComplete last_gc) ;;
  h <- get_heap ;;
  if bool_decide (last_gc <> kGcTypeNone)
     && (was_default_allocator && bool_decide (allocator <> GetCurrentAllocator h)) then
    ret 0
  else
    ptr <- (if bool_decide (last_gc <> kGcTypeNone) then
              try_to_allocate false allocator alloc_size
            else ret 0) ;;
    h <- get_heap ;;
    exit <- gc_plan_loop (gc_plan_ h) was_default_allocator allocator alloc_size ptr ;;
    match exit with
    | ReturnNullptr => ret 0
    | EndOfLoop ptr =>
        ptr <- (if bool_decide (ptr = 0) then try_to_allocate true allocator alloc_size
                else ret ptr) ;;
        if bool_decide (ptr = 0) then
          h <- get_heap ;;
          match last (gc_plan_ h) with
          | None => LOG_FATAL
          | Some gc_type =>
              collect_garbage gc_type true ;;
              h <- get_heap ;;
              if was_default_allocator
                 && bool_decide (allocator <> GetCurrentAllocator h) then
                ret 0
              else
                ptr <- try_to_allocate true allocator alloc_size ;;
                (if bool_decide (ptr = 0) then log_event (ThrowOutOfMemoryError alloc_size)
                 else ret tt) ;;
                ret ptr
          end
        else ret ptr
    end.


(** *** Native allocation accounting *)

Inductive JavaException : Type :=
  | RuntimeException_native_free (bytes expected_size : Z).

(** heap.cc:2432-2445.  [racing] holds, for each round of the loop, the net
    change other threads make to the counter between this thread's [Load] and
    its [CompareAndSwap]; once it is used up the counter is left alone.  The
    result is the counter and the exception thrown, if any. *)
Fixpoint RegisterNativeFree_loop (racing : list Z) (bytes : Z) (counter : Z)
    : Z * option JavaException :=
  let expected_size := counter in
  let new_size := to_int (expected_size - bytes) in
  if new_size <? 0 then
    (counter, Some (RuntimeException_native_free bytes expected_size))
  else
    match racing with
    | [] => (new_size, None)
    | change :: racing' =>
        let counter := to_int (counter + change) in
        if counter =? expected_size then (new_size, None)
        else RegisterNativeFree_loop racing' bytes counter
    end.

Definition RegisterNativeFree (racing : list Z) (bytes : Z) (h : Heap)
    : Heap * option JavaException :=
  let '(counter, exception) :=
    RegisterNativeFree_loop racing bytes (native_bytes_allocated_ h) in
  (set_native_bytes_allocated_ counter h, exception).

(** The values that the counter takes, one after the other, as the other
    threads change it: what the rounds of the loop find when they load it. *)
Fixpoint loaded_sizes (racing : list Z) (counter : Z) : list Z :=
  counter
  :: match racing with
     | [] => []
     | change :: racing' => loaded_sizes racing' (to_int (counter + change))
     end.

(** *** Kinds of log entries *)


Definition is_semi_space_run (e : Event) : Prop :=
  e = CollectorRun SemiSpace kGcCauseCollectorTransition false.

(** *** The calls of the slow path, as the log shows them *)

(** The log without what [CollectGarbageInternal] writes from the inside. *)
Definition is_slow_path_call (e : Event) : bool :=
  match e with
  | LogWarningSkippingGC _ | CollectorRun _ _ _ => false
  | _ => true
  end.

Definition slow_path_calls (events : list Event) : list Event :=
  List.filter is_slow_path_call events.

(** One round of the loop over the plan: the collection, and the retry that
    follows it when the collection ran. *)
Definition plan_round (allocator : AllocatorType) (alloc_size : Z)
    (gc_type result : GcType) : list Event :=
  CallCollectGarbageInternal gc_type kGcCauseForAlloc false result
  :: (if decide (result <> kGcTypeNone)
      then [CallTryToAllocate false allocator alloc_size 0]
      else []).

Fixpoint plan_rounds (allocator : AllocatorType) (alloc_size : Z)
    (plan results : list GcType) : list Event :=
  match plan, results with
  | gc_type :: plan', result :: results' =>
      plan_round allocator alloc_size gc_type result
      ++ plan_rounds allocator alloc_size plan' results'
  | _, _ => []
  end.

(** The whole escalation, for an allocation that ends in an out-of-memory
    error. *)
Definition full_escalation (allocator : AllocatorType) (alloc_size : Z)
    (last_gc : GcType) (plan results : list GcType) (last_type last_result : GcType)
    : list Event :=
  CallWaitForGcToComplete last_gc
  :: (if decide (last_gc <> kGcTypeNone)
      then [CallTryToAllocate false allocator alloc_size 0]
      else [])
  ++ plan_rounds allocator alloc_size plan results
  ++ [CallTryToAllocate true allocator alloc_size 0;
      CallCollectGarbageInternal last_type kGcCauseForAlloc true last_result;
      CallTryToAllocate true allocator alloc_size 0;
      ThrowOutOfMemoryError alloc_size].

(** No other thread completes a collector transition. *)
Definition no_transition (others : list OtherThread) : Prop :=
  forall collector_type, ~ In (OtherTransitionCollector collector_type) others.

(** No out-of-memory error is thrown. *)
Definition throws_nothing (events : list Event) : Prop :=
  forall byte_count, ~ In (ThrowOutOfMemoryError byte_count) events.

(** ** Reference processing *)

(** The fields of a [java.lang.ref.Reference] that the heap reads and writes
    through [reference_referent_offset_] and the other offsets of
    heap.cc:2224-2239; addresses are integers and 0 is [nullptr]. *)
Record Reference : Type := mkReference {
  referent : Z;
  queue : Z;
  queueNext : Z;
  pendingNext : Z;
  zombie : Z
}.

(** The reference queues that are members of the heap (heap.cc:99-103). *)
Inductive ReferenceQueue : Type :=
  | soft_reference_queue_
  | weak_reference_queue_
  | finalizer_reference_queue_
  | phantom_reference_queue_
  | cleared_references_.

#[global] Instance ReferenceQueue_eq_dec : EqDecision ReferenceQueue.
Proof. solve_decision. Defined.

(** The calls made on the queues: each of the three operations of a queue
    that [ProcessReferences] uses records itself when it is called. *)
Inductive QueueCall : Type :=
  | CallPreserveSomeSoftReferences
  | CallClearWhiteReferences (q : ReferenceQueue)
  | CallEnqueueFinalizerReferences.

(** The state of reference processing: the reference objects in memory, the
    references pending on each queue (next to be dequeued first), and the
    state of the collector behind the [void* arg] of the callbacks. *)
Set Implicit Arguments.
Record ReferenceHeap (Arg : Type) : Type := mkReferenceHeap {
  objects : gmap Z Reference;
  list_ : ReferenceQueue -> list Z;
  arg_ : Arg
}.
Unset Implicit Arguments.

Section ReferenceProcessing.

Context {Arg : Type}.

(** [is_marked_callback] answers from the collector's state with the address
    of a marked object (its new address, if it moved) or null;
    [recursive_mark_object_callback] marks an object and all it reaches, and
    may meet further references, which it puts on the queues
    (heap.cc:668-699). *)
Definition IsMarkedCallback : Type := Z -> Arg -> Z.
Definition MarkObjectCallback : Type := Z -> ReferenceHeap Arg -> Z * ReferenceHeap Arg.

Definition set_objects (o : gmap Z Reference) (rh : ReferenceHeap Arg) : ReferenceHeap Arg :=
  {| objects := o; list_ := list_ rh; arg_ := arg_ rh |}.
Definition set_list_ (q : ReferenceQueue) (pending : list Z) (rh : ReferenceHeap Arg)
    : ReferenceHeap Arg :=
  {| objects := objects rh; list_ := <[q := pending]> (list_ rh); arg_ := arg_ rh |}.

(** [ref->GetFieldObject(offset)] for one of the fields above. *)
Definition GetFieldObject (field : Reference -> Z) (ref : Z) (o : gmap Z Reference) : Z :=
  match o !! ref with
  | Some r => field r
  | None => 0
  end.

Definition set_referent (v : Z) (r : Reference) : Reference :=
  {| referent := v; queue := queue r; queueNext := queueNext r;
     pendingNext := pendingNext r; zombie := zombie r |}.
Definition set_pendingNext (v : Z) (r : Reference) : Reference :=
  {| referent := referent r; queue := queue r; queueNext := queueNext r;
     pendingNext := v; zombie := zombie r |}.
Definition set_zombie (v : Z) (r : Reference) : Reference :=
  {| referent := referent r; queue := queue r; queueNext := queueNext r;
     pendingNext := pendingNext r; zombie := v |}.

(** heap.cc:2247-2251 *)
Definition GetReferenceReferent (reference : Z) (rh : ReferenceHeap Arg) : Z :=
  GetFieldObject referent reference (objects rh).

(** heap.cc:2241-2245 *)
Definition SetReferenceReferent (reference referent : Z) (rh : ReferenceHeap Arg)
    : ReferenceHeap Arg :=
  set_objects (alter (set_referent referent) reference (objects rh)) rh.

(** Modelled from the spec: [ClearReferenceReferent] and [SetReferenceZombie]
    are defined in heap.h; section 4.7 has the referent of a cleared reference
    set to null and the referent of a finalizer reference kept for the
    finalizer. *)
Definition ClearReferenceReferent (reference : Z) (rh : ReferenceHeap Arg)
    : ReferenceHeap Arg :=
  SetReferenceReferent reference 0 rh.
Definition SetReferenceZombie (reference zombie : Z) (rh : ReferenceHeap Arg)
    : ReferenceHeap Arg :=
  set_objects (alter (set_zombie zombie) reference (objects rh)) rh.

(** heap.cc:651-655 *)
Definition IsEnqueued (ref : Z) (rh : ReferenceHeap Arg) : bool :=
  bool_decide (GetFieldObject pendingNext ref (objects rh) <> 0).

(** heap.cc:657-664 *)
Definition IsEnqueuable (ref : Z) (rh : ReferenceHeap Arg) : bool :=
  let queue := GetFieldObject queue ref (objects rh) in
  let queue_next := GetFieldObject queueNext ref (objects rh) in
  bool_decide (queue <> 0) && bool_decide (queue_next = 0).

(** The state of reference processing together with the calls made on the
    queues so far. *)
Definition Processing : Type := ReferenceHeap Arg * list QueueCall.

Definition called (call : QueueCall) (p : Processing) : Processing :=
  (fst p, snd p ++ [call]).

(** Modelled from the spec: the class [ReferenceQueue] (gc/reference_queue.cc)
    is not part of the sources at hand.  Section 3 makes a queue a list linked
    through [pendingNext]; heap.cc:652-653 adds that the lists are cyclic, so
    that the field of an enqueued reference is never null.  Here the last
    reference of the list points back to the first. *)
Definition enqueue_pending (ref : Z) (pending : list Z) (o : gmap Z Reference)
    : list Z * gmap Z Reference :=
  match pending with
  | [] => ([ref], alter (set_pendingNext ref) ref o)
  | head :: _ =>
      (ref :: pending,
       alter (set_pendingNext ref) (List.last pending head)
         (alter (set_pendingNext head) ref o))
  end.

Definition dequeue_pending (pending : list Z) (o : gmap Z Reference)
    : option (Z * list Z * gmap Z Reference) :=
  match pending with
  | [] => None
  | ref :: rest =>
      let o :=
        match rest with
        | [] => o
        | head :: _ => alter (set_pendingNext head) (List.last rest head) o
        end in
      Some (ref, rest, alter (set_pendingNext 0) ref o)
  end.

Definition IsEmpty (q : ReferenceQueue) (rh : ReferenceHeap Arg) : bool :=
  match list_ rh q with
  | [] => true
  | _ => false
  end.

Definition EnqueuePendingReference (q : ReferenceQueue) (ref : Z) (rh : ReferenceHeap Arg)
    : ReferenceHeap Arg :=
  let '(pending, o) := enqueue_pending ref (list_ rh q) (objects rh) in
  set_list_ q pending (set_objects o rh).

Definition DequeuePendingReference (q : ReferenceQueue) (rh : ReferenceHeap Arg)
    : option (Z * ReferenceHeap Arg) :=
  match dequeue_pending (list_ rh q) (objects rh) with
  | None => None
  | Some (ref, pending, o) => Some (ref, set_list_ q pending (set_objects o rh))
  end.

(** Modelled from the spec: [ReferenceQueue::ClearWhiteReferences], section
    4.7 steps 2, 3 and 6: every reference is taken off the queue; one whose
    referent is not marked has the referent cleared and goes to the cleared
    list if it can still be enqueued.  The loop is bounded by the references
    pending when it starts, because it puts nothing on its own queue. *)
Fixpoint ClearWhiteReferences_loop (pending : list Z) (q : ReferenceQueue)
    (is_marked_callback : IsMarkedCallback) (rh : ReferenceHeap Arg) : ReferenceHeap Arg :=
  match pending with
  | [] => rh
  | _ :: pending' =>
      match DequeuePendingReference q rh with
      | None => rh
      | Some (ref, rh) =>
          let referent := GetReferenceReferent ref rh in
          let rh :=
            if decide (referent <> 0) then
              let forward_address := is_marked_callback referent (arg_ rh) in
              if decide (forward_address = 0) then
                let rh := ClearReferenceReferent ref rh in
                if IsEnqueuable ref rh then EnqueuePendingReference cleared_references_ ref rh
                else rh
              else if decide (referent <> forward_address) then
                SetReferenceReferent ref forward_address rh
              else rh
            else rh in
          ClearWhiteReferences_loop pending' q is_marked_callback rh
      end
  end.

Definition ClearWhiteReferences (q : ReferenceQueue) (is_marked_callback : IsMarkedCallback)
    (p : Processing) : Processing :=
  let p := called (CallClearWhiteReferences q) p in
  (ClearWhiteReferences_loop (list_ (fst p) q) q is_marked_callback (fst p), snd p).

(** Modelled from the spec: [ReferenceQueue::EnqueueFinalizerReferences],
    section 4.7 step 4: a finalizer reference whose referent is not marked has
    the referent marked with all it reaches, moved to the zombie field, and
    goes to the cleared list.  Marking may put further references on the
    queues, this one included, so the loop runs on [fuel]. *)
Fixpoint EnqueueFinalizerReferences_loop (fuel : nat) (is_marked_callback : IsMarkedCallback)
    (recursive_mark_callback : MarkObjectCallback) (rh : ReferenceHeap Arg)
    : option (ReferenceHeap Arg) :=
  match DequeuePendingReference finalizer_reference_queue_ rh with
  | None => Some rh
  | Some (ref, rh) =>
      match fuel with
      | O => None
      | S fuel' =>
          let referent := GetReferenceReferent ref rh in
          let rh :=
            if decide (referent <> 0) then
              let forward_address := is_marked_callback referent (arg_ rh) in
              if decide (forward_address = 0) then
                let '(forward_address, rh) := recursive_mark_callback referent rh in
                let rh := SetReferenceZombie ref forward_address rh in
                let rh := ClearReferenceReferent ref rh in
                EnqueuePendingReference cleared_references_ ref rh
              else if decide (referent <> forward_address) then
                SetReferenceReferent ref forward_address rh
              else rh
            else rh in
          EnqueueFinalizerReferences_loop fuel' is_marked_callback recursive_mark_callback rh
      end
  end.

Definition EnqueueFinalizerReferences (fuel : nat) (is_marked_callback : IsMarkedCallback)
    (recursive_mark_callback : MarkObjectCallback) (p : Processing) : option Processing :=
  let p := called CallEnqueueFinalizerReferences p in
  rh ← EnqueueFinalizerReferences_loop fuel is_marked_callback recursive_mark_callback (fst p);
  Some (rh, snd p).

(** Modelled from the spec: [ReferenceQueue::PreserveSomeSoftReferences],
    section 4.7 step 1: the callback is invoked on each referent; the
    references it does not preserve stay on the queue, through a queue local
    to the method. *)
Fixpoint PreserveSomeSoftReferences_loop (fuel : nat) (preserve_callback : MarkObjectCallback)
    (cleared : list Z) (rh : ReferenceHeap Arg) : option (ReferenceHeap Arg) :=
  match DequeuePendingReference soft_reference_queue_ rh with
  | None => Some (set_list_ soft_reference_queue_ cleared rh)
  | Some (ref, rh) =>
      match fuel with
      | O => None
      | S fuel' =>
          let referent := GetReferenceReferent ref rh in
          if decide (referent <> 0) then
            let '(forward_address, rh) := preserve_callback referent rh in
            if decide (forward_address = 0) then
              let '(cleared, o) := enqueue_pending ref cleared (objects rh) in
              PreserveSomeSoftReferences_loop fuel' preserve_callback cleared (set_objects o rh)
            else
              PreserveSomeSoftReferences_loop fuel' preserve_callback cleared
                (SetReferenceReferent ref forward_address rh)
          else PreserveSomeSoftReferences_loop fuel' preserve_callback cleared rh
      end
  end.

Definition PreserveSomeSoftReferences (fuel : nat) (preserve_callback : MarkObjectCallback)
    (p : Processing) : option Processing :=
  let p := called CallPreserveSomeSoftReferences p in
  rh ← PreserveSomeSoftReferences_loop fuel preserve_callback [] (fst p);
  Some (rh, snd p).

(** heap.cc:607-611: every soft reference is preserved. *)
Definition PreserveSoftReferenceCallback (recursive_mark_callback : MarkObjectCallback)
    : MarkObjectCallback :=
  recursive_mark_callback.

(** heap.cc:614-649.  [is_zygote] is [Runtime::Current()->IsZygote()].  The
    result is the state reached and the calls that were made on the queues,
    in order; [None] when the fuel of a loop ran out.  The [DCHECK]s of a
    debug build are left out. *)
Definition ProcessReferences (fuel : nat) (clear_soft is_zygote : bool)
    (is_marked_callback : IsMarkedCallback)
    (recursive_mark_object_callback : MarkObjectCallback) (rh : ReferenceHeap Arg)
    : option (ReferenceHeap Arg * list QueueCall) :=
  let p : Processing := (rh, []) in
  p ←
    (if negb clear_soft && negb is_zygote then
       PreserveSomeSoftReferences fuel
         (PreserveSoftReferenceCallback recursive_mark_object_callback) p
     else Some p);
  let p := ClearWhiteReferences soft_reference_queue_ is_marked_callback p in
  let p := ClearWhiteReferences weak_reference_queue_ is_marked_callback p in
  p ← EnqueueFinalizerReferences fuel is_marked_callback recursive_mark_object_callback p;
  let p := ClearWhiteReferences soft_reference_queue_ is_marked_callback p in
  let p := ClearWhiteReferences weak_reference_queue_ is_marked_callback p in
  let p := ClearWhiteReferences phantom_reference_queue_ is_marked_callback p in
  Some p.









End ReferenceProcessing.

(** ** Zygote compaction *)

(** Modelled from the spec: [kObjectAlignment] is a constant of globals.h;
    section 3 gives the alignment of objects as 8 bytes. *)
Definition kObjectAlignment : Z := 8.

(** utils.h: [x] rounded up to a multiple of [n]. *)
Definition RoundUp (x n : Z) : Z := (x + n - 1) / n * n.

(** A continuous space with its two bitmaps.  Modelled from the spec: a bitmap
    (gc/accounting/space_bitmap.h) is the set of the addresses whose bit is
    set, and [Walk] visits them in ascending address order (section 3). *)
Record ContinuousSpace : Type := mkContinuousSpace {
  begin_ : Z;
  end_ : Z;
  limit_ : Z;
  live_bitmap_ : gset Z;
  mark_bitmap_ : gset Z
}.

Definition Walk {A : Type} (bitmap : gset Z) (callback : Z -> A -> A) (arg : A) : A :=
  foldl (fun arg obj => callback obj arg) arg (merge_sort Z.le (elements bitmap)).

(** Modelled from the spec: [BumpPointerSpace::Alloc]
    (gc/space/bump_pointer_space.h) hands out the bytes at the end of the
    space and moves the end, or returns null when the space is full (section
    4.2). *)
Definition Alloc (num_bytes : Z) (space : ContinuousSpace) : Z * ContinuousSpace :=
  if end_ space + num_bytes <=? limit_ space then
    (end_ space,
     {| begin_ := begin_ space; end_ := end_ space + num_bytes; limit_ := limit_ space;
        live_bitmap_ := live_bitmap_ space; mark_bitmap_ := mark_bitmap_ space |})
  else (0, space).

(** [std::multimap<size_t, uintptr_t>]: the entries in ascending order of
    their key, entries of equal key in the order of their insertion. *)
Fixpoint multimap_insert (key value : Z) (m : list (Z * Z)) : list (Z * Z) :=
  match m with
  | [] => [(key, value)]
  | (key', value') :: m' =>
      if key <? key' then (key, value) :: m
      else (key', value') :: multimap_insert key value m'
  end.

(** [lower_bound(key)]: the entries before the first one whose key is not
    less than [key], that entry, and the entries after it. *)
Fixpoint lower_bound (key : Z) (m : list (Z * Z))
    : option (list (Z * Z) * (Z * Z) * list (Z * Z)) :=
  match m with
  | [] => None
  | entry :: m' =>
      if key <=? fst entry then Some ([], entry, m')
      else
        match lower_bound key m' with
        | Some (before, found, after) => Some (entry :: before, found, after)
        | None => None
        end
  end.

(** heap.cc:1304-1390, the members of the collector that bin packing uses.
    The bitmaps of the non-moving space, which [MarkNonForwardedObject] reaches
    through the heap, are the two [BuildBins] was given (heap.cc:1412). *)
Record ZygoteCompactingCollector : Type := mkZygoteCompactingCollector {
  bins_ : list (Z * Z);
  bin_live_bitmap_ : gset Z;
  bin_mark_bitmap_ : gset Z;
  to_space_ : ContinuousSpace;
  to_space_live_bitmap_ : option (gset Z)
}.

(** heap.cc:1345-1349 *)
Definition AddBin (size position : Z) (bins : list (Z * Z)) : list (Z * Z) :=
  if decide (size <> 0) then multimap_insert size position bins else bins.

Section ZygoteCompaction.

(** [obj->SizeOf()], the size the class of the object at an address gives. *)
Variable SizeOf : Z -> Z.

(** heap.cc:1334-1343; the context is [prev_] and the bins of the collector. *)
Definition Callback (obj : Z) (context : Z * list (Z * Z)) : Z * list (Z * Z) :=
  let '(prev_, bins) := context in
  let object_addr := obj in
  let bin_size := to_size_t (object_addr - prev_) in
  let bins := AddBin bin_size prev_ bins in
  (to_size_t (object_addr + RoundUp (SizeOf obj) kObjectAlignment), bins).

(** heap.cc:1309-1320 *)
Definition BuildBins (space : ContinuousSpace) (collector : ZygoteCompactingCollector)
    : ZygoteCompactingCollector :=
  let '(prev_, bins) := Walk (live_bitmap_ space) Callback (begin_ space, bins_ collector) in
  {| bins_ := AddBin (to_size_t (end_ space - prev_)) prev_ bins;
     bin_live_bitmap_ := live_bitmap_ space;
     bin_mark_bitmap_ := mark_bitmap_ space;
     to_space_ := to_space_ collector;
     to_space_live_bitmap_ := to_space_live_bitmap_ collector |}.

(** heap.cc:1358-1389.  The result is the forwarding address with the
    collector afterwards; [None] stands for the crash on the null address that
    a full target space hands out.  The bytes of the object, which [memcpy]
    moves, are not part of the model. *)
Definition MarkNonForwardedObject (obj : Z) (collector : ZygoteCompactingCollector)
    : option (Z * ZygoteCompactingCollector) :=
  let object_size := RoundUp (SizeOf obj) kObjectAlignment in
  match lower_bound object_size (bins_ collector) with
  | None =>
      let '(forward_address, to_space) := Alloc object_size (to_space_ collector) in
      if decide (forward_address = 0) then None
      else
        Some (forward_address,
              match to_space_live_bitmap_ collector with
              | Some bitmap =>
                  {| bins_ := bins_ collector;
                     bin_live_bitmap_ := bin_live_bitmap_ collector;
                     bin_mark_bitmap_ := bin_mark_bitmap_ collector;
                     to_space_ := to_space;
                     to_space_live_bitmap_ := Some ({[forward_address]} ∪ bitmap) |}
              | None =>
                  {| bins_ := bins_ collector;
                     bin_live_bitmap_ := {[forward_address]} ∪ bin_live_bitmap_ collector;
                     bin_mark_bitmap_ := {[forward_address]} ∪ bin_mark_bitmap_ collector;
                     to_space_ := to_space;
                     to_space_live_bitmap_ := None |}
              end)
  | Some (before, (size, pos), after) =>
      let forward_address := pos in
      Some (forward_address,
            {| bins_ := AddBin (to_size_t (size - object_size))
                          (to_size_t (pos + object_size)) (before ++ after);
               bin_live_bitmap_ := {[forward_address]} ∪ bin_live_bitmap_ collector;
               bin_mark_bitmap_ := {[forward_address]} ∪ bin_mark_bitmap_ collector;
               to_space_ := to_space_ collector;
               to_space_live_bitmap_ := to_space_live_bitmap_ collector |})
  end.

(** The live objects of a space in ascending address order, each with its
    aligned size. *)
Definition live_objects (space : ContinuousSpace) : list (Z * Z) :=
  (fun obj => (obj, RoundUp (SizeOf obj) kObjectAlignment))
    <$> merge_sort Z.le (elements (live_bitmap_ space)).

End ZygoteCompaction.

(** The gaps that a sequence of objects leaves free between [prev] and the
    end of the space, in address order, each as its size and its position:
    the gap before the first object, the gaps between consecutive objects, and
    the gap after the last one. *)
Fixpoint gaps_from (prev : Z) (objs : list (Z * Z)) (space_end : Z) : list (Z * Z) :=
  match objs with
  | [] => [(space_end - prev, prev)]
  | (addr, size) :: objs' => (addr - prev, prev) :: gaps_from (addr + size) objs' space_end
  end.

(** The gaps as the sentence on bins words them: between consecutive objects,
    plus the one from the last object to the end of the space. *)
Definition gaps_between_consecutive_objects_and_tail (objs : list (Z * Z)) (space_end : Z)
    : list (Z * Z) :=
  match objs with
  | [] => []
  | (addr, size) :: objs' => gaps_from (addr + size) objs' space_end
  end.

Definition nonempty_gap (gap : Z * Z) : bool := negb (fst gap =? 0).

(** The objects lie one after the other between [prev] and the end of the
    space. *)
Fixpoint laid_out (prev : Z) (objs : list (Z * Z)) (space_end : Z) : Prop :=
  match objs with
  | [] => prev <= space_end
  | (addr, size) :: objs' => prev <= addr /\ 0 <= size /\ laid_out (addr + size) objs' space_end
  end.

(** The invariant of a multimap: ascending keys. *)
Definition bins_sorted (bins : list (Z * Z)) : Prop :=
  StronglySorted (fun a b => fst a <= fst b) bins.

(** ** Sample reference heap and sample space *)

(** A soft, a weak, a finalizer and a phantom reference are pending, none with
    a marked referent; the weak reference has no queue to be enqueued on.  A
    second weak reference, at 500, is reachable only from the object at 3000,
    the referent of the finalizer reference. *)
Definition sample_references : gmap Z Reference :=
  list_to_map
    [(100, mkReference 1000 900 0 100 0);
     (200, mkReference 2000 0 0 200 0);
     (300, mkReference 3000 900 0 300 0);
     (400, mkReference 3000 900 0 400 0);
     (500, mkReference 5000 900 0 0 0)].

Definition sample_reference_heap : ReferenceHeap (gset Z) :=
  {| objects := sample_references;
     list_ := fun q =>
       match q with
       | soft_reference_queue_ => [100]
       | weak_reference_queue_ => [200]
       | finalizer_reference_queue_ => [300]
       | phantom_reference_queue_ => [400]
       | cleared_references_ => []
       end;
     arg_ := ∅ |}.

(** The collector's state is the set of marked addresses. *)
Definition sample_is_marked_callback (obj : Z) (marked : gset Z) : Z :=
  if decide (obj ∈ marked) then obj else 0.

(** Marking the object at 3000 meets the weak reference at 500 and puts it on
    the weak queue. *)
Definition sample_mark_callback (obj : Z) (rh : ReferenceHeap (gset Z))
    : Z * ReferenceHeap (gset Z) :=
  let rh := {| objects := objects rh; list_ := list_ rh; arg_ := {[obj]} ∪ arg_ rh |} in
  (obj,
   if decide (obj = 3000) then EnqueuePendingReference weak_reference_queue_ 500 rh
   else rh).



(** A non-moving space of one page with two live objects of 20 bytes, and the
    target space that follows it. *)
Definition sample_SizeOf (obj : Z) : Z := 20.

Definition sample_space : ContinuousSpace :=
  {| begin_ := 4096; end_ := 8192; limit_ := 16384;
     live_bitmap_ := {[4112; 4200]}; mark_bitmap_ := ∅ |}.

Definition sample_collector : ZygoteCompactingCollector :=
  {| bins_ := [];
     bin_live_bitmap_ := ∅;
     bin_mark_bitmap_ := ∅;
     to_space_ := {| begin_ := 8192; end_ := 8192; limit_ := 16384;
                     live_bitmap_ := ∅; mark_bitmap_ := ∅ |};
     to_space_live_bitmap_ := None |}.

(** A space whose only live object does not start at the begin of the
    space. *)
Definition space_with_one_object : ContinuousSpace :=
  {| begin_ := 4096; end_ := 8192; limit_ := 16384;
     live_bitmap_ := {[4112]}; mark_bitmap_ := ∅ |}.

(** ** Explicit and concurrent collections *)

(** heap.cc:1166-1170.  [gc_plan_.back()] of an empty plan is undefined; the
    model aborts there. *)
Definition CollectGarbage (clear_soft_references : bool) : Method unit :=
  h <- get_heap ;;
  match last (gc_plan_ h) with
  | None => LOG_FATAL
  | Some gc_type =>
      CollectGarbageInternal gc_type kGcCauseExplicit clear_soft_references ;;
      ret tt
  end.

(** [a > b] on [collector::GcType], an enumeration of gc/collector/gc_type.h. *)
Variable GcType_gt : GcType -> GcType -> bool.

(** heap.cc:2305-2311: the loop over [gc_plan_], left at the first collection
    that ran. *)
Fixpoint ConcurrentGC_plan_loop (plan : list GcType) : Method unit :=
  match plan with
  | [] => ret tt
  | gc_type :: plan' =>
      h <- get_heap ;;
      if GcType_gt gc_type (next_gc_type_ h) then
        result <- CollectGarbageInternal gc_type kGcCauseBackground false ;;
        if bool_decide (result <> kGcTypeNone) then ret tt
        else ConcurrentGC_plan_loop plan'
      else ConcurrentGC_plan_loop plan'
  end.

(** heap.cc:2295-2314; [is_shutting_down] is
    [Runtime::Current()->IsShuttingDown(self)]. *)
Definition ConcurrentGC (is_shutting_down : bool) : Method unit :=
  if is_shutting_down then ret tt
  else
    last_gc <- WaitForGcToComplete ;;
    if bool_decide (last_gc = kGcTypeNone) then
      h <- get_heap ;;
      result <- CollectGarbageInternal (next_gc_type_ h) kGcCauseBackground false ;;
      if bool_decide (result = kGcTypeNone) then
        h <- get_heap ;;
        ConcurrentGC_plan_loop (gc_plan_ h)
      else ret tt
    else ret tt.

(** A retry of the allocation that did not return null. *)
Definition successful_retry (e : Event) : bool :=
  match e with
  | CallTryToAllocate _ _ _ result => negb (result =? 0)
  | _ => false
  end.

(** The collector runs that a log records. *)
Definition is_collector_run (e : Event) : bool :=
  match e with
  | CollectorRun _ _ _ => true
  | _ => false
  end.

Definition collector_runs (events : list Event) : list Event :=
  List.filter is_collector_run events.

(** The configuration [ChangeCollector] gives the heap for a collector type:
    whether collections are concurrent, the plan, and the allocator. *)
Definition collector_configuration (collector_type : CollectorType) (use_tlab : bool)
    : bool * list GcType * AllocatorType :=
  if IsCompactingGC collector_type then
    (false, [kGcTypeFull],
     if use_tlab then kAllocatorTypeTLAB else kAllocatorTypeBumpPointer)
  else
    (bool_decide (collector_type = kCollectorTypeCMS),
     [kGcTypeSticky; kGcTypePartial; kGcTypeFull],
     if kUseRosAlloc then kAllocatorTypeRosAlloc else kAllocatorTypeDlMalloc).

(** The main space and the memory map kept aside, as a transition to a
    collector type leaves them (heap.cc:1191-1233): a compacting collector
    has the main space released to its memory map, and a mark-sweep collector
    that follows a compacting one has the main space created again from it. *)
Definition transitioned_spaces (collector_type : CollectorType) (h : Heap)
    : option MallocSpace * option MemMap :=
  if IsCompactingGC collector_type then (None, Some AllocSpaceMemMap)
  else if IsCompactingGC (collector_type_ h) then
    (Some (if kUseRosAlloc then RosAllocSpace else DlMallocSpace), None)
  else (main_space_ h, allocator_mem_map_ h).

(** ** The watermarks of native allocation *)

(** heap.cc:110-111, the two members [UpdateMaxNativeFootprint] assigns. *)
Record NativeFootprint : Type := mkNativeFootprint {
  native_footprint_gc_watermark_ : Z;
  native_footprint_limit_ : Z
}.

(** heap.cc:2148-2159 *)
Definition UpdateMaxNativeFootprint (h : Heap) : NativeFootprint :=
  let native_size := to_size_t (native_bytes_allocated_ h) in
  let target_size := DivideByTargetHeapUtilization native_size in
  let target_size :=
    if to_size_t (native_size + max_free_ h) <? target_size then
      to_size_t (native_size + max_free_ h)
    else if target_size <? to_size_t (native_size + min_free_ h) then
      to_size_t (native_size + min_free_ h)
    else target_size in
  {| native_footprint_gc_watermark_ := target_size;
     native_footprint_limit_ := to_size_t (2 * target_size - native_size) |}.

(** ** The continuous spaces of the heap *)

(** A continuous space as [continuous_spaces_] holds it: the address of the
    space object, where the space begins, and what two of its virtual
    predicates answer. *)
Record Space : Type := mkSpace {
  this : Z;
  Begin : Z;
  IsImageSpace : bool;
  IsZygoteSpace : bool
}.

#[global] Instance Space_eq_dec : EqDecision Space.
Proof. solve_decision. Defined.

(** The comparison [AddSpace] sorts by (heap.cc:428-431). *)
Definition begins_before (a b : Space) : Prop := Begin a <= Begin b.

#[global] Instance begins_before_dec a b : Decision (begins_before a b).
Proof. unfold begins_before. apply _. Defined.

(** heap.cc:405-444, followed on [continuous_spaces_] for a continuous space:
    [push_back], then [std::sort] by [Begin].  The order [std::sort] gives to
    spaces that begin at the same address is not specified; here they keep
    the order they had. *)
Definition AddSpace (space : Space) (continuous_spaces : list Space) : list Space :=
  merge_sort begins_before (continuous_spaces ++ [space]).

(** [std::find] and [erase] of heap.cc:460-462: the first entry that is the
    given space object is taken out. *)
Fixpoint erase_space (space : Z) (continuous_spaces : list Space) : option (list Space) :=
  match continuous_spaces with
  | [] => None
  | s :: spaces =>
      if decide (this s = space) then Some spaces
      else
        match erase_space space spaces with
        | Some spaces' => Some (s :: spaces')
        | None => None
        end
  end.

(** heap.cc:446-489, followed on [continuous_spaces_]; [None] where the space
    is not in the list, which the code excludes with a [DCHECK]. *)
Definition RemoveSpace (space : Space) (continuous_spaces : list Space)
    : option (list Space) :=
  erase_space (this space) continuous_spaces.

Section Spaces.

(** [space->Contains(obj)] of gc/space/space.h. *)
Variable Contains : Space -> Z -> bool.

(** The outcome of a search: a space, null, or the [LOG(FATAL)]. *)
Inductive Found : Type :=
  | FoundSpace (space : Space)
  | FoundNull
  | FoundFatal.

(** heap.cc:567-578 *)
Definition FindContinuousSpaceFromObject (obj : Z) (fail_ok : bool)
    (continuous_spaces : list Space) : Found :=
  match List.find (fun space => Contains space obj) continuous_spaces with
  | Some space => FoundSpace space
  | None => if negb fail_ok then FoundFatal else FoundNull
  end.

End Spaces.

(** heap.cc:701-708 *)
Definition GetImageSpace (continuous_spaces : list Space) : option Space :=
  List.find IsImageSpace continuous_spaces.

(** heap.cc:322-329 *)
Fixpoint HasImageSpace (continuous_spaces : list Space) : bool :=
  match continuous_spaces with
  | [] => false
  | space :: spaces => if IsImageSpace space then true else HasImageSpace spaces
  end.

(** heap.cc:311-320 *)
Fixpoint IsCompilingBoot (continuous_spaces : list Space) : bool :=
  match continuous_spaces with
  | [] => true
  | space :: spaces =>
      if IsImageSpace space then false
      else if IsZygoteSpace space then false
      else IsCompilingBoot spaces
  end.

(** ** Instances of a class *)

Definition to_uint32_t (z : Z) : Z := z mod 2 ^ 32.

Section Instances.

(** [o->GetClass()], and [c->IsAssignableFrom(instance_class)] of
    mirror/class.h. *)
Variable GetClass : Z -> Z.
Variable IsAssignableFrom : Z -> Z -> bool.

(** heap.cc:1090-1097, the visitor [GetInstances] passes over the live
    objects; [max_count_] is a [uint32_t]. *)
Definition InstanceCollector (class_ max_count_ : Z) (o : Z) (instances_ : list Z)
    : list Z :=
  let instance_class := GetClass o in
  if decide (instance_class = class_) then
    if bool_decide (max_count_ = 0) || (Z.of_nat (length instances_) <? max_count_) then
      instances_ ++ [o]
    else instances_
  else instances_.

(** heap.cc:1116-1118: the collector is constructed from the [int32_t]
    [max_count] and visits the live objects, here in the order [visited]. *)
Definition GetInstances_Visit (c max_count : Z) (visited : list Z) (instances : list Z)
    : list Z :=
  foldl (fun instances_ o => InstanceCollector c (to_uint32_t max_count) o instances_)
        instances visited.

(** heap.cc:1046-1059, one visit of [InstanceCounter]: [counts_] is an array
    at least as long as [classes_], of which the entries past the classes are
    not touched. *)
Definition counts_instance (use_is_assignable_from_ : bool) (o : Z) (class_ : Z) : bool :=
  let instance_class := GetClass o in
  if use_is_assignable_from_ then
    bool_decide (instance_class <> 0) && IsAssignableFrom class_ instance_class
  else bool_decide (instance_class = class_).

Definition InstanceCounter (classes_ : list Z) (use_is_assignable_from_ : bool) (o : Z)
    (counts_ : list Z) : list Z :=
  zip_with
    (fun class_ count =>
       if counts_instance use_is_assignable_from_ o class_ then to_uint64_t (count + 1)
       else count)
    classes_ counts_
  ++ drop (length classes_) counts_.

(** heap.cc:1078-1080 *)
Definition CountInstances_Visit (classes : list Z) (use_is_assignable_from : bool)
    (visited : list Z) (counts : list Z) : list Z :=
  foldl (fun counts_ o => InstanceCounter classes use_is_assignable_from o counts_)
        counts visited.

End Instances.

(** ** The allocation stack *)

Section AllocStack.

(** [bitmap1->HasAddress(obj)] and [bitmap2->HasAddress(obj)] of
    gc/accounting/space_bitmap.h: whether the bitmap covers the address. *)
Variable HasAddress1 : Z -> bool.
Variable HasAddress2 : Z -> bool.

(** heap.cc:1477-1495.  The two bitmaps and the set of large objects are the
    sets of the addresses that are set in them. *)
Definition MarkAllocStack (bitmap1 bitmap2 large_objects : gset Z) (stack : list Z)
    : gset Z * gset Z * gset Z :=
  foldl
    (fun '(bitmap1, bitmap2, large_objects) obj =>
       if HasAddress1 obj then ({[obj]} ∪ bitmap1, bitmap2, large_objects)
       else if HasAddress2 obj then (bitmap1, {[obj]} ∪ bitmap2, large_objects)
       else (bitmap1, bitmap2, {[obj]} ∪ large_objects))
    (bitmap1, bitmap2, large_objects) stack.

End AllocStack.

(** ** Threads (runtime/thread.cc) *)

(** The members of a [Thread] that suspension and checkpoints use.
    [state_and_flags_] is the [as_int] view of the union; the checkpoint
    functions are the addresses of the closures, 0 for [nullptr]. *)
Record Thread : Type := mkThread {
  state_and_flags_ : Z;
  suspend_count_ : Z;
  debug_suspend_count_ : Z;
  checkpoint_functions_ : list Z
}.

Definition set_state_and_flags_ (v : Z) (t : Thread) : Thread :=
  {| state_and_flags_ := v; suspend_count_ := suspend_count_ t;
     debug_suspend_count_ := debug_suspend_count_ t;
     checkpoint_functions_ := checkpoint_functions_ t |}.
Definition set_suspend_count_ (v : Z) (t : Thread) : Thread :=
  {| state_and_flags_ := state_and_flags_ t; suspend_count_ := v;
     debug_suspend_count_ := debug_suspend_count_ t;
     checkpoint_functions_ := checkpoint_functions_ t |}.
Definition set_debug_suspend_count_ (v : Z) (t : Thread) : Thread :=
  {| state_and_flags_ := state_and_flags_ t; suspend_count_ := suspend_count_ t;
     debug_suspend_count_ := v;
     checkpoint_functions_ := checkpoint_functions_ t |}.
Definition set_checkpoint_functions_ (v : list Z) (t : Thread) : Thread :=
  {| state_and_flags_ := state_and_flags_ t; suspend_count_ := suspend_count_ t;
     debug_suspend_count_ := debug_suspend_count_ t;
     checkpoint_functions_ := v |}.

(** thread.cc:518-524: [android_atomic_or] and [android_atomic_and] on the
    [as_int] view; [-1 ^ flag] is the complement of the flag. *)
Definition AtomicSetFlag (flag : Z) (t : Thread) : Thread :=
  set_state_and_flags_ (Z.lor flag (state_and_flags_ t)) t.
Definition AtomicClearFlag (flag : Z) (t : Thread) : Thread :=
  set_state_and_flags_ (Z.land (Z.lxor (-1) flag) (state_and_flags_ t)) t.

(** The two halves of the union: [as_struct.flags] is the half at offset 0
    (THREAD_FLAGS_OFFSET of asm_support_arm.h), the low half on the
    little-endian targets of this runtime, and [as_struct.state] the other. *)
Definition as_struct_flags (as_int : Z) : Z := Z.land as_int (Z.ones 16).
Definition as_struct_state (as_int : Z) : Z := Z.land (Z.shiftr as_int 16) (Z.ones 16).
Definition with_as_struct_flags (flags as_int : Z) : Z :=
  Z.lor (Z.ldiff as_int (Z.ones 16)) (Z.land flags (Z.ones 16)).

Section Threads.

(** The flags and the state of thread.h and thread_state.h that the modelled
    methods name. *)
Variable kSuspendRequest : Z.
Variable kCheckpointRequest : Z.
Variable kRunnable : Z.

(** [ReadFlag(flag)] of thread.h, on the thread as it is. *)
Variable ReadFlag : Z -> Thread -> bool.

(** thread.cc:547-570.  [None] is the [LOG(FATAL)] of
    [UnsafeLogFatalForSuspendCount]; the [DCHECK]s of a debug build are left
    out. *)
Definition ModifySuspendCount (delta : Z) (for_debugger : bool) (t : Thread)
    : option Thread :=
  if (delta <? 0) && (suspend_count_ t <=? 0) then None
  else
    let t := set_suspend_count_ (to_int (suspend_count_ t + delta)) t in
    let t :=
      if for_debugger then
        set_debug_suspend_count_ (to_int (debug_suspend_count_ t + delta)) t
      else t in
    Some (if suspend_count_ t =? 0 then AtomicClearFlag kSuspendRequest t
          else AtomicSetFlag kSuspendRequest t).

(** thread.cc:609-615: the first free slot. *)
Fixpoint available_checkpoint (checkpoint_functions : list Z) : option nat :=
  match checkpoint_functions with
  | [] => None
  | function :: functions =>
      if decide (function = 0) then Some O
      else S <$> available_checkpoint functions
  end.

(** thread.cc:602-638.  [racing] is the value another thread has given
    [state_and_flags_] between the read at the top and the compare-and-swap,
    if any.  The result tells whether the checkpoint was installed; [None] is
    a failed [CHECK_EQ]. *)
Definition RequestCheckpoint (function : Z) (racing : option Z) (t : Thread)
    : option (bool * Thread) :=
  let old_state_and_flags := state_and_flags_ t in
  if decide (as_struct_state old_state_and_flags <> kRunnable) then Some (false, t)
  else
    match available_checkpoint (checkpoint_functions_ t) with
    | None => Some (false, t)
    | Some i =>
        let installed :=
          set_checkpoint_functions_ (<[i := function]> (checkpoint_functions_ t)) t in
        let new_state_and_flags :=
          with_as_struct_flags
            (Z.lor (as_struct_flags old_state_and_flags) kCheckpointRequest)
            old_state_and_flags in
        let current := default old_state_and_flags racing in
        if decide (current = old_state_and_flags) then
          let requested := set_state_and_flags_ new_state_and_flags installed in
          if ReadFlag kCheckpointRequest requested then Some (true, requested) else None
        else
          if decide (checkpoint_functions_ installed !! i = Some function) then
            Some (false,
                  set_state_and_flags_ current
                    (set_checkpoint_functions_
                       (<[i := 0]> (checkpoint_functions_ installed)) installed))
          else None
    end.

(** thread.cc:572-600.  The result is the closures that were run, in the
    order of their slots, with the thread afterwards; [None] is the failed
    [CHECK(found_checkpoint)]. *)
Definition RunCheckpointFunction (t : Thread) : option (list Z * Thread) :=
  let checkpoints := checkpoint_functions_ t in
  let t :=
    AtomicClearFlag kCheckpointRequest
      (set_checkpoint_functions_ ((fun _ => 0) <$> checkpoints) t) in
  match List.filter (fun function => negb (function =? 0)) checkpoints with
  | [] => None
  | run => Some (run, t)
  end.

End Threads.

(** ** Sizes of bins and objects *)

(** The bytes that a list of bins, or of objects with their sizes, covers. *)
Definition bins_total (bins : list (Z * Z)) : Z := foldr (fun bin total => fst bin + total) 0 bins.
Definition objects_total (objs : list (Z * Z)) : Z :=
  foldr (fun obj total => snd obj + total) 0 objs.

(** ** Further sample data *)

(** An order of the collection types by how much they collect. *)
Definition sample_GcType_gt (a b : GcType) : bool :=
  match a, b with
  | kGcTypeSticky, kGcTypeNone
  | kGcTypePartial, (kGcTypeNone | kGcTypeSticky)
  | kGcTypeFull, (kGcTypeNone | kGcTypeSticky | kGcTypePartial) => true
  | _, _ => false
  end.

(** An image at the bottom of the address space and two spaces above it. *)
Definition sample_image_space : Space :=
  {| this := 100; Begin := 4096; IsImageSpace := true; IsZygoteSpace := false |}.
Definition sample_malloc_space : Space :=
  {| this := 200; Begin := 1048576; IsImageSpace := false; IsZygoteSpace := false |}.
Definition sample_bump_pointer_space : Space :=
  {| this := 300; Begin := 65536; IsImageSpace := false; IsZygoteSpace := false |}.

(** Spaces of 32 KiB each. *)
Definition sample_Contains (space : Space) (obj : Z) : bool :=
  (Begin space <=? obj) && (obj <? Begin space + 32768).

(** Objects at odd multiples of eight are instances of the class at 800, the
    others of the class at 1600. *)
Definition sample_GetClass (o : Z) : Z := if Z.odd (o / 8) then 800 else 1600.
Definition sample_IsAssignableFrom (c instance_class : Z) : bool := c =? instance_class.

(** A runnable thread that is not suspended and has no checkpoint pending;
    the flags are those of two bits, the state is 67. *)
Definition sample_thread : Thread :=
  {| state_and_flags_ := 67 * 65536; suspend_count_ := 0; debug_suspend_count_ := 0;
     checkpoint_functions_ := [0; 0; 0] |}.

(** A flag reads as set when one of its bits is set in the flags half. *)
Definition sample_ReadFlag (flag : Z) (t : Thread) : bool :=
  negb (Z.land (as_struct_flags (state_and_flags_ t)) flag =? 0).

(** An allocator that finds room only once the footprint may grow: the object
    is then placed at 8192 and the limit raised by its size. *)
Definition allocation_needs_growth (kGrow : bool) (allocator : AllocatorType)
    (alloc_size : Z) (h : Heap) : Z * Z :=
  if kGrow then (8192, max_allowed_footprint_ h + alloc_size)
  else (0, max_allowed_footprint_ h).

(** * Properties *)

(** ** Machine integers *)

Lemma to_size_t_small z : 0 <= z <= SIZE_MAX -> to_size_t z = z.
Proof.
  unfold to_size_t, SIZE_MAX, kBitsPerSizeT. intros Hz.
  apply Z.mod_small. lia.
Qed.

(** ** Growth policy *)

Lemma GrowForUtilization_next_gc_type now gc_type gc_duration h :
  next_gc_type_ (GrowForUtilization now gc_type gc_duration h)
  = next_gc_type_ (snd (GrowForUtilization_target_size gc_type h)).
Proof.
  unfold GrowForUtilization.
  destruct (GrowForUtilization_target_size gc_type _) as [target_size h1] eqn:E.
  assert (Hn : next_gc_type_ (snd (GrowForUtilization_target_size gc_type h)) = next_gc_type_ h1).
  { revert E. unfold GrowForUtilization_target_size. simpl.
    destruct (decide (gc_type <> kGcTypeSticky)); intros [= <- <-]; done. }
  rewrite Hn.
  destruct (negb (ignore_max_footprint_ h1)); [|done].
  destruct (concurrent_gc_ (SetIdealFootprint target_size h1)); done.
Qed.

Lemma GrowForUtilization_target_size_non_sticky gc_type h :
  gc_type <> kGcTypeSticky ->
  let bytes_allocated := GetBytesAllocated h in
  let quotient := DivideByTargetHeapUtilization bytes_allocated in
  GrowForUtilization_target_size gc_type h
  = (if to_size_t (bytes_allocated + max_free_ h) <? quotient then
       to_size_t (bytes_allocated + max_free_ h)
     else if quotient <? to_size_t (bytes_allocated + min_free_ h) then
       to_size_t (bytes_allocated + min_free_ h)
     else quotient,
     set_next_gc_type_ kGcTypeSticky (set_native_need_to_run_finalization_ true h)).
Proof.
  intros Hns. unfold GrowForUtilization_target_size.
  destruct (decide (gc_type <> kGcTypeSticky)); [reflexivity | contradiction].
Qed.

Lemma GrowForUtilization_footprint now gc_type gc_duration h :
  max_allowed_footprint_ (GrowForUtilization now gc_type gc_duration h)
  = if ignore_max_footprint_ h then max_allowed_footprint_ h
    else Z.min (fst (GrowForUtilization_target_size gc_type h)) (growth_limit_ h).
Proof.
  unfold GrowForUtilization.
  assert (Hsame : forall h0,
    let r := GrowForUtilization_target_size gc_type h0 in
    ignore_max_footprint_ (snd r) = ignore_max_footprint_ h0
    /\ growth_limit_ (snd r) = growth_limit_ h0
    /\ max_allowed_footprint_ (snd r) = max_allowed_footprint_ h0).
  { intros h0. unfold GrowForUtilization_target_size.
    destruct (decide (gc_type <> kGcTypeSticky)); done. }
  set (h0 := set_last_gc_time_ns_ now (set_last_gc_size_ (GetBytesAllocated h) h)).
  assert (Ht : fst (GrowForUtilization_target_size gc_type h0)
               = fst (GrowForUtilization_target_size gc_type h)).
  { unfold GrowForUtilization_target_size.
    destruct (decide (gc_type <> kGcTypeSticky)); reflexivity. }
  destruct (Hsame h0) as (Hi & Hg & Hm).
  destruct (GrowForUtilization_target_size gc_type h0) as [target_size h1] eqn:E.
  simpl in Hi, Hg, Hm, Ht. subst target_size.
  rewrite Hi. change (ignore_max_footprint_ h0) with (ignore_max_footprint_ h).
  destruct (ignore_max_footprint_ h); simpl; [exact Hm|].
  set (t := fst (GrowForUtilization_target_size gc_type h)).
  assert (Hf : max_allowed_footprint_ (SetIdealFootprint t h1) = Z.min t (growth_limit_ h)).
  { unfold SetIdealFootprint, GetMaxMemory. rewrite Hg.
    change (growth_limit_ h0) with (growth_limit_ h).
    destruct (Z.ltb_spec (growth_limit_ h) t); simpl; lia. }
  change (concurrent_gc_ (SetIdealFootprint t h1)) with (concurrent_gc_ h1).
  destruct (concurrent_gc_ h1); exact Hf.
Qed.

(** C3, as amended.  After a collection whose type is not sticky, with
    [min_free_ <= max_free_] and no [size_t] overflow in the two sums,
    [GrowForUtilization] computes the target
    max(min(bytes/utilization, bytes + max_free), bytes + min_free), makes
    sticky the next collection type, and, unless the maximum footprint is
    ignored, stores the target capped at the growth limit as the allowed
    footprint. *)
Theorem GrowForUtilization_after_non_sticky_gc now gc_type gc_duration h :
  gc_type <> kGcTypeSticky ->
  0 <= GetBytesAllocated h ->
  0 <= min_free_ h <= max_free_ h ->
  GetBytesAllocated h + max_free_ h <= SIZE_MAX ->
  let bytes_allocated := GetBytesAllocated h in
  let target_size :=
    Z.max (Z.min (DivideByTargetHeapUtilization bytes_allocated)
                 (bytes_allocated + max_free_ h))
          (bytes_allocated + min_free_ h) in
  let h' := GrowForUtilization now gc_type gc_duration h in
  fst (GrowForUtilization_target_size gc_type h) = target_size
  /\ next_gc_type_ h' = kGcTypeSticky
  /\ max_allowed_footprint_ h'
     = if ignore_max_footprint_ h then max_allowed_footprint_ h
       else Z.min target_size (growth_limit_ h).
Proof.
  intros Hns Hb Hfree Hfit bytes_allocated target_size h'.
  assert (Ht : fst (GrowForUtilization_target_size gc_type h) = target_size).
  { rewrite GrowForUtilization_target_size_non_sticky by assumption. simpl.
    fold bytes_allocated. subst target_size.
    rewrite !to_size_t_small by (subst bytes_allocated; lia).
    destruct (Z.ltb_spec (bytes_allocated + max_free_ h)
                (DivideByTargetHeapUtilization bytes_allocated)); [lia|].
    destruct (Z.ltb_spec (DivideByTargetHeapUtilization bytes_allocated)
                (bytes_allocated + min_free_ h)); lia. }
  split; [exact Ht|]. split.
  - subst h'. rewrite GrowForUtilization_next_gc_type.
    rewrite GrowForUtilization_target_size_non_sticky by assumption. reflexivity.
  - subst h'. rewrite GrowForUtilization_footprint, Ht. reflexivity.
Qed.

(** C4, as amended.  Under a concurrent collector, when the maximum footprint
    is not ignored, the trigger of the next concurrent collection is
    max(footprint - remaining, bytes allocated), the difference taken in
    [size_t], where [footprint] is the allowed footprint just stored and
    [remaining] is the estimate clamped to [128 KiB, 512 KiB], replaced by
    128 KiB when the clamped estimate exceeds the footprint. *)
Theorem GrowForUtilization_concurrent_start_bytes_after_gc now gc_type gc_duration h :
  concurrent_gc_ h = true ->
  ignore_max_footprint_ h = false ->
  let h' := GrowForUtilization now gc_type gc_duration h in
  let footprint := max_allowed_footprint_ h' in
  let clamped :=
    Z.max (Z.min (EstimateRemainingBytes (allocation_rate_ h) (NsToMs gc_duration))
                 kMaxConcurrentRemainingBytes)
          kMinConcurrentRemainingBytes in
  let remaining :=
    if footprint <? clamped then kMinConcurrentRemainingBytes else clamped in
  concurrent_start_bytes_ h'
  = Z.max (to_size_t (footprint - remaining)) (GetBytesAllocated h).
Proof.
  intros Hc Hi. unfold GrowForUtilization.
  assert (Hsame : forall h0,
    let r := GrowForUtilization_target_size gc_type h0 in
    ignore_max_footprint_ (snd r) = ignore_max_footprint_ h0
    /\ concurrent_gc_ (snd r) = concurrent_gc_ h0
    /\ allocation_rate_ (snd r) = allocation_rate_ h0).
  { intros h0. unfold GrowForUtilization_target_size.
    destruct (decide (gc_type <> kGcTypeSticky)); done. }
  set (h0 := set_last_gc_time_ns_ now (set_last_gc_size_ (GetBytesAllocated h) h)).
  destruct (Hsame h0) as (Hi' & Hc' & Ha').
  destruct (GrowForUtilization_target_size gc_type h0) as [target_size h1].
  simpl in Hi', Hc', Ha'. rewrite Hi'.
  change (ignore_max_footprint_ h0) with (ignore_max_footprint_ h). rewrite Hi. simpl.
  change (concurrent_gc_ (SetIdealFootprint target_size h1)) with (concurrent_gc_ h1).
  rewrite Hc'. change (concurrent_gc_ h0) with (concurrent_gc_ h). rewrite Hc. simpl.
  unfold GrowForUtilization_concurrent_start_bytes.
  change (allocation_rate_ (SetIdealFootprint target_size h1)) with (allocation_rate_ h1).
  rewrite Ha'. reflexivity.
Qed.

(** ** Methods *)

Lemma bind_Returns {A B : Type} (m : Method A) (k : A -> Method B) w b w' :
  bind m k w = Returns b w' ->
  exists a w1, m w = Returns a w1 /\ k a w1 = Returns b w'.
Proof.
  unfold bind. destruct (m w) as [a w1| |]; [|discriminate..].
  intros H. exists a, w1. split; [reflexivity | exact H].
Qed.

(** Unfolds the plumbing of a method applied to a world. *)
Ltac method_unfold H :=
  cbv beta iota delta [bind ret get_heap modify_heap NanoTime log_event CHECK LOG_FATAL] in H.

(** Splits the first call off a method that returned. *)
Ltac step H :=
  method_unfold H;
  match type of H with
  | context [match ?m with Returns _ _ => _ | Blocks _ => _ | Aborts _ => _ end] =>
      let a := fresh "r" in
      let w1 := fresh "w" in
      let E := fresh "E" in
      destruct m as [a w1| |] eqn:E; [ | discriminate H.. ]
  end.

(** ** Waiting for a collection to complete *)

Lemma other_thread_log o w : w_log (other_thread o w) = w_log w.
Proof.
  destruct o; simpl; try reflexivity.
  destruct (ChangeCollector _ _); reflexivity.
Qed.

Lemma WaitWhileGcIsRunning_not_running others last_gc_type w :
  is_gc_running_ (w_heap w) = false ->
  WaitWhileGcIsRunning others last_gc_type w = Returns last_gc_type (with_others others w).
Proof. intros H. destruct others; simpl; rewrite H; reflexivity. Qed.

Lemma WaitWhileGcIsRunning_Returns others last_gc_type w g w' :
  WaitWhileGcIsRunning others last_gc_type w = Returns g w' ->
  w_log w' = w_log w
  /\ is_gc_running_ (w_heap w') = false
  /\ exists done, others = done ++ w_others w'.
Proof.
  revert last_gc_type w. induction others as [|o others IH]; intros last_gc_type w; simpl.
  - destruct (is_gc_running_ (w_heap w)) eqn:Hr; [discriminate|].
    intros [= <- <-]. simpl. repeat split; [assumption|]. exists []. reflexivity.
  - destruct (is_gc_running_ (w_heap w)) eqn:Hr.
    + intros H. apply IH in H as (Hl & Hr' & done & Hd).
      rewrite other_thread_log in Hl. repeat split; [assumption..|].
      exists (o :: done). simpl. congruence.
    + intros [= <- <-]. simpl. repeat split; [assumption|]. exists []. reflexivity.
Qed.

Lemma WaitWhileGcIsRunning_never_aborts others last_gc_type w w' :
  WaitWhileGcIsRunning others last_gc_type w <> Aborts w'.
Proof.
  revert last_gc_type w. induction others as [|o others IH]; intros last_gc_type w; simpl.
  - destruct (is_gc_running_ (w_heap w)); discriminate.
  - destruct (is_gc_running_ (w_heap w)); [apply IH | discriminate].
Qed.

Lemma WaitForGcToCompleteLocked_Returns w g w' :
  WaitForGcToCompleteLocked w = Returns g w' ->
  w_log w' = w_log w
  /\ is_gc_running_ (w_heap w') = false
  /\ exists done, w_others w = done ++ w_others w'.
Proof.
  unfold WaitForGcToCompleteLocked. intros H.
  step H. apply WaitWhileGcIsRunning_Returns in E as (Hl & Hr & Hd).
  method_unfold H. injection H as <- <-. simpl. auto.
Qed.

Lemma WaitForGcToCompleteLocked_not_running w :
  is_gc_running_ (w_heap w) = false ->
  WaitForGcToCompleteLocked w = Returns kGcTypeNone (after_idle_wait w).
Proof.
  intros Hr. unfold WaitForGcToCompleteLocked.
  cbv beta iota delta [bind ret get_heap modify_heap NanoTime].
  rewrite WaitWhileGcIsRunning_not_running by assumption. reflexivity.
Qed.

(** ** What the methods leave alone *)

Lemma GrowForUtilization_frame now gc_type gc_duration h :
  exists size time next finalization footprint start,
    GrowForUtilization now gc_type gc_duration h
    = set_concurrent_start_bytes_ start
        (set_max_allowed_footprint_ footprint
           (set_next_gc_type_ next
              (set_native_need_to_run_finalization_ finalization
                 (set_last_gc_time_ns_ time (set_last_gc_size_ size h))))).
Proof.
  set (h' := GrowForUtilization now gc_type gc_duration h).
  exists (last_gc_size_ h'), (last_gc_time_ns_ h'), (next_gc_type_ h'),
    (native_need_to_run_finalization_ h'), (max_allowed_footprint_ h'),
    (concurrent_start_bytes_ h').
  subst h'. unfold GrowForUtilization, GrowForUtilization_target_size, SetIdealFootprint.
  destruct (decide (gc_type <> kGcTypeSticky)); cbn -[Z.add Z.max Z.min to_size_t];
    destruct (ignore_max_footprint_ h); cbn -[Z.add Z.max Z.min to_size_t];
    try destruct (concurrent_gc_ h); reflexivity.
Qed.

Lemma ChangeCollector_frame collector_type h h' :
  ChangeCollector collector_type h = Some h' ->
  exists concurrent plan allocator start,
    h' = set_concurrent_start_bytes_ start
           (set_current_allocator_ allocator
              (set_gc_plan_ plan
                 (set_concurrent_gc_ concurrent (set_collector_type_ collector_type h)))).
Proof.
  intros H.
  exists (concurrent_gc_ h'), (gc_plan_ h'), (current_allocator_ h'),
    (concurrent_start_bytes_ h').
  revert H. unfold ChangeCollector, ChangeAllocator.
  destruct (decide (collector_type <> collector_type_ h)) as [Hne|Heq].
  - destruct collector_type; cbn -[Z.sub Z.max]; try discriminate;
      repeat match goal with |- context [decide ?P] => destruct (decide P) end;
      intros [= <-]; reflexivity.
  - intros [= <-]. apply dec_stable in Heq. subst collector_type. reflexivity.
Qed.

Lemma ChangeCollector_collector_type collector_type h h' :
  ChangeCollector collector_type h = Some h' -> collector_type_ h' = collector_type.
Proof.
  intros H. apply ChangeCollector_frame in H as (? & ? & ? & ? & ->). reflexivity.
Qed.

(** ** Starting and skipping collections *)

Lemma StartGC_Returns is_compacting w b w' :
  StartGC is_compacting w = Returns b w' ->
  exists g w1,
    WaitForGcToCompleteLocked w = Returns g w1
    /\ ((b = false /\ is_compacting = true
         /\ disable_moving_gc_count_ (w_heap w1) <> 0
         /\ w' = emit (LogWarningSkippingGC (disable_moving_gc_count_ (w_heap w1))) w1)
        \/ (b = true
            /\ (is_compacting = true -> disable_moving_gc_count_ (w_heap w1) = 0)
            /\ w' = with_heap (set_is_gc_running_ true (w_heap w1)) w1)).
Proof.
  unfold StartGC. intros H. step H. exists r, w0. split; [reflexivity|].
  destruct is_compacting; simpl in H.
  - destruct (bool_decide (disable_moving_gc_count_ (w_heap w0) <> 0)) eqn:Hc.
    + apply bool_decide_eq_true in Hc. method_unfold H. injection H as <- <-.
      left. auto.
    + apply bool_decide_eq_false in Hc. apply dec_stable in Hc.
      method_unfold H. injection H as <- <-. right. auto.
  - method_unfold H. injection H as <- <-. right. repeat split. discriminate.
Qed.

Lemma StartGC_refuses w :
  is_gc_running_ (w_heap w) = false ->
  disable_moving_gc_count_ (w_heap w) <> 0 ->
  StartGC true w
  = Returns false
      (emit (LogWarningSkippingGC (disable_moving_gc_count_ (w_heap w)))
         (after_idle_wait w)).
Proof.
  intros Hr Hc. unfold StartGC.
  cbv beta iota delta [bind]. rewrite WaitForGcToCompleteLocked_not_running by assumption.
  cbv beta iota delta [get_heap]. simpl.
  rewrite bool_decide_eq_true_2 by assumption. reflexivity.
Qed.




Lemma run_collector_Returns collector gc_cause clear_soft_references w :
  exists result bytes_allocated,
    run_collector collector gc_cause clear_soft_references w
    = Returns result
        (emit (CollectorRun collector gc_cause clear_soft_references)
           (with_now (w_now w + GetDurationNs result)
              (with_heap (set_num_bytes_allocated_ bytes_allocated (w_heap w)) w))).
Proof.
  unfold run_collector.
  destruct (Run collector gc_cause clear_soft_references (w_heap w)) as [result bytes].
  exists result, bytes. reflexivity.
Qed.

Lemma Compact_Returns w w' :
  Compact w = Returns tt w' ->
  exists now bytes_allocated,
    w' = emit (CollectorRun SemiSpace kGcCauseCollectorTransition false)
           (with_now now (with_heap (set_num_bytes_allocated_ bytes_allocated (w_heap w)) w)).
Proof.
  unfold Compact. intros H. method_unfold H.
  destruct kMovingCollector; [|discriminate H].
  destruct (run_collector_Returns SemiSpace kGcCauseCollectorTransition false w)
    as (result & bytes & E).
  rewrite E in H. injection H as <-. eexists _, _. reflexivity.
Qed.

Lemma TransitionCollector_spaces_Returns collector_type w w' :
  TransitionCollector_spaces collector_type w = Returns tt w' ->
  collector_type_ (w_heap w') = collector_type_ (w_heap w)
  /\ disable_moving_gc_count_ (w_heap w') = disable_moving_gc_count_ (w_heap w)
  /\ process_state_ (w_heap w') = process_state_ (w_heap w)
  /\ w_others w' = w_others w
  /\ exists runs, w_log w' = w_log w ++ runs /\ Forall is_semi_space_run runs.
Proof.
  assert (Hrun : forall (k : unit -> Method unit) w0 w1,
    (forall w2, k tt w2 = Returns tt w1 -> exists h, w1 = with_heap h w2 /\
       collector_type_ h = collector_type_ (w_heap w2)
       /\ disable_moving_gc_count_ h = disable_moving_gc_count_ (w_heap w2)
       /\ process_state_ h = process_state_ (w_heap w2)) ->
    bind Compact k w0 = Returns tt w1 ->
    collector_type_ (w_heap w1) = collector_type_ (w_heap w0)
    /\ disable_moving_gc_count_ (w_heap w1) = disable_moving_gc_count_ (w_heap w0)
    /\ process_state_ (w_heap w1) = process_state_ (w_heap w0)
    /\ w_others w1 = w_others w0
    /\ exists runs, w_log w1 = w_log w0 ++ runs /\ Forall is_semi_space_run runs).
  { intros k w0 w1 Hk H. apply bind_Returns in H as ([] & w2 & E & H).
    apply Compact_Returns in E as (now & bytes & ->).
    apply Hk in H as (h & -> & Hc & Hd & Hp). simpl in *.
    repeat split; try assumption. eexists [_]. split; [reflexivity|].
    constructor; [reflexivity | constructor]. }
  assert (Hnone : forall w0 : World,
    collector_type_ (w_heap w0) = collector_type_ (w_heap w0)
    /\ disable_moving_gc_count_ (w_heap w0) = disable_moving_gc_count_ (w_heap w0)
    /\ process_state_ (w_heap w0) = process_state_ (w_heap w0)
    /\ w_others w0 = w_others w0
    /\ exists runs, w_log w0 = w_log w0 ++ runs /\ Forall is_semi_space_run runs).
  { intros w0. repeat split. exists []. rewrite app_nil_r. auto. }
  assert (Hmoving : forall w0,
    (h <- get_heap ;;
     CHECK (bool_decide (main_space_ h <> None)) ;;
     Compact ;;
     modify_heap
       (fun h => set_main_space_ None (set_allocator_mem_map_ (Some AllocSpaceMemMap) h))) w0
    = Returns tt w' ->
    collector_type_ (w_heap w') = collector_type_ (w_heap w0)
    /\ disable_moving_gc_count_ (w_heap w') = disable_moving_gc_count_ (w_heap w0)
    /\ process_state_ (w_heap w') = process_state_ (w_heap w0)
    /\ w_others w' = w_others w0
    /\ exists runs, w_log w' = w_log w0 ++ runs /\ Forall is_semi_space_run runs).
  { intros w0 H. cbv beta iota delta [bind get_heap CHECK] in H.
    destruct (bool_decide (main_space_ (w_heap w0) <> None)); [|discriminate H].
    change (bind Compact (fun _ => modify_heap
              (fun h => set_main_space_ None
                          (set_allocator_mem_map_ (Some AllocSpaceMemMap) h))) w0
            = Returns tt w') in H.
    revert H. apply Hrun. intros w2 [= <-]. eexists. split; [reflexivity|]. auto. }
  assert (Hmalloc : forall w0,
    (h <- get_heap ;;
     if IsCompactingGC (collector_type_ h) then
       let mem_map := allocator_mem_map_ h in
       modify_heap (set_allocator_mem_map_ None) ;;
       CHECK (bool_decide (mem_map <> None)) ;;
       CHECK (bool_decide (main_space_ h = None)) ;;
       modify_heap
         (set_main_space_ (Some (if kUseRosAlloc then RosAllocSpace else DlMallocSpace))) ;;
       Compact
     else ret tt) w0
    = Returns tt w' ->
    collector_type_ (w_heap w') = collector_type_ (w_heap w0)
    /\ disable_moving_gc_count_ (w_heap w') = disable_moving_gc_count_ (w_heap w0)
    /\ process_state_ (w_heap w') = process_state_ (w_heap w0)
    /\ w_others w' = w_others w0
    /\ exists runs, w_log w' = w_log w0 ++ runs /\ Forall is_semi_space_run runs).
  { intros w0 H. cbv beta iota delta [bind get_heap] in H.
    destruct (IsCompactingGC (collector_type_ (w_heap w0))).
    - cbv beta iota zeta delta [bind modify_heap CHECK] in H.
      destruct (bool_decide (allocator_mem_map_ (w_heap w0) <> None)); [|discriminate H].
      simpl in H.
      destruct (bool_decide (main_space_ (w_heap w0) = None)); [|discriminate H].
      destruct (Compact _) as [[] w3| |] eqn:E; [|discriminate H..].
      injection H as <-. apply Compact_Returns in E as (now & bytes & ->). simpl.
      repeat split. eexists [_]. split; [reflexivity|].
      constructor; [reflexivity | constructor].
    - injection H as <-. apply Hnone. }
  unfold TransitionCollector_spaces. destruct collector_type; intros H.
  - discriminate H.
  - apply Hmalloc, H.
  - apply Hmalloc, H.
  - apply Hmoving, H.
  - apply Hmoving, H.
Qed.

Lemma TransitionCollector_finish_Returns collector_type start_time w w' :
  TransitionCollector_finish collector_type start_time w = Returns tt w' ->
  collector_type_ (w_heap w') = collector_type
  /\ disable_moving_gc_count_ (w_heap w') = disable_moving_gc_count_ (w_heap w)
  /\ process_state_ (w_heap w') = process_state_ (w_heap w)
  /\ is_gc_running_ (w_heap w') = false
  /\ w_others w' = w_others w
  /\ w_log w' = w_log w.
Proof.
  unfold TransitionCollector_finish. intros H. cbv beta iota delta [bind get_heap] in H.
  destruct (ChangeCollector collector_type (w_heap w)) as [h'|] eqn:Ec; [|discriminate H].
  method_unfold H. injection H as <-.
  apply ChangeCollector_frame in Ec as (c & p & a & s & ->). simpl.
  match goal with
  | |- context [GrowForUtilization ?n ?t ?d ?h] =>
      destruct (GrowForUtilization_frame n t d h) as (? & ? & ? & ? & ? & ? & ->)
  end.
  simpl. repeat split; reflexivity.
Qed.

Lemma TransitionCollector_Returns collector_type w w' :
  collector_type <> collector_type_ (w_heap w) ->
  TransitionCollector collector_type w = Returns tt w' ->
  exists w1,
    busy_wait_StartGC (length (w_others w)) (copying_transition (w_heap w)) (clock_read w)
    = Returns tt w1
    /\ collector_type_ (w_heap w') = collector_type
    /\ disable_moving_gc_count_ (w_heap w') = disable_moving_gc_count_ (w_heap w1)
    /\ process_state_ (w_heap w') = process_state_ (w_heap w1)
    /\ is_gc_running_ (w_heap w') = false
    /\ w_others w' = w_others w1
    /\ exists runs, w_log w' = w_log w1 ++ runs /\ Forall is_semi_space_run runs.
Proof.
  intros Hne H. unfold TransitionCollector in H.
  cbv beta iota delta [bind get_heap NanoTime] in H.
  destruct (decide (collector_type = collector_type_ (w_heap w))); [contradiction|].
  change (length (w_others (clock_read w))) with (length (w_others w)) in H.
  destruct (busy_wait_StartGC _ _ (clock_read w)) as [[] w1| |] eqn:Eb; [|discriminate H..].
  destruct (TransitionCollector_spaces collector_type w1) as [[] w2| |] eqn:Es;
    [|discriminate H..].
  apply TransitionCollector_spaces_Returns in Es as (Hc2 & Hd2 & Hp2 & Ho2 & runs & Hl2 & Hf2).
  apply TransitionCollector_finish_Returns in H as (Hc & Hd & Hp & Hr & Ho & Hl).
  exists w1. repeat split; try congruence.
  exists runs. split; [congruence | assumption].
Qed.

Lemma other_thread_process_state o w :
  process_state_ (w_heap (other_thread o w)) = process_state_ (w_heap w).
Proof.
  destruct o; simpl; try reflexivity.
  destruct (ChangeCollector _ _) as [h|] eqn:E; [|reflexivity].
  apply ChangeCollector_frame in E as (? & ? & ? & ? & ->). reflexivity.
Qed.

Lemma WaitWhileGcIsRunning_process_state others last_gc_type w g w' :
  WaitWhileGcIsRunning others last_gc_type w = Returns g w' ->
  process_state_ (w_heap w') = process_state_ (w_heap w).
Proof.
  revert last_gc_type w. induction others as [|o others IH]; intros last_gc_type w; simpl.
  - destruct (is_gc_running_ (w_heap w)); [discriminate|]. intros [= <- <-]. reflexivity.
  - destruct (is_gc_running_ (w_heap w)).
    + intros H. apply IH in H. rewrite H. apply other_thread_process_state.
    + intros [= <- <-]. reflexivity.
Qed.

Lemma WaitForGcToCompleteLocked_process_state w g w' :
  WaitForGcToCompleteLocked w = Returns g w' ->
  process_state_ (w_heap w') = process_state_ (w_heap w).
Proof.
  unfold WaitForGcToCompleteLocked. intros H.
  step H. apply WaitWhileGcIsRunning_process_state in E.
  method_unfold H. injection H as <- <-. exact E.
Qed.

Lemma StartGC_process_state is_compacting w b w' :
  StartGC is_compacting w = Returns b w' ->
  process_state_ (w_heap w') = process_state_ (w_heap w).
Proof.
  intros H. apply StartGC_Returns in H as (g & w1 & Ew & [(_ & _ & _ & ->)|(_ & _ & ->)]);
    apply WaitForGcToCompleteLocked_process_state in Ew; exact Ew.
Qed.

Lemma no_transition_suffix done others :
  no_transition (done ++ others) -> no_transition others.
Proof. intros H c Hin. apply (H c), in_or_app. right. exact Hin. Qed.

Lemma other_thread_gc_plan o w :
  (forall collector_type, o <> OtherTransitionCollector collector_type) ->
  gc_plan_ (w_heap (other_thread o w)) = gc_plan_ (w_heap w)
  /\ current_allocator_ (w_heap (other_thread o w)) = current_allocator_ (w_heap w).
Proof.
  intros Ho. destruct o; simpl; try (split; reflexivity).
  exfalso. eapply Ho. reflexivity.
Qed.

Lemma WaitWhileGcIsRunning_gc_plan others last_gc_type w g w' :
  WaitWhileGcIsRunning others last_gc_type w = Returns g w' ->
  no_transition others ->
  gc_plan_ (w_heap w') = gc_plan_ (w_heap w)
  /\ current_allocator_ (w_heap w') = current_allocator_ (w_heap w)
  /\ no_transition (w_others w').
Proof.
  revert last_gc_type w. induction others as [|o others IH]; intros last_gc_type w; simpl.
  - destruct (is_gc_running_ (w_heap w)); [discriminate|]. intros [= <- <-] Hn. auto.
  - destruct (is_gc_running_ (w_heap w)).
    + intros H Hn. apply IH in H as (Hg & Ha & Hn').
      * destruct (other_thread_gc_plan o w) as (Hg0 & Ha0).
        { intros c ->. apply (Hn c). left. reflexivity. }
        rewrite Hg, Ha. auto.
      * apply (no_transition_suffix [o]). exact Hn.
    + intros [= <- <-] Hn. auto.
Qed.

Lemma WaitForGcToCompleteLocked_gc_plan w g w' :
  WaitForGcToCompleteLocked w = Returns g w' ->
  no_transition (w_others w) ->
  gc_plan_ (w_heap w') = gc_plan_ (w_heap w)
  /\ current_allocator_ (w_heap w') = current_allocator_ (w_heap w)
  /\ no_transition (w_others w').
Proof.
  unfold WaitForGcToCompleteLocked. intros H Hn.
  step H. apply WaitWhileGcIsRunning_gc_plan in E; [|exact Hn].
  method_unfold H. injection H as <- <-. exact E.
Qed.

Lemma StartGC_gc_plan is_compacting w b w' :
  StartGC is_compacting w = Returns b w' ->
  no_transition (w_others w) ->
  gc_plan_ (w_heap w') = gc_plan_ (w_heap w)
  /\ current_allocator_ (w_heap w') = current_allocator_ (w_heap w)
  /\ no_transition (w_others w').
Proof.
  intros H Hn.
  apply StartGC_Returns in H as (g & w1 & Ew & [(_ & _ & _ & ->)|(_ & _ & ->)]);
    apply WaitForGcToCompleteLocked_gc_plan in Ew; assumption.
Qed.

(** What a call of [CollectGarbageInternal] that returns has done: nothing
    but a warning when the collection was skipped, one collector run
    otherwise. *)
Lemma CollectGarbageInternal_Returns gc_type gc_cause clear_soft_references w g w' :
  CollectGarbageInternal gc_type gc_cause clear_soft_references w = Returns g w' ->
  process_state_ (w_heap w') = process_state_ (w_heap w)
  /\ (no_transition (w_others w) ->
      gc_plan_ (w_heap w') = gc_plan_ (w_heap w)
      /\ current_allocator_ (w_heap w') = current_allocator_ (w_heap w)
      /\ no_transition (w_others w'))
  /\ ((g = kGcTypeNone
       /\ ((gc_type = kGcTypePartial /\ w' = w)
           \/ exists n, w_log w' = w_log w ++ [LogWarningSkippingGC n]))
      \/ (exists collector,
            w_log w' = w_log w ++ [CollectorRun collector gc_cause clear_soft_references]
            /\ ((collector = SemiSpace /\ g = kGcTypeFull)
                \/ (GetGcType collector = gc_type /\ g = gc_type)))).
Proof.
  unfold CollectGarbageInternal. intros H. cbv beta iota delta [bind get_heap] in H.
  destruct (bool_decide (gc_type = kGcTypePartial) && negb (have_zygote_space_ (w_heap w)))
    eqn:Hpartial.
  { injection H as <- <-. split; [reflexivity|]. split; [auto|]. left.
    apply andb_true_iff in Hpartial as (Hpartial & _).
    apply bool_decide_eq_true in Hpartial. auto. }
  destruct (StartGC _ w) as [started w1| |] eqn:Es; [|discriminate H..].
  pose proof (StartGC_process_state _ _ _ _ Es) as Hp1.
  pose proof (StartGC_gc_plan _ _ _ _ Es) as Hk1.
  apply StartGC_Returns in Es as (g0 & w0 & Ew & Hs).
  apply WaitForGcToCompleteLocked_Returns in Ew as (Hl0 & _ & _).
  destruct Hs as [(-> & _ & _ & ->)|(-> & _ & ->)].
  { injection H as <- <-. split; [exact Hp1|]. split; [exact Hk1|]. left.
    split; [reflexivity|]. right. eexists. simpl. rewrite Hl0. reflexivity. }
  cbv beta iota delta [negb NanoTime ret] in H.
  set (w1 := clock_read (with_heap (set_is_gc_running_ true (w_heap w0)) w0)) in *.
  match type of H with
  | context [if bool_decide ?P then modify_heap ?f else _] =>
      assert (Hrate : exists w2, (if bool_decide P then modify_heap f else (fun w => Returns tt w)) w1
                                 = Returns tt w2
                        /\ w_log w2 = w_log w1
                        /\ process_state_ (w_heap w2) = process_state_ (w_heap w1)
                        /\ gc_plan_ (w_heap w2) = gc_plan_ (w_heap w1)
                        /\ current_allocator_ (w_heap w2) = current_allocator_ (w_heap w1)
                        /\ w_others w2 = w_others w1)
  end.
  { destruct (bool_decide (NsToMs _ <> 0)); eexists; (split; [reflexivity|]);
      repeat split; reflexivity. }
  destruct Hrate as (w2 & Er & Hl2 & Hp2 & Hg2 & Ha2 & Ho2). rewrite Er in H. clear Er.
  assert (Hchoose : forall (chosen : Collector * GcType) w3,
    match
      run_collector chosen.1 gc_cause clear_soft_references w3
    with
    | Returns a w4 =>
        (modify_heap
           (fun h =>
              set_total_bytes_freed_ever_
                (to_size_t (total_bytes_freed_ever_ h + GetFreedBytes a))
                (set_total_objects_freed_ever_
                   (to_size_t (total_objects_freed_ever_ h + GetFreedObjects a)) h)) ;;
         now <- NanoTime ;;
         modify_heap (GrowForUtilization now chosen.2 (GetDurationNs a)) ;;
         modify_heap (FinishGC chosen.2) ;;
         ret chosen.2) w4
    | Blocks w4 => Blocks w4
    | Aborts w4 => Aborts w4
    end = Returns g w' ->
    g = chosen.2
    /\ process_state_ (w_heap w') = process_state_ (w_heap w3)
    /\ gc_plan_ (w_heap w') = gc_plan_ (w_heap w3)
    /\ current_allocator_ (w_heap w') = current_allocator_ (w_heap w3)
    /\ w_others w' = w_others w3
    /\ w_log w' = w_log w3 ++ [CollectorRun chosen.1 gc_cause clear_soft_references]).
  { intros chosen w3 Hc.
    destruct (run_collector_Returns chosen.1 gc_cause clear_soft_references w3)
      as (result & bytes & Erun).
    rewrite Erun in Hc. method_unfold Hc. injection Hc as <- <-. simpl.
    match goal with
    | |- context [GrowForUtilization ?n ?t ?d ?h] =>
        destruct (GrowForUtilization_frame n t d h) as (? & ? & ? & ? & ? & ? & ->)
    end.
    simpl. repeat split; reflexivity. }
  cbv beta iota delta [bind get_heap] in H.
  assert (Hlog : w_log w2 = w_log w) by (rewrite Hl2; subst w1; simpl; exact Hl0).
  assert (Hps : process_state_ (w_heap w2) = process_state_ (w_heap w))
    by (rewrite Hp2; exact Hp1).
  assert (Hkept : forall w3 : World,
    gc_plan_ (w_heap w3) = gc_plan_ (w_heap w2) ->
    current_allocator_ (w_heap w3) = current_allocator_ (w_heap w2) ->
    w_others w3 = w_others w2 ->
    no_transition (w_others w) ->
    gc_plan_ (w_heap w3) = gc_plan_ (w_heap w)
    /\ current_allocator_ (w_heap w3) = current_allocator_ (w_heap w)
    /\ no_transition (w_others w3)).
  { intros w3 Hg3 Ha3 Ho3 Hn. apply Hk1 in Hn as (Hg1 & Ha1 & Hn1).
    rewrite Hg3, Ha3, Ho3, Hg2, Ha2, Ho2. auto. }
  destruct (IsCompactingGC (collector_type_ (w_heap w))).
  - cbv beta iota delta [bind CHECK ret] in H.
    destruct (temp_space_IsEmpty w2); [|discriminate H].
    apply (Hchoose (SemiSpace, kGcTypeFull)) in H as (-> & Hp & Hg & Ha & Ho & Hl).
    simpl in Hp, Hl |- *.
    split; [congruence|]. split; [apply Hkept; assumption|].
    right. exists SemiSpace. split; [congruence|]. left. auto.
  - destruct (bool_decide (current_allocator_ (w_heap w2) = kAllocatorTypeRosAlloc)
              || bool_decide (current_allocator_ (w_heap w2) = kAllocatorTypeDlMalloc));
      [|discriminate H].
    destruct (find _ garbage_collectors_) as [collector|] eqn:Ef; [|discriminate H].
    apply find_some in Ef as (_ & Ef). apply andb_true_iff in Ef as (_ & Ef).
    apply bool_decide_eq_true in Ef.
    cbv beta iota delta [ret] in H.
    apply (Hchoose (collector, gc_type)) in H as (-> & Hp & Hg & Ha & Ho & Hl).
    simpl in Hp, Hl |- *.
    split; [congruence|]. split; [apply Hkept; assumption|].
    right. exists collector. split; [congruence|]. right. auto.
Qed.

Lemma usleep_process_state usec w w' :
  usleep usec w = Returns tt w' ->
  process_state_ (w_heap w') = process_state_ (w_heap w).
Proof.
  unfold usleep. simpl. destruct (w_others w) as [|o others].
  - intros [= <-]. reflexivity.
  - intros [= <-]. rewrite other_thread_process_state. reflexivity.
Qed.

Lemma busy_wait_StartGC_process_state patience is_compacting w w' :
  busy_wait_StartGC patience is_compacting w = Returns tt w' ->
  process_state_ (w_heap w') = process_state_ (w_heap w).
Proof.
  revert w. induction patience as [|patience IH]; intros w H; simpl in H.
  - step H. apply StartGC_process_state in E. destruct r.
    + method_unfold H. injection H as <-. exact E.
    + discriminate H.
  - step H. apply StartGC_process_state in E. destruct r.
    + method_unfold H. injection H as <-. exact E.
    + step H. destruct r. apply usleep_process_state in E0. apply IH in H. congruence.
Qed.



(** C10.  A partial collection requested while there is no zygote space
    returns [kGcTypeNone] at once: no collector is started and nothing in the
    heap, the clock or the log changes. *)
Theorem CollectGarbageInternal_partial_without_zygote_space gc_cause clear_soft_references w :
  have_zygote_space_ (w_heap w) = false ->
  CollectGarbageInternal kGcTypePartial gc_cause clear_soft_references w
  = Returns kGcTypeNone w.
Proof.
  intros Hz. unfold CollectGarbageInternal, bind, get_heap, ret. simpl.
  rewrite Hz. reflexivity.
Qed.

(** ** The allocation slow path *)

Lemma slow_path_calls_app events1 events2 :
  slow_path_calls (events1 ++ events2) = slow_path_calls events1 ++ slow_path_calls events2.
Proof. apply List.filter_app. Qed.

Lemma throws_nothing_app events1 events2 :
  throws_nothing events1 -> throws_nothing events2 -> throws_nothing (events1 ++ events2).
Proof.
  intros H1 H2 n Hin. apply in_app_or in Hin as [Hin|Hin]; [apply (H1 n) | apply (H2 n)];
    exact Hin.
Qed.

Lemma throws_nothing_nil : throws_nothing [].
Proof. intros n []. Qed.

Lemma throws_nothing_one e :
  (forall n, e <> ThrowOutOfMemoryError n) -> throws_nothing [e].
Proof. intros He n [Hin|[]]. apply (He n). exact Hin. Qed.

Lemma try_to_allocate_Returns kGrow allocator alloc_size w :
  exists ptr footprint,
    try_to_allocate kGrow allocator alloc_size w
    = Returns ptr
        (emit (CallTryToAllocate kGrow allocator alloc_size ptr)
           (with_heap (set_max_allowed_footprint_ footprint (w_heap w)) w)).
Proof.
  unfold try_to_allocate.
  destruct (TryToAllocate kGrow allocator alloc_size (w_heap w)) as [ptr footprint].
  exists ptr, footprint. reflexivity.
Qed.

Lemma collect_garbage_Returns gc_type clear_soft_references w g w' :
  collect_garbage gc_type clear_soft_references w = Returns g w' ->
  (no_transition (w_others w) ->
   gc_plan_ (w_heap w') = gc_plan_ (w_heap w)
   /\ current_allocator_ (w_heap w') = current_allocator_ (w_heap w)
   /\ no_transition (w_others w'))
  /\ exists events,
       w_log w' = w_log w ++ events
       /\ throws_nothing events
       /\ slow_path_calls events
          = [CallCollectGarbageInternal gc_type kGcCauseForAlloc clear_soft_references g].
Proof.
  unfold collect_garbage. intros H. step H. method_unfold H. injection H as <- <-.
  apply CollectGarbageInternal_Returns in E as (_ & Hk & Hevents).
  split; [exact Hk|]. simpl.
  destruct Hevents as [(_ & [(_ & ->)|(n & Hl)])|(collector & Hl & _)].
  - eexists [_]. split; [reflexivity|]. split; [|reflexivity].
    apply throws_nothing_one. discriminate.
  - eexists [_; _]. rewrite Hl, <- app_assoc. split; [reflexivity|]. split; [|reflexivity].
    intros m [Hin|[Hin|[]]]; discriminate Hin.
  - eexists [_; _]. rewrite Hl, <- app_assoc. split; [reflexivity|]. split; [|reflexivity].
    intros m [Hin|[Hin|[]]]; discriminate Hin.
Qed.

Lemma gc_plan_loop_Returns plan was_default_allocator allocator alloc_size ptr w exit w' :
  gc_plan_loop plan was_default_allocator allocator alloc_size ptr w = Returns exit w' ->
  (no_transition (w_others w) ->
   gc_plan_ (w_heap w') = gc_plan_ (w_heap w)
   /\ current_allocator_ (w_heap w') = current_allocator_ (w_heap w)
   /\ no_transition (w_others w'))
  /\ exists events,
       w_log w' = w_log w ++ events
       /\ throws_nothing events
       /\ (exit = EndOfLoop 0 ->
           ptr = 0
           /\ exists results,
                length results = length plan
                /\ slow_path_calls events = plan_rounds allocator alloc_size plan results).
Proof.
  revert ptr w. induction plan as [|gc_type plan IH]; intros ptr w H; simpl in H.
  - injection H as <- <-. split; [auto|]. exists []. rewrite app_nil_r.
    split; [reflexivity|]. split; [apply throws_nothing_nil|].
    intros [= ->]. split; [reflexivity|]. exists []. auto.
  - destruct (bool_decide (ptr <> 0)) eqn:Hptr.
    + injection H as <- <-. apply bool_decide_eq_true in Hptr.
      split; [auto|]. exists []. rewrite app_nil_r.
      split; [reflexivity|]. split; [apply throws_nothing_nil|].
      intros [= ->]. contradiction.
    + apply bool_decide_eq_false, dec_stable in Hptr. subst ptr.
      step H. apply collect_garbage_Returns in E as (Hk1 & events1 & Hl1 & Ht1 & Hs1).
      cbv beta iota delta [bind get_heap] in H.
      destruct (was_default_allocator
                && bool_decide (allocator <> GetCurrentAllocator (w_heap w0))).
      * injection H as <- <-. split; [exact Hk1|]. exists events1.
        split; [exact Hl1|]. split; [exact Ht1|]. discriminate.
      * destruct (bool_decide (r <> kGcTypeNone)) eqn:Hran.
        -- destruct (try_to_allocate_Returns false allocator alloc_size w0)
             as (ptr1 & footprint & Et).
           rewrite Et in H. apply IH in H as (Hk2 & events2 & Hl2 & Ht2 & Hend).
           split.
           { intros Hn. apply Hk1 in Hn as (Hg & Ha & Hn). apply Hk2 in Hn as (Hg' & Ha' & Hn').
             simpl in Hg', Ha'. rewrite Hg', Ha'. auto. }
           exists (events1 ++ CallTryToAllocate false allocator alloc_size ptr1 :: events2).
           split.
           { rewrite Hl2. simpl. rewrite Hl1, <- !app_assoc. reflexivity. }
           split.
           { apply throws_nothing_app; [exact Ht1|].
             apply (throws_nothing_app [_]); [|exact Ht2].
             apply throws_nothing_one. discriminate. }
           intros Hexit. apply Hend in Hexit as (-> & results & Hlen & Hs2).
           split; [reflexivity|]. exists (r :: results). split; [simpl; congruence|].
           rewrite slow_path_calls_app, Hs1. simpl. unfold plan_round.
           apply bool_decide_eq_true in Hran.
           destruct (decide (r <> kGcTypeNone)); [|contradiction].
           simpl. fold (slow_path_calls events2). rewrite Hs2. reflexivity.
        -- cbv beta iota delta [ret] in H.
           apply IH in H as (Hk2 & events2 & Hl2 & Ht2 & Hend).
           split.
           { intros Hn. apply Hk1 in Hn as (Hg & Ha & Hn). apply Hk2 in Hn as (Hg' & Ha' & Hn').
             rewrite Hg', Ha'. auto. }
           exists (events1 ++ events2).
           split.
           { rewrite Hl2, Hl1, <- !app_assoc. reflexivity. }
           split; [apply throws_nothing_app; assumption|].
           intros Hexit. apply Hend in Hexit as (_ & results & Hlen & Hs2).
           split; [reflexivity|]. exists (r :: results). split; [simpl; congruence|].
           rewrite slow_path_calls_app, Hs1, Hs2. simpl. unfold plan_round.
           apply bool_decide_eq_false in Hran.
           destruct (decide (r <> kGcTypeNone)); [contradiction|]. reflexivity.
Qed.

(** C1.  When [AllocateInternalWithGc] throws the out-of-memory error, the
    calls it has made are, in this order: the wait for a collection in
    progress, with a retry of the allocation if there was one; for each
    collection type of the plan a collection that does not clear soft
    references, with a retry after each collection that ran; a retry that may
    grow the heap; a collection of the last type of the plan that clears soft
    references; a last retry that may grow the heap.  Every retry returned
    null, and so does the method.  (The plan is the one the heap holds when
    the method is entered, unless another thread changes the collector
    meanwhile.) *)
Theorem AllocateInternalWithGc_throws_only_after_full_escalation
    allocator alloc_size w ptr w' events :
  AllocateInternalWithGc allocator alloc_size w = Returns ptr w' ->
  w_log w' = w_log w ++ events ->
  In (ThrowOutOfMemoryError alloc_size) events ->
  ptr = 0
  /\ exists last_gc plan results last_type last_result,
       slow_path_calls events
       = full_escalation allocator alloc_size last_gc plan results last_type last_result
       /\ length results = length plan
       /\ (no_transition (w_others w) ->
           plan = gc_plan_ (w_heap w) /\ last plan = Some last_type).
Proof.
  intros H Hlog Hthrow. unfold AllocateInternalWithGc in H.
  cbv beta iota delta [bind get_heap log_event] in H.
  set (was_default := bool_decide (allocator = GetCurrentAllocator (w_heap w))) in *.
  destruct (WaitForGcToComplete w) as [last_gc w1| |] eqn:Ewait; [|discriminate H..].
  pose proof (WaitForGcToCompleteLocked_gc_plan _ _ _ Ewait) as Hk1.
  apply WaitForGcToCompleteLocked_Returns in Ewait as (Hl1 & _ & _).
  destruct (bool_decide (last_gc <> kGcTypeNone)
            && (was_default
                && bool_decide
                     (allocator
                      <> GetCurrentAllocator (w_heap (emit (CallWaitForGcToComplete last_gc) w1))))).
  { exfalso. injection H as <- <-. simpl in Hlog. rewrite Hl1 in Hlog.
    apply app_inv_head in Hlog. subst events.
    destruct Hthrow as [Hin|[]]. discriminate Hin. }
  (* the retry after the wait *)
  assert (Hretry : exists ptr0 w2 footprint,
    (if bool_decide (last_gc <> kGcTypeNone)
     then try_to_allocate false allocator alloc_size
     else ret 0) (emit (CallWaitForGcToComplete last_gc) w1) = Returns ptr0 w2
    /\ w_log w2 = w_log w
                  ++ CallWaitForGcToComplete last_gc
                     :: (if decide (last_gc <> kGcTypeNone)
                         then [CallTryToAllocate false allocator alloc_size ptr0]
                         else [])
    /\ (last_gc = kGcTypeNone -> ptr0 = 0)
    /\ w_heap w2 = set_max_allowed_footprint_ footprint (w_heap w1)
    /\ w_others w2 = w_others w1).
  { destruct (decide (last_gc <> kGcTypeNone)) as [Hn|Hn].
    - rewrite bool_decide_eq_true_2 by assumption.
      destruct (try_to_allocate_Returns false allocator alloc_size
                  (emit (CallWaitForGcToComplete last_gc) w1)) as (ptr0 & footprint & Et).
      eexists ptr0, _, footprint. split; [exact Et|]. simpl. rewrite Hl1, <- app_assoc.
      repeat split. intros ->. contradiction.
    - rewrite bool_decide_eq_false_2 by assumption.
      eexists 0, _, (max_allowed_footprint_ (w_heap w1)). split; [reflexivity|].
      simpl. rewrite Hl1. repeat split. }
  destruct Hretry as (ptr0 & w2 & footprint0 & Er & Hl2 & Hp0 & Hh2 & Ho2).
  rewrite Er in H. clear Er.
  (* the loop over the plan *)
  destruct (gc_plan_loop (gc_plan_ (w_heap w2)) was_default allocator alloc_size ptr0 w2)
    as [exit w3| |] eqn:Eloop; [|discriminate H..].
  apply gc_plan_loop_Returns in Eloop as (Hk3 & events3 & Hl3 & Ht3 & Hend).
  assert (Hwait_quiet : throws_nothing
            (CallWaitForGcToComplete last_gc
             :: (if decide (last_gc <> kGcTypeNone)
                 then [CallTryToAllocate false allocator alloc_size ptr0]
                 else []))).
  { destruct (decide (last_gc <> kGcTypeNone)).
    - intros m [Hin|[Hin|[]]]; discriminate Hin.
    - intros m [Hin|[]]; discriminate Hin. }
  destruct exit as [|ptr1].
  { exfalso. injection H as <- <-. rewrite Hl3, Hl2, <- app_assoc in Hlog.
    apply app_inv_head in Hlog. subst events. revert Hthrow.
    apply throws_nothing_app; assumption. }
  (* the retry that may grow the heap *)
  destruct (bool_decide (ptr1 = 0)) eqn:Hptr1.
  2:{ exfalso. cbv beta iota delta [ret] in H. rewrite Hptr1 in H. injection H as <- <-.
      rewrite Hl3, Hl2, <- app_assoc in Hlog.
      apply app_inv_head in Hlog. subst events. revert Hthrow.
      apply throws_nothing_app; assumption. }
  apply bool_decide_eq_true in Hptr1. subst ptr1.
  destruct (Hend eq_refl) as (-> & results & Hlen & Hrounds). clear Hend.
  destruct (try_to_allocate_Returns true allocator alloc_size w3) as (ptr2 & footprint2 & Et2).
  rewrite Et2 in H. clear Et2.
  destruct (bool_decide (ptr2 = 0)) eqn:Hptr2.
  2:{ exfalso. injection H as <- <-. simpl in Hlog.
      rewrite Hl3, Hl2, <- !app_assoc in Hlog.
      apply app_inv_head in Hlog. subst events. revert Hthrow.
      apply throws_nothing_app; [assumption|].
      apply throws_nothing_app; [assumption|].
      apply throws_nothing_one. discriminate. }
  apply bool_decide_eq_true in Hptr2. subst ptr2.
  cbv beta iota delta [bind get_heap] in H. simpl in H.
  (* the collection that clears soft references *)
  destruct (last (gc_plan_ (w_heap w3))) as [last_type|] eqn:Elast; [|discriminate H].
  cbv beta iota delta [bind get_heap] in H.
  match type of H with
  | context [collect_garbage last_type true ?w4] =>
      destruct (collect_garbage last_type true w4) as [last_result w5| |] eqn:Ec;
        [|discriminate H..]
  end.
  apply collect_garbage_Returns in Ec as (Hk5 & events5 & Hl5 & Ht5 & Hs5).
  simpl in Hl5, Hk5.
  destruct (was_default && bool_decide (allocator <> GetCurrentAllocator (w_heap w5))).
  { exfalso. injection H as <- <-.
    rewrite Hl5, Hl3, Hl2, <- !app_assoc in Hlog.
    apply app_inv_head in Hlog. subst events. revert Hthrow.
    apply throws_nothing_app; [assumption|].
    apply throws_nothing_app; [assumption|].
    apply (throws_nothing_app [_]); [|assumption].
    apply throws_nothing_one. discriminate. }
  destruct (try_to_allocate_Returns true allocator alloc_size w5) as (ptr3 & footprint3 & Et3).
  rewrite Et3 in H. clear Et3.
  destruct (bool_decide (ptr3 = 0)) eqn:Hptr3.
  2:{ exfalso. injection H as <- <-. simpl in Hlog.
      rewrite Hl5, Hl3, Hl2, <- !app_assoc in Hlog.
      apply app_inv_head in Hlog. subst events. revert Hthrow.
      apply throws_nothing_app; [assumption|].
      apply throws_nothing_app; [assumption|].
      apply (throws_nothing_app [_]); [apply throws_nothing_one; discriminate|].
      apply throws_nothing_app; [assumption|].
      apply throws_nothing_one. discriminate. }
  apply bool_decide_eq_true in Hptr3. subst ptr3.
  injection H as <- <-. split; [reflexivity|].
  exists last_gc, (gc_plan_ (w_heap w2)), results, last_type, last_result.
  simpl in Hlog. rewrite Hl5, Hl3, Hl2, <- !app_assoc in Hlog.
  apply app_inv_head in Hlog. subst events.
  split; [|split; [exact Hlen|]].
  - unfold full_escalation. simpl.
    rewrite !slow_path_calls_app. f_equal.
    assert (Hfirst : slow_path_calls
                       (if decide (last_gc <> kGcTypeNone)
                        then [CallTryToAllocate false allocator alloc_size 0]
                        else [])
                     = if decide (last_gc <> kGcTypeNone)
                       then [CallTryToAllocate false allocator alloc_size 0]
                       else []).
    { destruct (decide (last_gc <> kGcTypeNone)); reflexivity. }
    rewrite Hfirst, Hrounds. simpl. fold (slow_path_calls (events5 ++
      [CallTryToAllocate true allocator alloc_size 0; ThrowOutOfMemoryError alloc_size])).
    rewrite slow_path_calls_app, Hs5. reflexivity.
  - intros Hn. apply Hk1 in Hn as (Hg1 & _ & Hn1).
    assert (Hg2 : gc_plan_ (w_heap w2) = gc_plan_ (w_heap w)).
    { rewrite Hh2. exact Hg1. }
    split; [exact Hg2|].
    rewrite <- Ho2 in Hn1. apply Hk3 in Hn1 as (Hg3 & _ & _).
    rewrite <- Elast. congruence.
Qed.

(** ** Native allocation accounting *)

Lemma to_int_small z : INT_MIN <= z <= INT_MAX -> to_int z = z.
Proof.
  unfold to_int, INT_MIN, INT_MAX. intros Hz.
  rewrite Z.mod_small by lia. lia.
Qed.

(** Whatever other threads do to the counter meanwhile, the call either
    throws and writes nothing, or writes the value it loaded last less
    [bytes]. *)
Lemma RegisterNativeFree_loop_outcome racing bytes counter :
  exists expected_size,
    RegisterNativeFree_loop racing bytes counter
    = if to_int (expected_size - bytes) <? 0
      then (expected_size, Some (RuntimeException_native_free bytes expected_size))
      else (to_int (expected_size - bytes), None).
Proof.
  revert counter. induction racing as [|change racing IH]; intros counter; simpl.
  - exists counter. destruct (_ <? 0); reflexivity.
  - destruct (to_int (counter - bytes) <? 0) eqn:Hneg.
    + exists counter. rewrite Hneg. reflexivity.
    + destruct (to_int (counter + change) =? counter) eqn:Hcas.
      * exists counter. rewrite Hneg. reflexivity.
      * apply IH.
Qed.

(** C7.  A call of [RegisterNativeFree(bytes)] whose subtraction does not
    overflow [int], made while no other thread updates the counter: if the
    counter less [bytes] is negative, a runtime exception is thrown and the
    heap, the counter with it, is as before; otherwise no exception is thrown
    and the counter is decreased by exactly [bytes]. *)
Theorem RegisterNativeFree_throws_or_decreases bytes h :
  INT_MIN <= native_bytes_allocated_ h - bytes <= INT_MAX ->
  let counter := native_bytes_allocated_ h in
  let '(h', exception) := RegisterNativeFree [] bytes h in
  if counter - bytes <? 0 then
    exception = Some (RuntimeException_native_free bytes counter) /\ h' = h
  else
    exception = None
    /\ native_bytes_allocated_ h' = counter - bytes
    /\ h' = set_native_bytes_allocated_ (counter - bytes) h.
Proof.
  intros Hfit. unfold RegisterNativeFree. simpl.
  rewrite to_int_small by assumption.
  destruct (native_bytes_allocated_ h - bytes <? 0); simpl; auto.
Qed.

(** ** Reference processing *)

Section ReferenceProcessingFacts.

Context {Arg : Type}.
Implicit Types rh : ReferenceHeap Arg.













(** A reference put on a queue has a non-null [pendingNext], and the field is
    null again once the reference is taken off. *)
Lemma EnqueuePendingReference_IsEnqueued q ref rh :
  ref <> 0 ->
  is_Some (objects rh !! ref) ->
  Forall (fun pending => pending <> 0) (list_ rh q) ->
  IsEnqueued ref (EnqueuePendingReference q ref rh) = true.
Proof.
  intros Href [r Hr] Hpending. unfold IsEnqueued, EnqueuePendingReference, enqueue_pending.
  apply bool_decide_eq_true. unfold GetFieldObject.
  destruct (list_ rh q) as [|head pending] eqn:El.
  - simpl. rewrite lookup_alter_eq, Hr. simpl. exact Href.
  - apply Forall_cons in Hpending as (Hhead & _).
    generalize (List.last (head :: pending) head). intros tail. simpl.
    destruct (decide (tail = ref)) as [->|Hne].
    + rewrite !lookup_alter_eq, Hr. simpl. exact Href.
    + rewrite lookup_alter_ne, lookup_alter_eq, Hr by exact Hne. simpl. exact Hhead.
Qed.

Lemma DequeuePendingReference_IsEnqueued q ref rh rh' :
  DequeuePendingReference q rh = Some (ref, rh') -> IsEnqueued ref rh' = false.
Proof.
  unfold DequeuePendingReference, dequeue_pending.
  destruct (list_ rh q) as [|ref0 rest]; [discriminate|]. intros [= <- <-].
  unfold IsEnqueued, GetFieldObject. simpl. apply bool_decide_eq_false.
  rewrite lookup_alter_eq.
  match goal with |- context [?o !! ref0] => destruct (o !! ref0) end; simpl; lia.
Qed.

(** *** The links of the queues *)


























End ReferenceProcessingFacts.

(** ** Zygote compaction *)

Lemma multimap_insert_Permutation key value m :
  multimap_insert key value m ≡ₚ (key, value) :: m.
Proof.
  induction m as [|[key' value'] m IH]; simpl; [reflexivity|].
  destruct (key <? key'); [reflexivity|].
  rewrite IH. apply perm_swap.
Qed.

Lemma multimap_insert_sorted key value m :
  bins_sorted m -> bins_sorted (multimap_insert key value m).
Proof.
  unfold bins_sorted. induction m as [|[key' value'] m IH]; simpl; intros Hs.
  - repeat constructor.
  - apply StronglySorted_inv in Hs as (Hs & Hall).
    destruct (Z.ltb_spec key key').
    + constructor; [constructor; assumption|].
      constructor; [simpl; lia|].
      eapply Forall_impl; [exact Hall|]. simpl. intros [k v] Hk. simpl in *. lia.
    + constructor; [apply IH; assumption|].
      rewrite multimap_insert_Permutation. constructor; [simpl; lia | assumption].
Qed.

Lemma AddBin_Permutation size position bins :
  AddBin size position bins ≡ₚ List.filter nonempty_gap [(size, position)] ++ bins.
Proof.
  unfold AddBin, nonempty_gap. simpl. destruct (decide (size <> 0)) as [Hne|He].
  - rewrite multimap_insert_Permutation.
    destruct (Z.eqb_spec size 0); [contradiction | reflexivity].
  - apply dec_stable in He. subst size. reflexivity.
Qed.

Lemma AddBin_sorted size position bins :
  bins_sorted bins -> bins_sorted (AddBin size position bins).
Proof.
  unfold AddBin. destruct (decide (size <> 0)); [apply multimap_insert_sorted | auto].
Qed.

Lemma laid_out_le prev objs space_end : laid_out prev objs space_end -> prev <= space_end.
Proof.
  revert prev. induction objs as [|[addr size] objs IH]; simpl; intros prev; [auto|].
  intros (Hp & Hs & Hl). apply IH in Hl. lia.
Qed.

Lemma Callback_fold SizeOf addrs prev bins space_end :
  0 <= prev -> space_end <= SIZE_MAX ->
  laid_out prev ((fun obj => (obj, RoundUp (SizeOf obj) kObjectAlignment)) <$> addrs)
    space_end ->
  let '(prev', bins') :=
    foldl (fun arg obj => Callback SizeOf obj arg) (prev, bins) addrs in
  AddBin (to_size_t (space_end - prev')) prev' bins'
  ≡ₚ List.filter nonempty_gap
       (gaps_from prev ((fun obj => (obj, RoundUp (SizeOf obj) kObjectAlignment)) <$> addrs)
          space_end)
     ++ bins
  /\ (bins_sorted bins -> bins_sorted (AddBin (to_size_t (space_end - prev')) prev' bins')).
Proof.
  revert prev bins. induction addrs as [|addr addrs IH]; intros prev bins Hp He Hl.
  - simpl in *. rewrite to_size_t_small by lia. split.
    + apply AddBin_Permutation.
    + apply AddBin_sorted.
  - cbn [foldl fmap list_fmap gaps_from]. simpl in Hl. destruct Hl as (Hpa & Hs & Hl).
    pose proof (laid_out_le _ _ _ Hl) as Hle.
    unfold Callback at 2. rewrite !to_size_t_small by lia.
    specialize (IH (addr + RoundUp (SizeOf addr) kObjectAlignment)
                  (AddBin (addr - prev) prev bins)).
    destruct (foldl _ _ addrs) as [prev' bins'].
    destruct IH as (IHp & IHs); [lia | assumption | assumption |].
    split.
    + rewrite IHp, AddBin_Permutation. simpl.
      destruct (nonempty_gap (addr - prev, prev)); simpl.
      * rewrite <- Permutation_middle. reflexivity.
      * reflexivity.
    + intros Hsorted. apply IHs, AddBin_sorted, Hsorted.
Qed.

Lemma BuildBins_gaps SizeOf space collector :
  bins_ collector = [] ->
  0 <= begin_ space -> end_ space <= SIZE_MAX ->
  laid_out (begin_ space) (live_objects SizeOf space) (end_ space) ->
  bins_ (BuildBins SizeOf space collector)
  ≡ₚ List.filter nonempty_gap
       (gaps_from (begin_ space) (live_objects SizeOf space) (end_ space))
  /\ bins_sorted (bins_ (BuildBins SizeOf space collector)).
Proof.
  intros Hempty Hb He Hl. unfold BuildBins, Walk, live_objects in *. rewrite Hempty.
  pose proof (Callback_fold SizeOf (merge_sort Z.le (elements (live_bitmap_ space)))
                (begin_ space) [] (end_ space) Hb He Hl) as Hfold.
  destruct (foldl _ _ _) as [prev' bins']. simpl.
  destruct Hfold as (Hp & Hs). rewrite app_nil_r in Hp.
  split; [exact Hp|]. apply Hs. constructor.
Qed.

Lemma lower_bound_Some key m before found after :
  lower_bound key m = Some (before, found, after) ->
  m = before ++ found :: after
  /\ key <= fst found
  /\ Forall (fun entry => fst entry < key) before.
Proof.
  revert before. induction m as [|entry m IH]; simpl; intros before; [discriminate|].
  destruct (Z.leb_spec key (fst entry)).
  - intros [= <- <- <-]. auto.
  - destruct (lower_bound key m) as [[[before' found'] after']|]; [|discriminate].
    intros [= <- <- <-]. destruct (IH before' eq_refl) as (-> & Hk & Hb).
    repeat split; [assumption|]. constructor; assumption.
Qed.

Lemma lower_bound_None key m :
  lower_bound key m = None -> Forall (fun entry => fst entry < key) m.
Proof.
  induction m as [|entry m IH]; simpl; [constructor|].
  destruct (Z.leb_spec key (fst entry)); [discriminate|].
  destruct (lower_bound key m) as [[[before' found'] after']|]; [discriminate|].
  intros _. constructor; auto.
Qed.

Lemma lower_bound_smallest key m before found after :
  bins_sorted m ->
  lower_bound key m = Some (before, found, after) ->
  forall entry, In entry m -> key <= fst entry -> fst found <= fst entry.
Proof.
  intros Hs Hl entry Hin Hfit.
  apply lower_bound_Some in Hl as (-> & Hk & Hb).
  apply in_app_or in Hin as [Hin|[<-|Hin]].
  - rewrite Forall_forall in Hb. apply list_elem_of_In, Hb in Hin. lia.
  - lia.
  - unfold bins_sorted in Hs. apply StronglySorted_app_1_r in Hs.
    apply StronglySorted_inv in Hs as (_ & Hall).
    rewrite Forall_forall in Hall. apply Hall, list_elem_of_In, Hin.
Qed.

Lemma bins_sorted_remove before found after :
  bins_sorted (before ++ found :: after) -> bins_sorted (before ++ after).
Proof.
  unfold bins_sorted. induction before as [|entry before IH]; simpl; intros Hs.
  - apply StronglySorted_inv in Hs as (Hs & _). exact Hs.
  - apply StronglySorted_inv in Hs as (Hs & Hall). constructor; [apply IH, Hs|].
    rewrite Forall_app in Hall |- *. destruct Hall as (Hb & Ha).
    apply Forall_cons in Ha as (_ & Ha). auto.
Qed.

(** C8, as amended.  The bins that [BuildBins] makes of a space whose live
    objects lie one after the other are exactly the non-empty gaps they leave
    free, taken in increasing address order: the gap from the begin of the
    space to the first live object, the gaps between consecutive live objects,
    and the gap from the last one to the end of the space.  A copied object is
    placed at the start of the smallest bin whose size is at least its aligned
    size, and what is left of that bin becomes a new bin if it is not empty;
    an object that fits in no bin is placed at the end of the target space,
    which grows by the aligned size. *)
Theorem zygote_bins_are_gaps_and_objects_go_to_best_fit SizeOf space collector obj :
  bins_sorted (bins_ collector) ->
  let object_size := RoundUp (SizeOf obj) kObjectAlignment in
  (bins_ collector = [] ->
   0 <= begin_ space -> end_ space <= SIZE_MAX ->
   laid_out (begin_ space) (live_objects SizeOf space) (end_ space) ->
   bins_ (BuildBins SizeOf space collector)
   ≡ₚ List.filter nonempty_gap
        (gaps_from (begin_ space) (live_objects SizeOf space) (end_ space))
   /\ bins_sorted (bins_ (BuildBins SizeOf space collector)))
  /\ match MarkNonForwardedObject SizeOf obj collector with
     | Some (forward_address, collector') =>
         bins_sorted (bins_ collector')
         /\ ((exists size rest,
                bins_ collector ≡ₚ (size, forward_address) :: rest
                /\ object_size <= size
                /\ (forall entry,
                      In entry (bins_ collector) -> object_size <= fst entry ->
                      size <= fst entry)
                /\ bins_ collector'
                   ≡ₚ List.filter nonempty_gap
                        [(to_size_t (size - object_size),
                          to_size_t (forward_address + object_size))]
                      ++ rest
                /\ to_space_ collector' = to_space_ collector)
             \/ (Forall (fun entry => fst entry < object_size) (bins_ collector)
                 /\ forward_address = end_ (to_space_ collector)
                 /\ end_ (to_space_ collector') = end_ (to_space_ collector) + object_size
                 /\ bins_ collector' = bins_ collector))
     | None =>
         Forall (fun entry => fst entry < object_size) (bins_ collector)
         /\ fst (Alloc object_size (to_space_ collector)) = 0
     end.
Proof.
  intros Hsorted object_size. split; [apply BuildBins_gaps|].
  unfold MarkNonForwardedObject. fold object_size.
  destruct (lower_bound object_size (bins_ collector)) as [[[before [size pos]] after]|] eqn:El.
  - pose proof (lower_bound_smallest _ _ _ _ _ Hsorted El) as Hsmallest.
    apply lower_bound_Some in El as (Hbins & Hfit & _). simpl in Hfit, Hsmallest.
    cbn [bins_ to_space_]. split.
    + apply AddBin_sorted. rewrite Hbins in Hsorted.
      eapply bins_sorted_remove, Hsorted.
    + left. exists size, (before ++ after). split.
      { rewrite Hbins. symmetry. apply Permutation_middle. }
      split; [exact Hfit|]. split; [exact Hsmallest|]. split; [|reflexivity].
      apply AddBin_Permutation.
  - apply lower_bound_None in El. unfold Alloc.
    destruct (end_ (to_space_ collector) + object_size <=? limit_ (to_space_ collector)).
    + destruct (decide (end_ (to_space_ collector) = 0)) as [Hz|Hz]; [auto|].
      split.
      * destruct (to_space_live_bitmap_ collector); exact Hsorted.
      * right. destruct (to_space_live_bitmap_ collector); auto.
    + destruct (decide (0 = 0)); [auto | contradiction].
Qed.

(** * Further properties of the heap manager *)

(** ** Growth policy *)

Lemma GrowForUtilization_sticky_members now gc_duration h :
  let h' := GrowForUtilization now kGcTypeSticky gc_duration h in
  native_need_to_run_finalization_ h' = native_need_to_run_finalization_ h
  /\ growth_limit_ h' = growth_limit_ h
  /\ have_zygote_space_ h' = have_zygote_space_ h.
Proof using Type.
  unfold GrowForUtilization, GrowForUtilization_target_size. simpl.
  destruct (ignore_max_footprint_ h); simpl; [done|].
  destruct (concurrent_gc_ h); done.
Qed.

(** X1.  After a sticky collection the next collection stays sticky while
    [bytes_allocated + min_free_] fits in the allowed footprint, and is
    partial (with a zygote space) or full (without) otherwise.  The footprint
    shrinks to [bytes_allocated + max_free_] when that is less than it was, and
    is never raised above what is already allocated or allowed; the request
    to run finalizers is left as it is. *)
Theorem GrowForUtilization_after_sticky_gc now gc_duration h :
  0 <= GetBytesAllocated h ->
  0 <= min_free_ h ->
  0 <= max_free_ h ->
  GetBytesAllocated h + min_free_ h <= SIZE_MAX ->
  GetBytesAllocated h + max_free_ h <= SIZE_MAX ->
  let bytes_allocated := GetBytesAllocated h in
  let h' := GrowForUtilization now kGcTypeSticky gc_duration h in
  next_gc_type_ h'
  = (if bytes_allocated + min_free_ h <=? max_allowed_footprint_ h then kGcTypeSticky
     else if have_zygote_space_ h then kGcTypePartial else kGcTypeFull)
  /\ native_need_to_run_finalization_ h' = native_need_to_run_finalization_ h
  /\ (ignore_max_footprint_ h = false ->
      max_allowed_footprint_ h'
      = Z.min (if bytes_allocated + max_free_ h <? max_allowed_footprint_ h
               then bytes_allocated + max_free_ h
               else Z.max bytes_allocated (max_allowed_footprint_ h))
              (growth_limit_ h)
      /\ max_allowed_footprint_ h' <= Z.max bytes_allocated (max_allowed_footprint_ h)).
Proof using Type.
  intros Hb Hmin Hmax Hsmin Hsmax bytes_allocated h'.
  split; [|split].
  - unfold h'. rewrite GrowForUtilization_next_gc_type.
    unfold GrowForUtilization_target_size. simpl.
    rewrite to_size_t_small by (unfold bytes_allocated; lia). reflexivity.
  - apply GrowForUtilization_sticky_members.
  - intros Hi. unfold h'. rewrite GrowForUtilization_footprint, Hi.
    unfold GrowForUtilization_target_size. simpl.
    rewrite to_size_t_small by lia. fold bytes_allocated.
    split; [reflexivity|].
    destruct (Z.ltb_spec (bytes_allocated + max_free_ h) (max_allowed_footprint_ h)); lia.
Qed.

(** X2.  [SetIdealFootprint] never stores more than the growth limit, so after
    [GrowForUtilization] the allowed footprint is within the growth limit
    unless the heap ignores its maximum footprint; a heap that ignores it keeps
    the footprint and the concurrent trigger it had. *)
Theorem GrowForUtilization_footprint_within_growth_limit now gc_type gc_duration h :
  let h' := GrowForUtilization now gc_type gc_duration h in
  (forall max_allowed_footprint,
     max_allowed_footprint_ (SetIdealFootprint max_allowed_footprint h) <= growth_limit_ h
     /\ max_allowed_footprint_ (SetIdealFootprint max_allowed_footprint h)
        <= max_allowed_footprint)
  /\ (ignore_max_footprint_ h = false -> max_allowed_footprint_ h' <= growth_limit_ h)
  /\ (ignore_max_footprint_ h = true ->
      max_allowed_footprint_ h' = max_allowed_footprint_ h
      /\ concurrent_start_bytes_ h' = concurrent_start_bytes_ h).
Proof using Type.
  intros h'. split; [|split].
  - intros m. unfold SetIdealFootprint, GetMaxMemory.
    destruct (Z.ltb_spec (growth_limit_ h) m); simpl; lia.
  - intros Hi. unfold h'. rewrite GrowForUtilization_footprint, Hi. lia.
  - intros Hi. unfold h'. split.
    + rewrite GrowForUtilization_footprint, Hi. reflexivity.
    + unfold GrowForUtilization, GrowForUtilization_target_size.
      destruct (decide (gc_type <> kGcTypeSticky)); simpl; rewrite Hi; reflexivity.
Qed.

Lemma GrowForUtilization_concurrent_start_bytes_eq now gc_type gc_duration h :
  concurrent_gc_ h = true ->
  ignore_max_footprint_ h = false ->
  let h' := GrowForUtilization now gc_type gc_duration h in
  concurrent_start_bytes_ h'
  = GrowForUtilization_concurrent_start_bytes (GetBytesAllocated h) gc_duration h'.
Proof using Type.
  intros Hc Hi. unfold GrowForUtilization, GrowForUtilization_target_size.
  destruct (decide (gc_type <> kGcTypeSticky)); simpl; rewrite Hi, Hc; reflexivity.
Qed.

(** X3.  The trigger of the next concurrent collection is never below the bytes
    allocated.  With an allowed footprint of at least 128 KiB it is at least
    128 KiB below that footprint, unless more than that is allocated already;
    with a smaller footprint the [size_t] subtraction wraps around, and the
    trigger lands above 2^32 - 128 KiB. *)
Theorem GrowForUtilization_concurrent_start_bytes_bounds now gc_type gc_duration h :
  concurrent_gc_ h = true ->
  ignore_max_footprint_ h = false ->
  let h' := GrowForUtilization now gc_type gc_duration h in
  0 <= max_allowed_footprint_ h' <= SIZE_MAX ->
  GetBytesAllocated h <= concurrent_start_bytes_ h'
  /\ (kMinConcurrentRemainingBytes <= max_allowed_footprint_ h' ->
      concurrent_start_bytes_ h'
      <= Z.max (GetBytesAllocated h)
               (max_allowed_footprint_ h' - kMinConcurrentRemainingBytes))
  /\ (max_allowed_footprint_ h' < kMinConcurrentRemainingBytes ->
      concurrent_start_bytes_ h'
      = Z.max (2 ^ kBitsPerSizeT + max_allowed_footprint_ h' - kMinConcurrentRemainingBytes)
              (GetBytesAllocated h)).
Proof using Type.
  intros Hc Hi h' Hf. unfold h' in *.
  rewrite GrowForUtilization_concurrent_start_bytes_eq by assumption.
  set (footprint := max_allowed_footprint_ (GrowForUtilization now gc_type gc_duration h)) in *.
  unfold GrowForUtilization_concurrent_start_bytes. fold footprint.
  set (estimate := EstimateRemainingBytes _ _).
  unfold to_size_t, SIZE_MAX, kMinConcurrentRemainingBytes, kMaxConcurrentRemainingBytes,
    kBitsPerSizeT, KB in *.
  split; [lia|]. split.
  - intros Hk.
    destruct (Z.ltb_spec footprint (Z.max (Z.min estimate (512 * 1024)) (128 * 1024))).
    + rewrite Z.mod_small by lia. lia.
    + rewrite Z.mod_small by lia. lia.
  - intros Hk.
    destruct (Z.ltb_spec footprint (Z.max (Z.min estimate (512 * 1024)) (128 * 1024)));
      [|lia].
    replace (footprint - 128 * 1024) with (2 ^ 32 + footprint - 128 * 1024 + (-1) * 2 ^ 32)
      by lia.
    rewrite Z.mod_add by lia. rewrite Z.mod_small by lia. reflexivity.
Qed.

(** ** Starting, running and finishing a collection *)

Lemma StartGC_starts is_compacting w :
  is_gc_running_ (w_heap w) = false ->
  (is_compacting = true -> disable_moving_gc_count_ (w_heap w) = 0) ->
  StartGC is_compacting w
  = Returns true
      (with_heap (set_is_gc_running_ true (w_heap (after_idle_wait w))) (after_idle_wait w)).
Proof using Type.
  intros Hr Hc. unfold StartGC. cbv beta iota delta [bind get_heap].
  rewrite WaitForGcToCompleteLocked_not_running by assumption. simpl.
  destruct is_compacting; simpl; [|reflexivity].
  rewrite Hc by reflexivity. reflexivity.
Qed.

(** What follows [StartGC] in [CollectGarbageInternal], once the collector is
    chosen. *)
Lemma CollectGarbageInternal_run_chosen collector gc_type gc_cause clear_soft_references w :
  exists w',
    (result <- run_collector collector gc_cause clear_soft_references ;;
     modify_heap
       (fun h =>
          set_total_bytes_freed_ever_
            (to_size_t (total_bytes_freed_ever_ h + GetFreedBytes result))
            (set_total_objects_freed_ever_
               (to_size_t (total_objects_freed_ever_ h + GetFreedObjects result)) h)) ;;
     now <- NanoTime ;;
     modify_heap (GrowForUtilization now gc_type (GetDurationNs result)) ;;
     modify_heap (FinishGC gc_type) ;;
     ret gc_type) w
    = Returns gc_type w'
    /\ w_log w' = w_log w ++ [CollectorRun collector gc_cause clear_soft_references]
    /\ is_gc_running_ (w_heap w') = false
    /\ last_gc_type_ (w_heap w') = gc_type
    /\ w_others w' = w_others w.
Proof using Type.
  destruct (run_collector_Returns collector gc_cause clear_soft_references w)
    as (result & bytes & Erun).
  cbv beta iota delta [bind]. rewrite Erun.
  cbv beta iota delta [bind ret modify_heap NanoTime]. eexists. split; [reflexivity|].
  simpl. repeat split; reflexivity.
Qed.

Lemma CollectGarbageInternal_not_partial gc_type h :
  (gc_type = kGcTypePartial -> have_zygote_space_ h = true) ->
  bool_decide (gc_type = kGcTypePartial) && negb (have_zygote_space_ h) = false.
Proof using Type.
  intros Hp. apply andb_false_iff.
  destruct (decide (gc_type = kGcTypePartial)) as [E|E].
  - right. rewrite Hp by assumption. reflexivity.
  - left. apply bool_decide_eq_false. assumption.
Qed.

Lemma find_collector concurrent gc_type :
  gc_type <> kGcTypeNone ->
  exists collector,
    List.find
      (fun cur_collector =>
         bool_decide (IsConcurrent cur_collector = concurrent)
         && bool_decide (GetGcType cur_collector = gc_type))
      garbage_collectors_ = Some collector
    /\ IsConcurrent collector = concurrent
    /\ GetGcType collector = gc_type.
Proof using Type.
  intros Hn. unfold garbage_collectors_.
  destruct concurrent, gc_type; try congruence; simpl; eexists; repeat split; reflexivity.
Qed.

Lemma CollectGarbageInternal_mark_sweep_idle gc_type gc_cause clear_soft_references w :
  is_gc_running_ (w_heap w) = false ->
  IsCompactingGC (collector_type_ (w_heap w)) = false ->
  current_allocator_ (w_heap w) = kAllocatorTypeRosAlloc
  \/ current_allocator_ (w_heap w) = kAllocatorTypeDlMalloc ->
  gc_type <> kGcTypeNone ->
  (gc_type = kGcTypePartial -> have_zygote_space_ (w_heap w) = true) ->
  exists collector w',
    CollectGarbageInternal gc_type gc_cause clear_soft_references w = Returns gc_type w'
    /\ GetGcType collector = gc_type
    /\ IsConcurrent collector = concurrent_gc_ (w_heap w)
    /\ w_log w' = w_log w ++ [CollectorRun collector gc_cause clear_soft_references]
    /\ is_gc_running_ (w_heap w') = false
    /\ last_gc_type_ (w_heap w') = gc_type
    /\ w_others w' = w_others w.
Proof using Type.
  intros Hr Hc Ha Hn Hp.
  destruct (find_collector (concurrent_gc_ (w_heap w)) gc_type Hn) as (collector & Ef & Hcc & Hg).
  exists collector.
  unfold CollectGarbageInternal. cbv beta iota delta [bind get_heap].
  rewrite CollectGarbageInternal_not_partial by assumption.
  rewrite Hc, StartGC_starts by (assumption || discriminate).
  cbv beta iota delta [negb NanoTime ret].
  set (w1 := clock_read _).
  assert (Hrate : forall (b : bool) f,
    exists w2, (if b then modify_heap f else (fun w => Returns tt w)) w1 = Returns tt w2
      /\ w_log w2 = w_log w /\ w_others w2 = w_others w
      /\ ((forall g, concurrent_gc_ (f g) = concurrent_gc_ g
                     /\ current_allocator_ (f g) = current_allocator_ g) ->
          concurrent_gc_ (w_heap w2) = concurrent_gc_ (w_heap w)
          /\ current_allocator_ (w_heap w2) = current_allocator_ (w_heap w))).
  { intros b f. destruct b; eexists; (split; [reflexivity|]).
    - split; [reflexivity|]. split; [reflexivity|]. intros Hf.
      destruct (Hf (w_heap w1)) as [E1 E2]. split; [exact E1|exact E2].
    - simpl. auto. }
  cbv beta iota delta [bind get_heap].
  match goal with
  | |- context [if bool_decide ?P then modify_heap ?f else _] =>
      destruct (Hrate (bool_decide P) f) as (w2 & -> & Hl2 & Ho2 & Hk2)
  end.
  destruct Hk2 as (Hc2 & Ha2); [intros g; split; reflexivity|].
  rewrite Ha2, Hc2.
  replace (bool_decide (current_allocator_ (w_heap w) = kAllocatorTypeRosAlloc)
           || bool_decide (current_allocator_ (w_heap w) = kAllocatorTypeDlMalloc))
    with true
    by (destruct Ha as [-> | ->]; reflexivity).
  rewrite Ef. cbv beta iota delta [ret fst snd].
  destruct (CollectGarbageInternal_run_chosen collector gc_type gc_cause
              clear_soft_references w2) as (w' & E & Hl & Hrun & Hlast & Ho).
  exists w'. split; [exact E|].
  repeat split; try assumption; congruence.
Qed.

Lemma CollectGarbageInternal_semi_space_idle gc_type gc_cause clear_soft_references w :
  is_gc_running_ (w_heap w) = false ->
  IsCompactingGC (collector_type_ (w_heap w)) = true ->
  disable_moving_gc_count_ (w_heap w) = 0 ->
  (gc_type = kGcTypePartial -> have_zygote_space_ (w_heap w) = true) ->
  exists checked,
    w_log checked = w_log w
    /\ w_others checked = w_others w
    /\ if temp_space_IsEmpty checked then
         exists w',
           CollectGarbageInternal gc_type gc_cause clear_soft_references w
           = Returns kGcTypeFull w'
           /\ w_log w' = w_log w ++ [CollectorRun SemiSpace gc_cause clear_soft_references]
           /\ is_gc_running_ (w_heap w') = false
           /\ last_gc_type_ (w_heap w') = kGcTypeFull
           /\ w_others w' = w_others w
       else
         CollectGarbageInternal gc_type gc_cause clear_soft_references w = Aborts checked.
Proof using Type.
  intros Hr Hc Hd Hp.
  unfold CollectGarbageInternal. cbv beta iota delta [bind get_heap].
  rewrite CollectGarbageInternal_not_partial by assumption.
  rewrite Hc, StartGC_starts by (assumption || (intros _; assumption)).
  cbv beta iota delta [negb NanoTime ret].
  set (w1 := clock_read _).
  assert (Hrate : forall (b : bool) f,
    exists w2, (if b then modify_heap f else (fun w => Returns tt w)) w1 = Returns tt w2
      /\ w_log w2 = w_log w /\ w_others w2 = w_others w).
  { intros b f. destruct b; eexists; (split; [reflexivity|]); split; reflexivity. }
  cbv beta iota delta [bind get_heap].
  match goal with
  | |- context [if bool_decide ?P then modify_heap ?f else _] =>
      destruct (Hrate (bool_decide P) f) as (w2 & -> & Hl2 & Ho2)
  end.
  exists w2. split; [exact Hl2|]. split; [exact Ho2|].
  cbv beta iota delta [bind CHECK ret].
  destruct (temp_space_IsEmpty w2); [|reflexivity].
  cbv beta iota delta [fst snd].
  destruct (CollectGarbageInternal_run_chosen SemiSpace kGcTypeFull gc_cause
              clear_soft_references w2) as (w' & E & Hl & Hrun & Hlast & Ho).
  exists w'. split; [exact E|].
  repeat split; try assumption; congruence.
Qed.

(** X4.  On a heap that uses a mark-sweep collector with one of the malloc
    allocators, and with no collection in progress, a request for a sticky or
    full collection, or for a partial one when there is a zygote space, is
    never turned down: the collector of that type and of the heap's
    concurrency runs once, the call returns the requested type, and afterwards
    no collection is marked as running and [last_gc_type_] is that type. *)
Theorem CollectGarbageInternal_runs_requested_type
    gc_type gc_cause clear_soft_references w :
  is_gc_running_ (w_heap w) = false ->
  IsCompactingGC (collector_type_ (w_heap w)) = false ->
  current_allocator_ (w_heap w) = kAllocatorTypeRosAlloc
  \/ current_allocator_ (w_heap w) = kAllocatorTypeDlMalloc ->
  gc_type <> kGcTypeNone ->
  (gc_type = kGcTypePartial -> have_zygote_space_ (w_heap w) = true) ->
  exists collector w',
    CollectGarbageInternal gc_type gc_cause clear_soft_references w = Returns gc_type w'
    /\ GetGcType collector = gc_type
    /\ IsConcurrent collector = concurrent_gc_ (w_heap w)
    /\ w_log w' = w_log w ++ [CollectorRun collector gc_cause clear_soft_references]
    /\ is_gc_running_ (w_heap w') = false
    /\ last_gc_type_ (w_heap w') = gc_type
    /\ w_others w' = w_others w.
Proof. apply CollectGarbageInternal_mark_sweep_idle. Qed.

(** X5.  In a build with the moving collector, under a compacting collector,
    with no collection in progress and moving collections not disabled,
    whatever type is requested (a partial one only with a zygote space) the
    collection is one by the semi-space collector and counts as a full one,
    provided the temp space is empty when the collection starts; if it is
    not, the call aborts the runtime before any collector runs. *)
Theorem CollectGarbageInternal_compacting_is_full
    gc_type gc_cause clear_soft_references w :
  kMovingCollector = true ->
  is_gc_running_ (w_heap w) = false ->
  IsCompactingGC (collector_type_ (w_heap w)) = true ->
  disable_moving_gc_count_ (w_heap w) = 0 ->
  (gc_type = kGcTypePartial -> have_zygote_space_ (w_heap w) = true) ->
  ((forall w0, w_log w0 = w_log w -> temp_space_IsEmpty w0 = true) ->
   exists w',
     CollectGarbageInternal gc_type gc_cause clear_soft_references w
     = Returns kGcTypeFull w'
     /\ w_log w' = w_log w ++ [CollectorRun SemiSpace gc_cause clear_soft_references]
     /\ is_gc_running_ (w_heap w') = false
     /\ last_gc_type_ (w_heap w') = kGcTypeFull
     /\ w_others w' = w_others w)
  /\ ((forall w0, w_log w0 = w_log w -> temp_space_IsEmpty w0 = false) ->
      exists w',
        CollectGarbageInternal gc_type gc_cause clear_soft_references w = Aborts w'
        /\ w_log w' = w_log w).
Proof using Type.
  intros _ Hr Hc Hd Hp.
  destruct (CollectGarbageInternal_semi_space_idle gc_type gc_cause clear_soft_references w
              Hr Hc Hd Hp) as (checked & Hl & _ & Hrun).
  split; intros Hempty; rewrite (Hempty checked Hl) in Hrun.
  - exact Hrun.
  - exists checked. split; [exact Hrun|exact Hl].
Qed.

(** X6.  Whenever [CollectGarbageInternal] returns, except from a partial
    collection requested without a zygote space, no collection is marked as
    running; and when it returns a type other than [kGcTypeNone], that type
    is what [last_gc_type_] holds for the threads that waited. *)
Theorem CollectGarbageInternal_leaves_no_collection_running
    gc_type gc_cause clear_soft_references w g w' :
  CollectGarbageInternal gc_type gc_cause clear_soft_references w = Returns g w' ->
  ((gc_type = kGcTypePartial /\ have_zygote_space_ (w_heap w) = false /\ w' = w)
   \/ is_gc_running_ (w_heap w') = false)
  /\ (g <> kGcTypeNone ->
      is_gc_running_ (w_heap w') = false /\ last_gc_type_ (w_heap w') = g).
Proof using Type.
  unfold CollectGarbageInternal. intros H. cbv beta iota delta [bind get_heap] in H.
  destruct (bool_decide (gc_type = kGcTypePartial) && negb (have_zygote_space_ (w_heap w)))
    eqn:Hpartial.
  { injection H as <- <-. split; [|congruence]. left.
    apply andb_true_iff in Hpartial as (Hpartial & Hz).
    apply bool_decide_eq_true in Hpartial. apply negb_true_iff in Hz. auto. }
  destruct (StartGC _ w) as [started w1| |] eqn:Es; [|discriminate H..].
  apply StartGC_Returns in Es as (g0 & w0 & Ew & Hs).
  apply WaitForGcToCompleteLocked_Returns in Ew as (_ & Hr0 & _).
  destruct Hs as [(-> & _ & _ & ->)|(-> & _ & ->)].
  { injection H as <- <-. split; [right; exact Hr0|congruence]. }
  cbv beta iota delta [negb NanoTime ret] in H.
  set (w1 := clock_read (with_heap (set_is_gc_running_ true (w_heap w0)) w0)) in *.
  assert (Hrate : forall (b : bool) f,
    exists w2, (if b then modify_heap f else (fun w => Returns tt w)) w1 = Returns tt w2).
  { intros b f. destruct b; eexists; reflexivity. }
  cbv beta iota delta [bind get_heap] in H.
  match type of H with
  | context [if bool_decide ?P then modify_heap ?f else _] =>
      destruct (Hrate (bool_decide P) f) as (w2 & Er)
  end.
  rewrite Er in H. clear Er.
  assert (Hchosen : forall collector gc_type0,
    (result <- run_collector collector gc_cause clear_soft_references ;;
     modify_heap
       (fun h =>
          set_total_bytes_freed_ever_
            (to_size_t (total_bytes_freed_ever_ h + GetFreedBytes result))
            (set_total_objects_freed_ever_
               (to_size_t (total_objects_freed_ever_ h + GetFreedObjects result)) h)) ;;
     now <- NanoTime ;;
     modify_heap (GrowForUtilization now gc_type0 (GetDurationNs result)) ;;
     modify_heap (FinishGC gc_type0) ;;
     ret gc_type0) w2 = Returns g w' ->
    is_gc_running_ (w_heap w') = false /\ last_gc_type_ (w_heap w') = g).
  { intros collector gc_type0 Hc.
    destruct (CollectGarbageInternal_run_chosen collector gc_type0 gc_cause
                clear_soft_references w2) as (w'' & E & _ & Hrun & Hlast & _).
    rewrite E in Hc. injection Hc as <- <-. auto. }
  cbv beta iota delta [bind get_heap] in H.
  destruct (IsCompactingGC (collector_type_ (w_heap w))).
  - cbv beta iota delta [bind CHECK ret] in H.
    destruct (temp_space_IsEmpty w2); [|discriminate H].
    apply (Hchosen SemiSpace kGcTypeFull) in H as (Hrun & Hlast). auto.
  - destruct (bool_decide (current_allocator_ (w_heap w2) = kAllocatorTypeRosAlloc)
              || bool_decide (current_allocator_ (w_heap w2) = kAllocatorTypeDlMalloc));
      [|discriminate H].
    destruct (find _ garbage_collectors_) as [collector|]; [|discriminate H].
    cbv beta iota delta [ret] in H.
    apply (Hchosen collector gc_type) in H as (Hrun & Hlast). auto.
Qed.

(** ** Waiting for a collection *)

(** X7.  [WaitForGcToComplete] returns [kGcTypeNone] without waiting when no
    collection is in progress: the clock is read twice, the time between the
    two readings is added to [total_wait_time_], and nothing else changes.
    When a collection is in progress, it waits for ever if no other thread is
    left to finish it, and when the next thing that happens is that a thread
    finishes a collection, it returns the type of that collection. *)
Theorem WaitForGcToComplete_outcomes w :
  (is_gc_running_ (w_heap w) = false ->
   let wait_start := w_clock w (w_now w) in
   let now := w_clock w wait_start in
   WaitForGcToComplete w
   = Returns kGcTypeNone
       (with_heap
          (set_total_wait_time_
             (to_uint64_t (total_wait_time_ (w_heap w) + to_uint64_t (now - wait_start)))
             (w_heap w))
          (with_now now w)))
  /\ (is_gc_running_ (w_heap w) = true ->
      w_others w = [] ->
      exists w', WaitForGcToComplete w = Blocks w')
  /\ (is_gc_running_ (w_heap w) = true ->
      forall gc_type others,
        w_others w = OtherFinishGC gc_type :: others ->
        exists w',
          WaitForGcToComplete w = Returns gc_type w'
          /\ w_others w' = others
          /\ is_gc_running_ (w_heap w') = false
          /\ last_gc_type_ (w_heap w') = gc_type
          /\ w_log w' = w_log w).
Proof using Type.
  unfold WaitForGcToComplete. split; [|split].
  - intros Hr. cbv zeta.
    rewrite WaitForGcToCompleteLocked_not_running by assumption. reflexivity.
  - intros Hr Ho. unfold WaitForGcToCompleteLocked.
    cbv beta iota delta [bind NanoTime].
    change (w_others (clock_read w)) with (w_others w). rewrite Ho. simpl. rewrite Hr.
    eexists. reflexivity.
  - intros Hr gc_type others Ho. unfold WaitForGcToCompleteLocked.
    cbv beta iota delta [bind NanoTime].
    change (w_others (clock_read w)) with (w_others w). rewrite Ho. simpl. rewrite Hr.
    rewrite WaitWhileGcIsRunning_not_running by reflexivity.
    eexists. split; [reflexivity|]. simpl. repeat split; reflexivity.
Qed.

(** ** Pinning objects *)

(** X8.  Between [IncrementDisableMovingGC] and the [DecrementDisableMovingGC] that
    matches it the count is not zero, so that a compacting collection is
    refused, with a warning, and the decrement gives the heap back as it
    was. *)
Theorem IncrementDisableMovingGC_protects_until_decrement w :
  0 <= disable_moving_gc_count_ (w_heap w) < SIZE_MAX ->
  is_gc_running_ (w_heap w) = false ->
  let pinned := with_heap (IncrementDisableMovingGC (w_heap w)) w in
  disable_moving_gc_count_ (w_heap pinned) = disable_moving_gc_count_ (w_heap w) + 1
  /\ (exists w',
        StartGC true pinned = Returns false w'
        /\ w_log w' = w_log w ++ [LogWarningSkippingGC (disable_moving_gc_count_ (w_heap w) + 1)]
        /\ is_gc_running_ (w_heap w') = false)
  /\ DecrementDisableMovingGC (w_heap pinned) = w_heap w.
Proof using Type.
  intros Hc Hr pinned.
  assert (Hcount : disable_moving_gc_count_ (w_heap pinned)
                   = disable_moving_gc_count_ (w_heap w) + 1).
  { simpl. apply to_size_t_small. lia. }
  split; [exact Hcount|]. split.
  - eexists. split.
    + apply StartGC_refuses; [exact Hr|]. rewrite Hcount. lia.
    + rewrite Hcount. simpl. split; [reflexivity|exact Hr].
  - unfold DecrementDisableMovingGC. rewrite Hcount.
    replace (disable_moving_gc_count_ (w_heap w) + 1 - 1)
      with (disable_moving_gc_count_ (w_heap w)) by lia.
    rewrite to_size_t_small by lia. reflexivity.
Qed.

(** ** Collector configuration *)

Lemma ChangeCollector_configuration collector_type h :
  collector_type <> collector_type_ h ->
  collector_type <> kCollectorTypeNone ->
  exists start,
    ChangeCollector collector_type h
    = Some (set_concurrent_start_bytes_ start
              (set_current_allocator_ (collector_configuration collector_type (use_tlab_ h)).2
                 (set_gc_plan_ (collector_configuration collector_type (use_tlab_ h)).1.2
                    (set_concurrent_gc_ (collector_configuration collector_type (use_tlab_ h)).1.1
                       (set_collector_type_ collector_type h)))))
    /\ ((collector_configuration collector_type (use_tlab_ h)).1.1 = false ->
        start = SIZE_MAX).
Proof using Type.
  intros Hne Hnone. unfold ChangeCollector, collector_configuration, ChangeAllocator.
  destruct (decide (collector_type <> collector_type_ h)); [|contradiction].
  assert (Hsame : forall allocator,
    (if decide (current_allocator_ h <> allocator) then allocator else current_allocator_ h)
    = allocator).
  { intros allocator. destruct (decide (current_allocator_ h <> allocator)) as [|E];
      [reflexivity|]. apply dec_stable in E. exact E. }
  destruct collector_type; try contradiction; simpl.
  - eexists. split; [|reflexivity].
    destruct kUseRosAlloc;
      destruct (decide (current_allocator_ h <> _)) as [|E]; simpl;
      try (apply dec_stable in E; rewrite <- E); reflexivity.
  - eexists. split; [|intros E0; discriminate E0].
    destruct kUseRosAlloc;
      destruct (decide (current_allocator_ h <> _)) as [|E]; simpl;
      try (apply dec_stable in E; rewrite <- E); reflexivity.
  - eexists. split; [|reflexivity].
    destruct (use_tlab_ h);
      destruct (decide (current_allocator_ h <> _)) as [|E]; simpl;
      try (apply dec_stable in E; rewrite <- E); reflexivity.
  - eexists. split; [|reflexivity].
    destruct (use_tlab_ h);
      destruct (decide (current_allocator_ h <> _)) as [|E]; simpl;
      try (apply dec_stable in E; rewrite <- E); reflexivity.
Qed.


(** ** Explicit and concurrent collections *)

(** X10.  [CollectGarbage] requests the last collection type of the plan with cause
    [kGcCauseExplicit]: on a mark-sweep heap whose plan ends in a full
    collection, with no collection in progress, the full collector of the
    heap's concurrency runs once, clearing soft references as asked. *)
Theorem CollectGarbage_runs_a_full_collection clear_soft_references w :
  last (gc_plan_ (w_heap w)) = Some kGcTypeFull ->
  is_gc_running_ (w_heap w) = false ->
  IsCompactingGC (collector_type_ (w_heap w)) = false ->
  current_allocator_ (w_heap w) = kAllocatorTypeRosAlloc
  \/ current_allocator_ (w_heap w) = kAllocatorTypeDlMalloc ->
  exists w',
    CollectGarbage clear_soft_references w = Returns tt w'
    /\ w_log w'
       = w_log w
         ++ [CollectorRun (MarkSweep (concurrent_gc_ (w_heap w))) kGcCauseExplicit
               clear_soft_references]
    /\ last_gc_type_ (w_heap w') = kGcTypeFull
    /\ is_gc_running_ (w_heap w') = false.
Proof using Type.
  intros Hlast Hr Hc Ha. unfold CollectGarbage. cbv beta iota delta [bind get_heap].
  rewrite Hlast.
  destruct (CollectGarbageInternal_mark_sweep_idle kGcTypeFull kGcCauseExplicit
              clear_soft_references w)
    as (collector & w' & E & Hg & Hcc & Hl & Hrun & Hlt & _);
    try assumption; try discriminate.
  cbv beta iota delta [bind]. rewrite E. cbv beta iota delta [ret].
  exists w'. split; [reflexivity|]. split; [|auto].
  rewrite Hl. destruct collector; try discriminate Hg; simpl in Hcc; rewrite Hcc; reflexivity.
Qed.

Lemma collector_runs_app events1 events2 :
  collector_runs (events1 ++ events2) = collector_runs events1 ++ collector_runs events2.
Proof. apply List.filter_app. Qed.

Lemma CollectGarbageInternal_at_most_one_run gc_type gc_cause clear_soft_references w g w' :
  CollectGarbageInternal gc_type gc_cause clear_soft_references w = Returns g w' ->
  exists events,
    w_log w' = w_log w ++ events
    /\ (length (collector_runs events) <= 1)%nat
    /\ (g = kGcTypeNone -> collector_runs events = []).
Proof using Type.
  intros H. apply CollectGarbageInternal_Returns in H as (_ & _ & [(-> & H)|H]).
  - destruct H as [(_ & ->)|(n & ->)].
    + exists []. rewrite app_nil_r. simpl. auto.
    + eexists. split; [reflexivity|]. simpl. auto.
  - destruct H as (collector & -> & Hg). eexists. split; [reflexivity|]. simpl.
    split; [lia|]. intros ->.
    destruct Hg as [(_ & Hg)|(Hg & <-)]; [discriminate|]. destruct collector; discriminate.
Qed.

Lemma ConcurrentGC_plan_loop_at_most_one_run plan w w' :
  ConcurrentGC_plan_loop plan w = Returns tt w' ->
  exists events,
    w_log w' = w_log w ++ events /\ (length (collector_runs events) <= 1)%nat.
Proof using Type.
  revert w. induction plan as [|gc_type plan IH]; intros w H; simpl in H.
  - injection H as <-. exists []. rewrite app_nil_r. simpl. auto.
  - cbv beta iota delta [bind get_heap] in H.
    destruct (GcType_gt gc_type (next_gc_type_ (w_heap w))); [|apply IH; exact H].
    destruct (CollectGarbageInternal _ _ _ w) as [g w1| |] eqn:E; [|discriminate H..].
    apply CollectGarbageInternal_at_most_one_run in E as (events & Hl & Hlen & Hnone).
    destruct (bool_decide (g <> kGcTypeNone)) eqn:Hg.
    + injection H as <-. exists events. auto.
    + apply bool_decide_eq_false in Hg. apply dec_stable in Hg.
      apply IH in H as (events' & Hl' & Hlen').
      exists (events ++ events'). rewrite Hl', Hl, app_assoc. split; [reflexivity|].
      rewrite collector_runs_app, Hnone by assumption. exact Hlen'.
Qed.

(** X11.  A call of [ConcurrentGC] runs at most one collector.  It runs none when
    the runtime is shutting down, and none when it had to wait for a
    collection by another thread that was not of type [kGcTypeNone]. *)
Theorem ConcurrentGC_runs_at_most_one_collector is_shutting_down w :
  (forall w',
     ConcurrentGC is_shutting_down w = Returns tt w' ->
     exists events,
       w_log w' = w_log w ++ events /\ (length (collector_runs events) <= 1)%nat)
  /\ (is_shutting_down = true -> ConcurrentGC is_shutting_down w = Returns tt w)
  /\ (is_gc_running_ (w_heap w) = true ->
      forall gc_type others,
        w_others w = OtherFinishGC gc_type :: others ->
        gc_type <> kGcTypeNone ->
        exists w',
          ConcurrentGC false w = Returns tt w'
          /\ w_log w' = w_log w
          /\ w_others w' = others).
Proof using Type.
  split; [|split].
  - intros w' H. unfold ConcurrentGC in H.
    destruct is_shutting_down.
    { injection H as <-. exists []. rewrite app_nil_r. simpl. auto. }
    cbv beta iota delta [bind] in H.
    destruct (WaitForGcToComplete w) as [last_gc w1| |] eqn:Ew; [|discriminate H..].
    apply WaitForGcToCompleteLocked_Returns in Ew as (Hl1 & _).
    destruct (bool_decide (last_gc = kGcTypeNone)).
    2:{ injection H as <-. exists []. rewrite app_nil_r. simpl. auto. }
    cbv beta iota delta [bind get_heap] in H.
    destruct (CollectGarbageInternal _ _ _ w1) as [g w2| |] eqn:E; [|discriminate H..].
    apply CollectGarbageInternal_at_most_one_run in E as (events & Hl & Hlen & Hnone).
    destruct (bool_decide (g = kGcTypeNone)) eqn:Hg.
    + apply bool_decide_eq_true in Hg.
      apply ConcurrentGC_plan_loop_at_most_one_run in H as (events' & Hl' & Hlen').
      exists (events ++ events'). rewrite Hl', Hl, Hl1, app_assoc. split; [reflexivity|].
      rewrite collector_runs_app, Hnone by assumption. exact Hlen'.
    + injection H as <-. exists events. rewrite Hl, Hl1. auto.
  - intros ->. reflexivity.
  - intros Hr gc_type others Ho Hn. unfold ConcurrentGC, WaitForGcToComplete,
      WaitForGcToCompleteLocked.
    cbv beta iota delta [bind NanoTime].
    change (w_others (clock_read w)) with (w_others w). rewrite Ho. simpl. rewrite Hr.
    rewrite WaitWhileGcIsRunning_not_running by reflexivity.
    cbv beta iota delta [bind ret modify_heap NanoTime].
    rewrite bool_decide_eq_false_2 by assumption.
    eexists. split; [reflexivity|]. split; reflexivity.
Qed.

Lemma ConcurrentGC_plan_loop_skip gc_type plan w :
  GcType_gt gc_type (next_gc_type_ (w_heap w)) = false ->
  ConcurrentGC_plan_loop (gc_type :: plan) w = ConcurrentGC_plan_loop plan w.
Proof using Type.
  intros Hgt. simpl. cbv beta iota delta [bind get_heap]. rewrite Hgt. reflexivity.
Qed.

Lemma ConcurrentGC_plan_loop_ran gc_type plan w g w' :
  GcType_gt gc_type (next_gc_type_ (w_heap w)) = true ->
  CollectGarbageInternal gc_type kGcCauseBackground false w = Returns g w' ->
  g <> kGcTypeNone ->
  ConcurrentGC_plan_loop (gc_type :: plan) w = Returns tt w'.
Proof using Type.
  intros Hgt E Hg. simpl. cbv beta iota delta [bind get_heap]. rewrite Hgt, E.
  rewrite bool_decide_eq_true_2 by assumption. reflexivity.
Qed.

(** X12.  The fallback of [ConcurrentGC]: when the next collection is to be a
    partial one and there is no zygote space, the partial collection is not
    run, the sticky and the partial entry of the plan are passed over, and the
    full collector runs instead. *)
Theorem ConcurrentGC_falls_back_to_a_full_collection w :
  GcType_gt kGcTypeSticky kGcTypePartial = false ->
  GcType_gt kGcTypePartial kGcTypePartial = false ->
  GcType_gt kGcTypeFull kGcTypePartial = true ->
  next_gc_type_ (w_heap w) = kGcTypePartial ->
  have_zygote_space_ (w_heap w) = false ->
  gc_plan_ (w_heap w) = [kGcTypeSticky; kGcTypePartial; kGcTypeFull] ->
  is_gc_running_ (w_heap w) = false ->
  IsCompactingGC (collector_type_ (w_heap w)) = false ->
  current_allocator_ (w_heap w) = kAllocatorTypeRosAlloc
  \/ current_allocator_ (w_heap w) = kAllocatorTypeDlMalloc ->
  exists w',
    ConcurrentGC false w = Returns tt w'
    /\ w_log w'
       = w_log w
         ++ [CollectorRun (MarkSweep (concurrent_gc_ (w_heap w))) kGcCauseBackground false]
    /\ last_gc_type_ (w_heap w') = kGcTypeFull.
Proof using Type.
  intros Hsp Hpp Hfp Hnext Hz Hplan Hr Hc Ha.
  unfold ConcurrentGC, WaitForGcToComplete. cbv beta iota delta [bind].
  rewrite WaitForGcToCompleteLocked_not_running by assumption.
  set (w1 := after_idle_wait w).
  cbv beta iota delta [bind get_heap]. simpl.
  change (next_gc_type_ (w_heap w1)) with (next_gc_type_ (w_heap w)). rewrite Hnext.
  assert (Hpartial : forall gc_cause clear_soft_references,
    CollectGarbageInternal kGcTypePartial gc_cause clear_soft_references w1
    = Returns kGcTypeNone w1).
  { intros gc_cause clear_soft_references. unfold CollectGarbageInternal.
    cbv beta iota delta [bind get_heap]. simpl. rewrite Hz. reflexivity. }
  rewrite Hpartial. simpl. rewrite Hplan.
  rewrite !ConcurrentGC_plan_loop_skip by (simpl; rewrite Hnext; assumption).
  destruct (CollectGarbageInternal_mark_sweep_idle kGcTypeFull kGcCauseBackground false w1)
    as (collector & w' & E & Hg & Hcc & Hl & Hrun & Hlt & _);
    try assumption; try discriminate.
  exists w'. split.
  { apply (ConcurrentGC_plan_loop_ran _ _ _ kGcTypeFull);
      [simpl; rewrite Hnext; assumption|exact E|discriminate]. }
  split; [|exact Hlt].
  rewrite Hl. simpl in Hcc.
  destruct collector; try discriminate Hg; simpl in Hcc; rewrite Hcc; reflexivity.
Qed.

(** ** The watermarks of native allocation *)

(** X13.  [UpdateMaxNativeFootprint] puts the collection watermark between
    [native_size + min_free_] and [native_size + max_free_], at the quotient by
    the target utilization when that lies in between, and the limit as far
    above the watermark as the watermark is above the native bytes
    allocated. *)
Theorem UpdateMaxNativeFootprint_window h :
  0 <= native_bytes_allocated_ h ->
  0 <= min_free_ h <= max_free_ h ->
  native_bytes_allocated_ h + 2 * max_free_ h <= SIZE_MAX ->
  let native_size := native_bytes_allocated_ h in
  let watermark := native_footprint_gc_watermark_ (UpdateMaxNativeFootprint h) in
  let limit := native_footprint_limit_ (UpdateMaxNativeFootprint h) in
  watermark
  = Z.max (Z.min (DivideByTargetHeapUtilization native_size) (native_size + max_free_ h))
          (native_size + min_free_ h)
  /\ native_size + min_free_ h <= watermark <= native_size + max_free_ h
  /\ limit - watermark = watermark - native_size
  /\ watermark <= limit.
Proof using Type.
  intros Hn Hf Hmax native_size watermark limit.
  unfold watermark, limit, UpdateMaxNativeFootprint. simpl.
  rewrite (to_size_t_small (native_bytes_allocated_ h)) by lia.
  fold native_size.
  rewrite (to_size_t_small (native_size + max_free_ h)) by lia.
  rewrite (to_size_t_small (native_size + min_free_ h)) by lia.
  set (quotient := DivideByTargetHeapUtilization native_size).
  destruct (Z.ltb_spec (native_size + max_free_ h) quotient).
  - rewrite to_size_t_small by lia. lia.
  - destruct (Z.ltb_spec quotient (native_size + min_free_ h)).
    + rewrite to_size_t_small by lia. lia.
    + rewrite to_size_t_small by lia. lia.
Qed.

(** ** The continuous spaces *)

#[local] Instance begins_before_transitive : Transitive begins_before.
Proof. unfold begins_before. intros a b c. lia. Qed.

#[local] Instance begins_before_total : Total begins_before.
Proof. unfold begins_before. intros a b. lia. Qed.

Lemma StronglySorted_head {A} (R : relation A) x l y :
  StronglySorted R (x :: l) -> In y l -> R x y.
Proof using Type.
  intros Hs Hin. apply StronglySorted_inv in Hs as (_ & Hall).
  rewrite List.Forall_forall in Hall. auto.
Qed.

Lemma StronglySorted_remove_middle {A} (R : relation A) before x after :
  StronglySorted R (before ++ x :: after) -> StronglySorted R (before ++ after).
Proof using Type.
  intros Hs. apply StronglySorted_app in Hs as (Hba & Hb & Ha).
  apply StronglySorted_app. split; [|split].
  - intros x1 x2 H1 H2. apply Hba; [exact H1|]. apply elem_of_cons. right. exact H2.
  - exact Hb.
  - apply StronglySorted_inv in Ha as (Ha & _). exact Ha.
Qed.

Lemma AddSpace_keeps_spaces_sorted_aux space continuous_spaces :
  AddSpace space continuous_spaces ≡ₚ space :: continuous_spaces
  /\ StronglySorted begins_before (AddSpace space continuous_spaces).
Proof using Type.
  unfold AddSpace. split.
  - rewrite merge_sort_Permutation. rewrite Permutation_app_comm. reflexivity.
  - apply (StronglySorted_merge_sort _).
Qed.

(** X14.  [AddSpace] adds the space, and nothing else, to [continuous_spaces_], and
    leaves the list sorted by [Begin] whatever order it had: the space at the
    front begins no later than any other. *)
Theorem AddSpace_keeps_spaces_sorted space continuous_spaces :
  AddSpace space continuous_spaces ≡ₚ space :: continuous_spaces
  /\ StronglySorted begins_before (AddSpace space continuous_spaces)
  /\ exists front others,
       AddSpace space continuous_spaces = front :: others
       /\ Begin front <= Begin space
       /\ forall s, In s continuous_spaces -> Begin front <= Begin s.
Proof using Type.
  destruct (AddSpace_keeps_spaces_sorted_aux space continuous_spaces) as (Hperm & Hsorted).
  split; [exact Hperm|]. split; [exact Hsorted|].
  destruct (AddSpace space continuous_spaces) as [|front others] eqn:E.
  { apply Permutation_nil_cons in Hperm. contradiction. }
  exists front, others. split; [reflexivity|].
  assert (Hfront : forall s, In s (space :: continuous_spaces) -> Begin front <= Begin s).
  { intros s Hin. apply (Permutation_in _ (Permutation_sym Hperm)) in Hin.
    destruct Hin as [<-|Hin]; [lia|].
    apply (StronglySorted_head _ _ _ _ Hsorted Hin). }
  split; [apply Hfront; left; reflexivity|].
  intros s Hin. apply Hfront. right. exact Hin.
Qed.

Lemma erase_space_Some space continuous_spaces spaces' :
  erase_space space continuous_spaces = Some spaces' ->
  exists before removed after,
    continuous_spaces = before ++ removed :: after
    /\ this removed = space
    /\ Forall (fun s => this s <> space) before
    /\ spaces' = before ++ after.
Proof using Type.
  revert spaces'. induction continuous_spaces as [|s spaces IH]; intros spaces' H;
    simpl in H; [discriminate|].
  destruct (decide (this s = space)) as [E|E].
  - injection H as <-. exists [], s, spaces. auto.
  - destruct (erase_space space spaces) as [spaces0|]; [|discriminate].
    injection H as <-.
    destruct (IH _ eq_refl) as (before & removed & after & -> & Hr & Hb & ->).
    exists (s :: before), removed, after. auto.
Qed.

Lemma erase_space_None space continuous_spaces :
  erase_space space continuous_spaces = None ->
  Forall (fun s => this s <> space) continuous_spaces.
Proof using Type.
  induction continuous_spaces as [|s spaces IH]; intros H; simpl in H; [constructor|].
  destruct (decide (this s = space)) as [E|E]; [discriminate|].
  destruct (erase_space space spaces); [discriminate|]. constructor; auto.
Qed.

(** X15.  [RemoveSpace] takes the first entry for the space object out of
    [continuous_spaces_] and leaves the others in their order, so that a
    sorted list stays sorted; a space that was added to a sorted list of
    spaces that begin at different addresses, none of them at the address of
    the new space object, is removed again with the list as it was before. *)
Theorem RemoveSpace_undoes_AddSpace space continuous_spaces :
  StronglySorted begins_before continuous_spaces ->
  (forall a b, In a continuous_spaces -> In b continuous_spaces ->
               Begin a = Begin b -> a = b) ->
  Forall (fun s => this s <> this space) continuous_spaces ->
  RemoveSpace space (AddSpace space continuous_spaces) = Some continuous_spaces
  /\ forall spaces',
       RemoveSpace space continuous_spaces = Some spaces' ->
       StronglySorted begins_before spaces'.
Proof using Type.
  intros Hsorted Hdistinct Hfresh. split.
  - destruct (AddSpace_keeps_spaces_sorted_aux space continuous_spaces)
      as (Hperm & Hs).
    unfold RemoveSpace.
    destruct (erase_space (this space) (AddSpace space continuous_spaces))
      as [spaces'|] eqn:E.
    + apply erase_space_Some in E as (before & removed & after & Eadd & Hr & _ & ->).
      rewrite Eadd in Hperm, Hs.
      assert (removed = space) as ->.
      { assert (Hin : In removed (space :: continuous_spaces)).
        { apply (Permutation_in _ Hperm). apply in_elt. }
        destruct Hin as [<-|Hin]; [reflexivity|].
        rewrite List.Forall_forall in Hfresh. apply Hfresh in Hin. contradiction. }
      f_equal.
      assert (Hperm' : before ++ after ≡ₚ continuous_spaces).
      { apply (Permutation_cons_inv (a := space)).
        rewrite <- Hperm. apply Permutation_middle. }
      apply (StronglySorted_unique_strong begins_before); [| |exact Hsorted|exact Hperm'].
      * intros x1 x2 H1 H2 H12 H21. apply Hdistinct.
        -- apply list_elem_of_In. rewrite <- Hperm'. exact H1.
        -- apply list_elem_of_In. exact H2.
        -- unfold begins_before in *. lia.
      * apply (StronglySorted_remove_middle _ _ _ _ Hs).
    + apply erase_space_None in E. rewrite List.Forall_forall in E.
      exfalso. apply (E space); [|reflexivity].
      apply (Permutation_in _ (Permutation_sym Hperm)). left. reflexivity.
  - intros spaces' E. apply erase_space_Some in E as (before & removed & after & -> & _ & _ & ->).
    apply (StronglySorted_remove_middle _ _ _ _ Hsorted).
Qed.

(** X16.  [FindContinuousSpaceFromObject] returns a space of the list that contains
    the object, the one that begins lowest when the list is sorted; when no
    space contains the object it returns null if that is allowed and aborts
    the runtime otherwise, so that with [fail_ok] unset it never returns
    null. *)
Theorem FindContinuousSpaceFromObject_finds_lowest_space
    Contains obj fail_ok continuous_spaces :
  match FindContinuousSpaceFromObject Contains obj fail_ok continuous_spaces with
  | FoundSpace space =>
      In space continuous_spaces
      /\ Contains space obj = true
      /\ (StronglySorted begins_before continuous_spaces ->
          forall s, In s continuous_spaces -> Contains s obj = true ->
                    Begin space <= Begin s)
  | FoundNull =>
      fail_ok = true /\ forall s, In s continuous_spaces -> Contains s obj = false
  | FoundFatal =>
      fail_ok = false /\ forall s, In s continuous_spaces -> Contains s obj = false
  end.
Proof using Type.
  unfold FindContinuousSpaceFromObject.
  destruct (find _ continuous_spaces) as [space|] eqn:E.
  - split; [apply (find_some _ _ E)|]. split; [apply (find_some _ _ E)|].
    intros Hsorted. induction continuous_spaces as [|s0 spaces IH]; [discriminate|].
    simpl in E. intros s Hin Hc.
    destruct (Contains s0 obj) eqn:E0.
    + injection E as <-. destruct Hin as [<-|Hin]; [lia|].
      apply (StronglySorted_head _ _ _ _ Hsorted Hin).
    + destruct Hin as [<-|Hin]; [congruence|].
      apply StronglySorted_inv in Hsorted as (Hsorted & _). apply IH; assumption.
  - assert (Hnone : forall s, In s continuous_spaces -> Contains s obj = false)
      by (intros s Hin; apply (find_none _ _ E s Hin)).
    destruct fail_ok; simpl; auto.
Qed.

(** X17.  The three queries on image spaces agree: [HasImageSpace] holds exactly
    when [GetImageSpace] returns a space, which then is an image space of the
    list, and [IsCompilingBoot] holds exactly when the list has neither an
    image space nor a zygote space. *)
Theorem image_space_queries_agree continuous_spaces :
  (HasImageSpace continuous_spaces = true <-> is_Some (GetImageSpace continuous_spaces))
  /\ (forall space,
        GetImageSpace continuous_spaces = Some space ->
        In space continuous_spaces /\ IsImageSpace space = true)
  /\ (IsCompilingBoot continuous_spaces = true
      <-> forall space, In space continuous_spaces ->
                        IsImageSpace space = false /\ IsZygoteSpace space = false)
  /\ (IsCompilingBoot continuous_spaces = true -> HasImageSpace continuous_spaces = false).
Proof using Type.
  unfold GetImageSpace. split; [|split; [|split]].
  - induction continuous_spaces as [|s spaces IH]; simpl.
    + split; [discriminate|]. intros [? ?]. discriminate.
    + destruct (IsImageSpace s); [|exact IH]. split; eauto.
  - intros space E. apply find_some in E. exact E.
  - induction continuous_spaces as [|s spaces IH]; simpl.
    + split; [intros _ ? []|reflexivity].
    + destruct (IsImageSpace s) eqn:Ei.
      { split; [discriminate|]. intros H. destruct (H s) as (Hi & _); [auto|congruence]. }
      destruct (IsZygoteSpace s) eqn:Ez.
      { split; [discriminate|]. intros H. destruct (H s) as (_ & Hz); [auto|congruence]. }
      rewrite IH. split.
      * intros H space [<-|Hin]; auto.
      * intros H space Hin. apply H. auto.
  - induction continuous_spaces as [|s spaces IH]; simpl; [reflexivity|].
    destruct (IsImageSpace s); [discriminate|].
    destruct (IsZygoteSpace s); [discriminate|]. exact IH.
Qed.

(** ** Instances of a class *)

Lemma GetInstances_Visit_fold GetClass c m visited instances :
  foldl (fun instances_ o => InstanceCollector GetClass c m o instances_) instances visited
  = instances
    ++ (if m =? 0 then List.filter (fun o => bool_decide (GetClass o = c)) visited
        else take (Z.to_nat m - length instances)
               (List.filter (fun o => bool_decide (GetClass o = c)) visited)).
Proof using Type.
  revert instances. induction visited as [|o visited IH]; intros instances; simpl.
  - destruct (m =? 0); [|rewrite take_nil]; rewrite app_nil_r; reflexivity.
  - rewrite IH. unfold InstanceCollector.
    destruct (decide (GetClass o = c)) as [E|E].
    + rewrite (bool_decide_eq_true_2 _ E).
      destruct (Z.eqb_spec m 0) as [->|Hm].
      * simpl. rewrite <- app_assoc. reflexivity.
      * rewrite (bool_decide_eq_false_2 _ Hm). simpl.
        destruct (Z.ltb_spec (Z.of_nat (length instances)) m) as [Hlt|Hge].
        -- rewrite <- app_assoc, length_app. simpl.
           replace (Z.to_nat m - length instances)%nat
             with (S (Z.to_nat m - (length instances + 1)))%nat by lia.
           reflexivity.
        -- replace (Z.to_nat m - length instances)%nat with O by lia. reflexivity.
    + rewrite (bool_decide_eq_false_2 _ E). reflexivity.
Qed.

(** X18.  Of the live objects it visits, [GetInstances] collects the instances of
    the class in the order of the visit: all of them when [max_count] is 0,
    the first [max_count] of them when it is positive.  A negative
    [max_count] is read as a count above 2^31, and so is no limit. *)
Theorem GetInstances_Visit_collects_first_instances GetClass c max_count visited :
  INT_MIN <= max_count <= INT_MAX ->
  let all := List.filter (fun o => bool_decide (GetClass o = c)) visited in
  let instances := GetInstances_Visit GetClass c max_count visited [] in
  (max_count = 0 -> instances = all)
  /\ (0 < max_count ->
      instances = take (Z.to_nat max_count) all
      /\ Z.of_nat (length instances) <= max_count)
  /\ (max_count < 0 -> Z.of_nat (length visited) < 2 ^ 31 -> instances = all).
Proof using Type.
  intros Hm all instances. unfold INT_MIN, INT_MAX in Hm.
  unfold instances, GetInstances_Visit. rewrite GetInstances_Visit_fold. fold all.
  simpl. rewrite Nat.sub_0_r. unfold to_uint32_t.
  split; [|split].
  - intros ->. reflexivity.
  - intros Hpos. rewrite Z.mod_small by lia.
    destruct (Z.eqb_spec max_count 0); [lia|].
    split; [reflexivity|]. rewrite length_take. lia.
  - intros Hneg Hlen.
    replace max_count with (max_count + 2 ^ 32 + (-1) * 2 ^ 32) by lia.
    rewrite Z.mod_add by lia. rewrite Z.mod_small by lia.
    destruct (Z.eqb_spec (max_count + 2 ^ 32) 0); [lia|].
    apply take_ge.
    assert (length all <= length visited)%nat by apply List.filter_length_le.
    lia.
Qed.

Lemma InstanceCounter_length GetClass IsAssignableFrom classes use_is_assignable_from o
    counts :
  (length classes <= length counts)%nat ->
  length (InstanceCounter GetClass IsAssignableFrom classes use_is_assignable_from o counts)
  = length counts.
Proof using Type.
  intros Hlen. unfold InstanceCounter.
  rewrite length_app, length_zip_with, length_drop. lia.
Qed.

Lemma InstanceCounter_lookup GetClass IsAssignableFrom classes use_is_assignable_from o
    counts i count :
  counts !! i = Some count ->
  InstanceCounter GetClass IsAssignableFrom classes use_is_assignable_from o counts !! i
  = Some match classes !! i with
         | Some class_ =>
             if counts_instance GetClass IsAssignableFrom use_is_assignable_from o class_
             then to_uint64_t (count + 1) else count
         | None => count
         end.
Proof using Type.
  intros Hc. unfold InstanceCounter.
  pose proof (lookup_lt_Some _ _ _ Hc) as Hi.
  destruct (classes !! i) as [class_|] eqn:Ec.
  - pose proof (lookup_lt_Some _ _ _ Ec) as Hic.
    rewrite lookup_app_l by (rewrite length_zip_with; lia).
    rewrite lookup_zip_with, Ec, Hc. reflexivity.
  - apply lookup_ge_None in Ec.
    rewrite lookup_app_r by (rewrite length_zip_with; lia).
    rewrite length_zip_with, lookup_drop.
    replace (length classes + (i - length classes `min` length counts))%nat with i by lia.
    exact Hc.
Qed.

(** X19.  [CountInstances] adds to the count of each class the number of visited
    objects that count as its instances (those of exactly that class, or, if
    asked, those whose class can be assigned to it), in [uint64_t]
    arithmetic, and leaves the entries of [counts] past the classes as they
    are. *)
Theorem CountInstances_Visit_counts_instances
    GetClass IsAssignableFrom classes use_is_assignable_from visited counts i count :
  counts !! i = Some count ->
  0 <= count < 2 ^ 64 ->
  CountInstances_Visit GetClass IsAssignableFrom classes use_is_assignable_from visited
    counts !! i
  = Some match classes !! i with
         | Some class_ =>
             to_uint64_t
               (count
                + Z.of_nat
                    (length
                       (List.filter
                          (fun o =>
                             counts_instance GetClass IsAssignableFrom
                               use_is_assignable_from o class_)
                          visited)))
         | None => count
         end.
Proof using Type.
  unfold CountInstances_Visit. revert counts count.
  induction visited as [|o visited IH]; intros counts count Hc Hr; simpl.
  - rewrite Hc. f_equal. destruct (classes !! i); [|reflexivity].
    unfold to_uint64_t. rewrite Z.add_0_r, Z.mod_small by lia. reflexivity.
  - pose proof (InstanceCounter_lookup GetClass IsAssignableFrom classes
                  use_is_assignable_from o counts i count Hc) as Hstep.
    destruct (classes !! i) as [class_|] eqn:Ec.
    + rewrite (IH _ _ Hstep).
      * f_equal.
        destruct (counts_instance GetClass IsAssignableFrom use_is_assignable_from o class_);
          [|reflexivity].
        simpl length. unfold to_uint64_t.
        rewrite Zplus_mod_idemp_l. f_equal. lia.
      * destruct (counts_instance _ _ _ _ _); [|exact Hr].
        unfold to_uint64_t. apply Z.mod_pos_bound. lia.
    + rewrite (IH _ _ Hstep Hr). reflexivity.
Qed.

(** ** The allocation stack *)

(** X20.  [MarkAllocStack] sets each object of the stack in the first of the two
    bitmaps that covers its address, or among the large objects when neither
    does; it sets nothing else and clears nothing. *)
Theorem MarkAllocStack_marks_each_object_once
    HasAddress1 HasAddress2 bitmap1 bitmap2 large_objects stack :
  let '(bitmap1', bitmap2', large_objects') :=
    MarkAllocStack HasAddress1 HasAddress2 bitmap1 bitmap2 large_objects stack in
  forall obj,
    (obj ∈ bitmap1' <-> obj ∈ bitmap1 \/ (In obj stack /\ HasAddress1 obj = true))
    /\ (obj ∈ bitmap2'
        <-> obj ∈ bitmap2
            \/ (In obj stack /\ HasAddress1 obj = false /\ HasAddress2 obj = true))
    /\ (obj ∈ large_objects'
        <-> obj ∈ large_objects
            \/ (In obj stack /\ HasAddress1 obj = false /\ HasAddress2 obj = false)).
Proof using Type.
  clear kMovingCollector kUseRosAlloc DivideByTargetHeapUtilization
    EstimateRemainingBytes Run TryToAllocate GcType_gt.
  unfold MarkAllocStack. revert bitmap1 bitmap2 large_objects.
  induction stack as [|o stack IH]; intros bitmap1 bitmap2 large_objects; simpl.
  - intros obj. tauto.
  - destruct (HasAddress1 o) eqn:E1; [|destruct (HasAddress2 o) eqn:E2].
    + specialize (IH ({[o]} ∪ bitmap1) bitmap2 large_objects).
      destruct (foldl _ _ stack) as [[b1 b2] lo]. intros obj.
      destruct (IH obj) as (H1 & H2 & H3). rewrite H1, H2, H3.
      rewrite elem_of_union, elem_of_singleton.
      repeat split; intros; intuition (subst; (congruence || auto)).
    + specialize (IH bitmap1 ({[o]} ∪ bitmap2) large_objects).
      destruct (foldl _ _ stack) as [[b1 b2] lo]. intros obj.
      destruct (IH obj) as (H1 & H2 & H3). rewrite H1, H2, H3.
      rewrite elem_of_union, elem_of_singleton.
      repeat split; intros; intuition (subst; (congruence || auto)).
    + specialize (IH bitmap1 bitmap2 ({[o]} ∪ large_objects)).
      destruct (foldl _ _ stack) as [[b1 b2] lo]. intros obj.
      destruct (IH obj) as (H1 & H2 & H3). rewrite H1, H2, H3.
      rewrite elem_of_union, elem_of_singleton.
      repeat split; intros; intuition (subst; (congruence || auto)).
Qed.

(** ** Thread flags, suspension and checkpoints *)

Ltac bitwise :=
  let i := fresh "i" in
  let Hi := fresh "Hi" in
  apply Z.bits_inj'; intros i Hi;
  repeat first
    [ rewrite Z.land_spec | rewrite Z.lor_spec | rewrite Z.lxor_spec
    | rewrite Z.ldiff_spec | rewrite Z.lnot_spec by lia
    | rewrite Z.bits_m1 by lia | rewrite Z.bits_0 ];
  repeat match goal with
         | |- context [Z.testbit ?x i] => destruct (Z.testbit x i)
         end;
  reflexivity.

Lemma AtomicSetFlag_flag flag t :
  Z.land (state_and_flags_ (AtomicSetFlag flag t)) flag = flag
  /\ Z.land (state_and_flags_ (AtomicSetFlag flag t)) (Z.lnot flag)
     = Z.land (state_and_flags_ t) (Z.lnot flag).
Proof. simpl. split; bitwise. Qed.

Lemma AtomicClearFlag_flag flag t :
  Z.land (state_and_flags_ (AtomicClearFlag flag t)) flag = 0
  /\ Z.land (state_and_flags_ (AtomicClearFlag flag t)) (Z.lnot flag)
     = Z.land (state_and_flags_ t) (Z.lnot flag).
Proof. simpl. split; bitwise. Qed.

(** X21.  [ModifySuspendCount] keeps the suspend-request flag in step with the
    count: after it returns the flag is set exactly when the count is not
    zero, and no other bit of [state_and_flags_], in particular not the thread
    state, has changed.  A decrement of a count that is not positive is fatal,
    and is the only way for the method to fail. *)
Theorem ModifySuspendCount_keeps_flag_in_step kSuspendRequest delta for_debugger t :
  INT_MIN <= suspend_count_ t + delta <= INT_MAX ->
  match ModifySuspendCount kSuspendRequest delta for_debugger t with
  | None => delta < 0 /\ suspend_count_ t <= 0
  | Some t' =>
      ~ (delta < 0 /\ suspend_count_ t <= 0)
      /\ suspend_count_ t' = suspend_count_ t + delta
      /\ Z.land (state_and_flags_ t') kSuspendRequest
         = (if suspend_count_ t' =? 0 then 0 else kSuspendRequest)
      /\ Z.land (state_and_flags_ t') (Z.lnot kSuspendRequest)
         = Z.land (state_and_flags_ t) (Z.lnot kSuspendRequest)
      /\ checkpoint_functions_ t' = checkpoint_functions_ t
  end.
Proof using Type.
  intros Hrange. unfold ModifySuspendCount.
  destruct (Z.ltb_spec delta 0); destruct (Z.leb_spec (suspend_count_ t) 0); simpl;
    try (split; lia).
  all: rewrite (to_int_small (suspend_count_ t + delta)) by assumption.
  all: split; [lia|].
  all: destruct for_debugger; simpl.
  all: destruct (suspend_count_ t + delta =? 0) eqn:E; simpl.
  all: rewrite ?E.
  all: split; [reflexivity|].
  all: split; [bitwise|].
  all: split; [bitwise|reflexivity].
Qed.

(** X22.  A request to suspend followed by the resumption that matches it leaves
    the thread as it was, if its flag was in step with its count; in between,
    the suspend request is raised. *)
Theorem ModifySuspendCount_resume_undoes_suspend kSuspendRequest t :
  0 <= suspend_count_ t < INT_MAX ->
  Z.land (state_and_flags_ t) kSuspendRequest
  = (if suspend_count_ t =? 0 then 0 else kSuspendRequest) ->
  exists suspended,
    ModifySuspendCount kSuspendRequest 1 false t = Some suspended
    /\ suspend_count_ suspended = suspend_count_ t + 1
    /\ Z.land (state_and_flags_ suspended) kSuspendRequest = kSuspendRequest
    /\ ModifySuspendCount kSuspendRequest (-1) false suspended = Some t.
Proof using Type.
  unfold INT_MAX. intros Hc Hflag. unfold ModifySuspendCount. simpl.
  rewrite to_int_small by (unfold INT_MIN, INT_MAX; lia).
  destruct (Z.eqb_spec (suspend_count_ t + 1) 0) as [E|E]; [lia|].
  eexists. split; [reflexivity|]. simpl. split; [reflexivity|]. split; [bitwise|].
  destruct (Z.leb_spec (suspend_count_ t + 1) 0); [lia|]. simpl.
  rewrite to_int_small by (unfold INT_MIN, INT_MAX; lia).
  replace (suspend_count_ t + 1 + -1) with (suspend_count_ t) by lia.
  f_equal. destruct t as [saf sc dsc cf]. simpl in *. unfold AtomicClearFlag, AtomicSetFlag,
    set_state_and_flags_. simpl.
  destruct (Z.eqb_spec sc 0) as [Hz|Hz]; simpl; f_equal.
  - apply Z.bits_inj'. intros i Hi.
    assert (Hbit : Z.testbit (Z.land saf kSuspendRequest) i = false)
      by (rewrite Hflag; apply Z.bits_0).
    rewrite Z.land_spec in Hbit.
    rewrite Z.land_spec, Z.lxor_spec, Z.lor_spec, Z.bits_m1 by lia.
    destruct (Z.testbit saf i), (Z.testbit kSuspendRequest i); simpl in *; congruence.
  - apply Z.bits_inj'. intros i Hi.
    assert (Hbit : Z.testbit (Z.land saf kSuspendRequest) i = Z.testbit kSuspendRequest i)
      by (rewrite Hflag; reflexivity).
    rewrite Z.land_spec in Hbit.
    rewrite !Z.lor_spec.
    destruct (Z.testbit saf i), (Z.testbit kSuspendRequest i); simpl in *; congruence.
Qed.

Lemma available_checkpoint_Some checkpoint_functions i :
  available_checkpoint checkpoint_functions = Some i ->
  checkpoint_functions !! i = Some 0
  /\ Forall (fun function => function <> 0) (take i checkpoint_functions).
Proof using Type.
  revert i. induction checkpoint_functions as [|f functions IH]; intros i H; simpl in H;
    [discriminate|].
  destruct (decide (f = 0)) as [->|Hf].
  - injection H as <-. split; [reflexivity|constructor].
  - destruct (available_checkpoint functions) as [j|]; [|discriminate].
    injection H as <-. destruct (IH j eq_refl) as (Hj & Hbefore).
    split; [exact Hj|]. simpl. constructor; assumption.
Qed.

Lemma available_checkpoint_None checkpoint_functions :
  available_checkpoint checkpoint_functions = None
  <-> Forall (fun function => function <> 0) checkpoint_functions.
Proof using Type.
  induction checkpoint_functions as [|f functions IH]; simpl.
  - split; [constructor|reflexivity].
  - destruct (decide (f = 0)) as [->|Hf].
    + split; [discriminate|]. intros H. apply Forall_cons in H as (H & _). congruence.
    + destruct (available_checkpoint functions).
      * split; [discriminate|]. intros H. apply Forall_cons in H as (_ & H).
        apply IH in H. discriminate.
      * split; [|reflexivity]. intros _. constructor; [exact Hf|]. apply IH. reflexivity.
Qed.

Lemma with_as_struct_flags_state flags as_int :
  as_struct_state (with_as_struct_flags flags as_int) = as_struct_state as_int.
Proof using Type.
  unfold as_struct_state, with_as_struct_flags. apply Z.bits_inj'. intros i Hi.
  rewrite !Z.land_spec, !Z.shiftr_spec, Z.lor_spec, Z.ldiff_spec, Z.land_spec by lia.
  rewrite (Z.ones_spec_high 16 (i + 16)) by lia.
  rewrite andb_false_r, orb_false_r, andb_true_r. reflexivity.
Qed.

Lemma with_as_struct_flags_flags flags as_int :
  as_struct_flags (with_as_struct_flags flags as_int) = as_struct_flags flags.
Proof using Type.
  unfold as_struct_flags, with_as_struct_flags. apply Z.bits_inj'. intros i Hi.
  rewrite !Z.land_spec, Z.lor_spec, Z.ldiff_spec, Z.land_spec.
  destruct (Z.testbit (Z.ones 16) i), (Z.testbit as_int i), (Z.testbit flags i);
    reflexivity.
Qed.

Lemma as_struct_flags_lor flags flag :
  as_struct_flags (Z.lor (as_struct_flags flags) flag)
  = Z.lor (as_struct_flags flags) (as_struct_flags flag).
Proof. unfold as_struct_flags. bitwise. Qed.

(** X23.  [RequestCheckpoint] refuses, and changes nothing, when the thread is not
    runnable or when all its checkpoint slots are taken.  Otherwise the
    closure goes to the first free slot and, unless the thread's state or
    flags changed meanwhile, the checkpoint flag is raised with the state and
    the other flags as they were: the request succeeds if the flag then reads
    as set, and aborts the runtime if it does not.  When the state or the
    flags did change, the slot is freed again and the request fails. *)
Theorem RequestCheckpoint_installs_or_refuses
    kCheckpointRequest kRunnable ReadFlag function racing t :
  let old_state_and_flags := state_and_flags_ t in
  let result := RequestCheckpoint kCheckpointRequest kRunnable ReadFlag function racing t in
  (as_struct_state old_state_and_flags <> kRunnable -> result = Some (false, t))
  /\ (Forall (fun function => function <> 0) (checkpoint_functions_ t) ->
      result = Some (false, t))
  /\ (as_struct_state old_state_and_flags = kRunnable ->
      forall i,
        available_checkpoint (checkpoint_functions_ t) = Some i ->
        (default old_state_and_flags racing = old_state_and_flags ->
         exists requested,
           result
           = (if ReadFlag kCheckpointRequest requested then Some (true, requested)
              else None)
           /\ checkpoint_functions_ requested
              = <[i := function]> (checkpoint_functions_ t)
           /\ checkpoint_functions_ requested !! i = Some function
           /\ as_struct_state (state_and_flags_ requested) = kRunnable
           /\ as_struct_flags (state_and_flags_ requested)
              = Z.lor (as_struct_flags old_state_and_flags)
                      (as_struct_flags kCheckpointRequest)
           /\ suspend_count_ requested = suspend_count_ t)
        /\ (default old_state_and_flags racing <> old_state_and_flags ->
            exists refused,
              result = Some (false, refused)
              /\ checkpoint_functions_ refused = checkpoint_functions_ t
              /\ state_and_flags_ refused = default old_state_and_flags racing)).
Proof using Type.
  intros old_state_and_flags result. unfold result, RequestCheckpoint.
  fold old_state_and_flags.
  split; [|split].
  - intros Hs. destruct (decide (as_struct_state old_state_and_flags <> kRunnable));
      [reflexivity|contradiction].
  - intros Hfull. apply available_checkpoint_None in Hfull. rewrite Hfull.
    destruct (decide (as_struct_state old_state_and_flags <> kRunnable)); reflexivity.
  - intros Hs i Hi.
    destruct (decide (as_struct_state old_state_and_flags <> kRunnable)); [contradiction|].
    rewrite Hi. apply available_checkpoint_Some in Hi as (Hslot & _).
    pose proof (lookup_lt_Some _ _ _ Hslot) as Hlt.
    split.
    + intros Hcas.
      destruct (decide (default old_state_and_flags racing = old_state_and_flags));
        [|contradiction].
      eexists. split; [reflexivity|].
      cbn [fst snd set_state_and_flags_ set_checkpoint_functions_ state_and_flags_
             checkpoint_functions_ suspend_count_].
      split; [reflexivity|].
      split; [apply list_lookup_insert_eq; exact Hlt|].
      split; [rewrite with_as_struct_flags_state; exact Hs|].
      split; [|reflexivity].
      rewrite with_as_struct_flags_flags. apply as_struct_flags_lor.
    + intros Hcas.
      destruct (decide (default old_state_and_flags racing = old_state_and_flags));
        [contradiction|].
      cbn [fst snd set_state_and_flags_ set_checkpoint_functions_ state_and_flags_
             checkpoint_functions_ suspend_count_].
      rewrite list_lookup_insert_eq by exact Hlt.
      destruct (decide (Some function = Some function)); [|contradiction].
      eexists. split; [reflexivity|].
      cbn [fst snd set_state_and_flags_ set_checkpoint_functions_ state_and_flags_
             checkpoint_functions_ suspend_count_].
      split; [|reflexivity].
      rewrite list_insert_insert_eq. apply list_insert_id. exact Hslot.
Qed.

(** X24.  [RunCheckpointFunction] runs every closure that is installed, in the order
    of the slots, and leaves all slots free and the checkpoint flag down; it
    aborts the runtime when no closure is installed.  So a checkpoint that
    [RequestCheckpoint] installed is run by the next [RunCheckpointFunction],
    and a second run without a new request aborts. *)
Theorem RunCheckpointFunction_runs_what_was_requested
    kCheckpointRequest kRunnable ReadFlag function t requested :
  function <> 0 ->
  RequestCheckpoint kCheckpointRequest kRunnable ReadFlag function None t
  = Some (true, requested) ->
  exists run t',
    RunCheckpointFunction kCheckpointRequest requested = Some (run, t')
    /\ In function run
    /\ run = List.filter (fun function => negb (function =? 0))
               (checkpoint_functions_ requested)
    /\ Forall (fun function => function = 0) (checkpoint_functions_ t')
    /\ length (checkpoint_functions_ t') = length (checkpoint_functions_ t)
    /\ Z.land (state_and_flags_ t') kCheckpointRequest = 0
    /\ RunCheckpointFunction kCheckpointRequest t' = None.
Proof using Type.
  intros Hf H. unfold RequestCheckpoint in H.
  destruct (decide (as_struct_state (state_and_flags_ t) <> kRunnable)); [discriminate|].
  destruct (available_checkpoint (checkpoint_functions_ t)) as [i|] eqn:Hi; [|discriminate].
  simpl in H. destruct (decide (state_and_flags_ t = state_and_flags_ t)); [|contradiction].
  destruct (ReadFlag kCheckpointRequest _); [|discriminate].
  injection H as <-.
  apply available_checkpoint_Some in Hi as (Hslot & _).
  pose proof (lookup_lt_Some _ _ _ Hslot) as Hlt.
  unfold RunCheckpointFunction. simpl.
  set (slots := <[i := function]> (checkpoint_functions_ t)).
  assert (Hin : In function (List.filter (fun function => negb (function =? 0)) slots)).
  { apply List.filter_In. split.
    - apply list_elem_of_In, list_elem_of_lookup. exists i.
      apply list_lookup_insert_eq. exact Hlt.
    - destruct (Z.eqb_spec function 0); [contradiction|reflexivity]. }
  destruct (List.filter _ slots) as [|first run] eqn:Erun; [destruct Hin|].
  eexists _, _. split; [reflexivity|]. split; [exact Hin|]. split; [reflexivity|].
  simpl.
  assert (Hzero : forall l : list Z, Forall (fun function => function = 0) ((fun _ => 0) <$> l)).
  { intros l. induction l; constructor; auto. }
  split; [apply Hzero|].
  split; [rewrite length_fmap; apply length_insert|].
  split; [bitwise|].
  assert (Hnone : forall l : list Z,
    Forall (fun function => function = 0) l ->
    List.filter (fun function => negb (function =? 0)) l = []).
  { intros l Hl. induction Hl as [|x l -> _ IH]; [reflexivity|]. simpl. exact IH. }
  rewrite Hnone; [reflexivity|apply Hzero].
Qed.

(** ** Collector transitions on an idle heap *)

Lemma busy_wait_StartGC_started patience is_compacting w w' :
  StartGC is_compacting w = Returns true w' ->
  busy_wait_StartGC patience is_compacting w = Returns tt w'.
Proof using Type.
  intros E. destruct patience; simpl; cbv beta iota delta [bind]; rewrite E; reflexivity.
Qed.

Lemma Compact_runs w :
  kMovingCollector = true ->
  exists now bytes_allocated,
    Compact w
    = Returns tt
        (emit (CollectorRun SemiSpace kGcCauseCollectorTransition false)
           (with_now now (with_heap (set_num_bytes_allocated_ bytes_allocated (w_heap w)) w))).
Proof using Type.
  intros Hm. unfold Compact. cbv beta iota delta [bind CHECK]. rewrite Hm.
  destruct (run_collector_Returns SemiSpace kGcCauseCollectorTransition false w)
    as (result & bytes & ->).
  eexists _, _. reflexivity.
Qed.

Lemma TransitionCollector_finish_configures collector_type start_time w :
  collector_type <> collector_type_ (w_heap w) ->
  collector_type <> kCollectorTypeNone ->
  exists w',
    TransitionCollector_finish collector_type start_time w = Returns tt w'
    /\ (collector_type_ (w_heap w'), concurrent_gc_ (w_heap w'), gc_plan_ (w_heap w'),
        current_allocator_ (w_heap w'))
       = (collector_type,
          (collector_configuration collector_type (use_tlab_ (w_heap w))).1.1,
          (collector_configuration collector_type (use_tlab_ (w_heap w))).1.2,
          (collector_configuration collector_type (use_tlab_ (w_heap w))).2)
    /\ main_space_ (w_heap w') = main_space_ (w_heap w)
    /\ allocator_mem_map_ (w_heap w') = allocator_mem_map_ (w_heap w)
    /\ is_gc_running_ (w_heap w') = false
    /\ disable_moving_gc_count_ (w_heap w') = disable_moving_gc_count_ (w_heap w)
    /\ use_tlab_ (w_heap w') = use_tlab_ (w_heap w)
    /\ background_collector_type_ (w_heap w') = background_collector_type_ (w_heap w)
    /\ post_zygote_collector_type_ (w_heap w') = post_zygote_collector_type_ (w_heap w)
    /\ w_others w' = w_others w
    /\ w_log w' = w_log w.
Proof using Type.
  intros Hne Hnone. unfold TransitionCollector_finish. cbv beta iota delta [bind get_heap].
  destruct (ChangeCollector_configuration collector_type (w_heap w) Hne Hnone)
    as (start & -> & _).
  cbv beta iota delta [bind modify_heap NanoTime]. eexists. split; [reflexivity|].
  simpl.
  match goal with
  | |- context [GrowForUtilization ?n ?t ?d ?h] =>
      destruct (GrowForUtilization_frame n t d h) as (? & ? & ? & ? & ? & ? & ->)
  end.
  simpl. repeat split; reflexivity.
Qed.

Lemma TransitionCollector_idle collector_type w :
  collector_type <> collector_type_ (w_heap w) ->
  collector_type <> kCollectorTypeNone ->
  is_gc_running_ (w_heap w) = false ->
  (copying_transition (w_heap w) = true -> disable_moving_gc_count_ (w_heap w) = 0) ->
  kMovingCollector = true ->
  (IsCompactingGC collector_type = true -> main_space_ (w_heap w) <> None) ->
  (IsCompactingGC collector_type = false ->
   IsCompactingGC (collector_type_ (w_heap w)) = true ->
   allocator_mem_map_ (w_heap w) <> None /\ main_space_ (w_heap w) = None) ->
  exists w',
    TransitionCollector collector_type w = Returns tt w'
    /\ heap_configuration (w_heap w')
       = (collector_type,
          (collector_configuration collector_type (use_tlab_ (w_heap w))).1.1,
          (collector_configuration collector_type (use_tlab_ (w_heap w))).1.2,
          (collector_configuration collector_type (use_tlab_ (w_heap w))).2,
          (transitioned_spaces collector_type (w_heap w)).1,
          (transitioned_spaces collector_type (w_heap w)).2)
    /\ is_gc_running_ (w_heap w') = false
    /\ disable_moving_gc_count_ (w_heap w') = disable_moving_gc_count_ (w_heap w)
    /\ use_tlab_ (w_heap w') = use_tlab_ (w_heap w)
    /\ background_collector_type_ (w_heap w') = background_collector_type_ (w_heap w)
    /\ post_zygote_collector_type_ (w_heap w') = post_zygote_collector_type_ (w_heap w)
    /\ w_others w' = w_others w
    /\ w_log w'
       = w_log w
         ++ (if IsCompactingGC collector_type || IsCompactingGC (collector_type_ (w_heap w))
             then [CollectorRun SemiSpace kGcCauseCollectorTransition false] else []).
Proof using Type.
  intros Hne Hnone Hr Hpin Hm Hmain Hmap.
  unfold TransitionCollector. cbv beta iota delta [bind get_heap NanoTime].
  destruct (decide (collector_type = collector_type_ (w_heap w))); [contradiction|].
  rewrite (busy_wait_StartGC_started _ _ _ _ (StartGC_starts _ (clock_read w) Hr Hpin)).
  set (w1 := with_heap _ (after_idle_wait (clock_read w))).
  assert (Hspaces : exists w2,
    TransitionCollector_spaces collector_type w1 = Returns tt w2
    /\ collector_type_ (w_heap w2) = collector_type_ (w_heap w)
    /\ main_space_ (w_heap w2) = (transitioned_spaces collector_type (w_heap w)).1
    /\ allocator_mem_map_ (w_heap w2) = (transitioned_spaces collector_type (w_heap w)).2
    /\ is_gc_running_ (w_heap w2) = true
    /\ disable_moving_gc_count_ (w_heap w2) = disable_moving_gc_count_ (w_heap w)
    /\ use_tlab_ (w_heap w2) = use_tlab_ (w_heap w)
    /\ background_collector_type_ (w_heap w2) = background_collector_type_ (w_heap w)
    /\ post_zygote_collector_type_ (w_heap w2) = post_zygote_collector_type_ (w_heap w)
    /\ w_others w2 = w_others w
    /\ w_log w2
       = w_log w
         ++ (if IsCompactingGC collector_type || IsCompactingGC (collector_type_ (w_heap w))
             then [CollectorRun SemiSpace kGcCauseCollectorTransition false] else [])).
  { unfold transitioned_spaces.
    destruct (IsCompactingGC collector_type) eqn:Hc.
    - assert (Hms : bool_decide (main_space_ (w_heap w1) <> None) = true)
        by (apply bool_decide_eq_true; apply Hmain; reflexivity).
      destruct (Compact_runs w1 Hm) as (now & bytes & Ec).
      assert (Hrun : (h <- get_heap ;;
                      CHECK (bool_decide (main_space_ h <> None)) ;;
                      Compact ;;
                      modify_heap
                        (fun h => set_main_space_ None
                                    (set_allocator_mem_map_ (Some AllocSpaceMemMap) h))) w1
                     = Returns tt
                         (with_heap
                            (set_main_space_ None
                               (set_allocator_mem_map_ (Some AllocSpaceMemMap)
                                  (set_num_bytes_allocated_ bytes (w_heap w1))))
                            (emit (CollectorRun SemiSpace kGcCauseCollectorTransition false)
                               (with_now now w1)))).
      { cbv beta iota delta [bind get_heap CHECK]. rewrite Hms, Ec. reflexivity. }
      eexists. split.
      { destruct collector_type; try discriminate Hc; exact Hrun. }
      simpl. repeat split; reflexivity.
    - destruct (IsCompactingGC (collector_type_ (w_heap w))) eqn:Hc0.
      + destruct (Hmap eq_refl eq_refl) as (Hmm & Hmn).
        destruct (Compact_runs
                    (with_heap
                       (set_main_space_
                          (Some (if kUseRosAlloc then RosAllocSpace else DlMallocSpace))
                          (set_allocator_mem_map_ None (w_heap w1))) w1) Hm)
          as (now & bytes & Ec).
        assert (Hrun : (h <- get_heap ;;
                        if IsCompactingGC (collector_type_ h) then
                          let mem_map := allocator_mem_map_ h in
                          modify_heap (set_allocator_mem_map_ None) ;;
                          CHECK (bool_decide (mem_map <> None)) ;;
                          CHECK (bool_decide (main_space_ h = None)) ;;
                          modify_heap
                            (set_main_space_
                               (Some (if kUseRosAlloc then RosAllocSpace
                                      else DlMallocSpace))) ;;
                          Compact
                        else ret tt) w1
                       = Returns tt
                           (emit (CollectorRun SemiSpace kGcCauseCollectorTransition false)
                              (with_now now
                                 (with_heap
                                    (set_num_bytes_allocated_ bytes
                                       (set_main_space_
                                          (Some (if kUseRosAlloc then RosAllocSpace
                                                 else DlMallocSpace))
                                          (set_allocator_mem_map_ None (w_heap w1))))
                                    w1)))).
        { cbv beta iota delta [bind get_heap CHECK modify_heap].
          change (collector_type_ (w_heap w1)) with (collector_type_ (w_heap w)).
          rewrite Hc0. cbv beta iota zeta.
          change (allocator_mem_map_ (w_heap w1)) with (allocator_mem_map_ (w_heap w)).
          rewrite (bool_decide_eq_true_2 _ Hmm).
          change (main_space_ (w_heap (with_heap (set_allocator_mem_map_ None (w_heap w1)) w1)))
            with (main_space_ (w_heap w)).
          rewrite (bool_decide_eq_true_2 _ Hmn). exact Ec. }
        eexists. split.
        { destruct collector_type; try discriminate Hc; try contradiction; exact Hrun. }
        simpl. repeat split; reflexivity.
      + assert (Hrun : (h <- get_heap ;;
                        if IsCompactingGC (collector_type_ h) then
                          let mem_map := allocator_mem_map_ h in
                          modify_heap (set_allocator_mem_map_ None) ;;
                          CHECK (bool_decide (mem_map <> None)) ;;
                          CHECK (bool_decide (main_space_ h = None)) ;;
                          modify_heap
                            (set_main_space_
                               (Some (if kUseRosAlloc then RosAllocSpace
                                      else DlMallocSpace))) ;;
                          Compact
                        else ret tt) w1
                       = Returns tt w1).
        { cbv beta iota delta [bind get_heap].
          change (collector_type_ (w_heap w1)) with (collector_type_ (w_heap w)).
          rewrite Hc0. reflexivity. }
        exists w1. split.
        { destruct collector_type; try discriminate Hc; try contradiction; exact Hrun. }
        simpl. rewrite app_nil_r. repeat split; reflexivity. }
  destruct Hspaces as (w2 & -> & Hct & Hms & Hmm & _ & Hd & Ht & Hb & Hp & Ho & Hl).
  destruct (TransitionCollector_finish_configures collector_type (w_now (clock_read w)) w2)
    as (w' & E & Hcfg & Hms' & Hmm' & Hr' & Hd' & Ht' & Hb' & Hp' & Ho' & Hl');
    [rewrite Hct; assumption|assumption|].
  exists w'. split; [exact E|].
  injection Hcfg as Hc1 Hc2 Hc3 Hc4.
  unfold heap_configuration.
  rewrite Hc1, Hc2, Hc3, Hc4, Hms', Hmm', Hms, Hmm, Ht.
  repeat split; congruence.
Qed.

(** ** Transitions while objects are pinned *)




(** ** Process state *)

(** C5, as amended.  When the process state changes, the heap moves to
    [post_zygote_collector_type_] (new state jank-perceptible) or to
    [background_collector_type_] (otherwise).  If it already uses that
    collector, nothing but the process state changes and no collection is
    run.  If it does not, the call returns only with the heap under that
    collector, and on an idle heap, with nothing pinned and the spaces the
    transition checks for, it does return, having run the semi-space collector
    once if one of the two collectors is compacting.  When the process state is
    the one already recorded, no transition is made: a full collection with
    cause background is requested, which is skipped with a warning or runs one
    full collector when the call returns, and on an idle heap under a
    collector that does not compact it does run one and return. *)
Theorem UpdateProcessState_transitions_or_collects process_state w :
  let target :=
    if decide (process_state = kProcessStateJankPerceptible)
    then post_zygote_collector_type_ (w_heap w)
    else background_collector_type_ (w_heap w) in
  (process_state_ (w_heap w) <> process_state ->
   (collector_type_ (w_heap w) = target ->
    UpdateProcessState process_state w
    = Returns tt (with_heap (set_process_state_ process_state (w_heap w)) w))
   /\ (collector_type_ (w_heap w) <> target ->
       (forall w',
          UpdateProcessState process_state w = Returns tt w' ->
          collector_type_ (w_heap w') = target
          /\ process_state_ (w_heap w') = process_state)
       /\ (target <> kCollectorTypeNone ->
           is_gc_running_ (w_heap w) = false ->
           (copying_transition (w_heap w) = true ->
            disable_moving_gc_count_ (w_heap w) = 0) ->
           kMovingCollector = true ->
           (IsCompactingGC target = true -> main_space_ (w_heap w) <> None) ->
           (IsCompactingGC target = false ->
            IsCompactingGC (collector_type_ (w_heap w)) = true ->
            allocator_mem_map_ (w_heap w) <> None /\ main_space_ (w_heap w) = None) ->
           exists w',
             UpdateProcessState process_state w = Returns tt w'
             /\ collector_type_ (w_heap w') = target
             /\ process_state_ (w_heap w') = process_state
             /\ w_log w'
                = w_log w
                  ++ (if IsCompactingGC target
                         || IsCompactingGC (collector_type_ (w_heap w))
                      then [CollectorRun SemiSpace kGcCauseCollectorTransition false]
                      else []))))
  /\ (process_state_ (w_heap w) = process_state ->
      (forall w',
         UpdateProcessState process_state w = Returns tt w' ->
         process_state_ (w_heap w') = process_state
         /\ ((exists n, w_log w' = w_log w ++ [LogWarningSkippingGC n])
             \/ exists collector,
                  w_log w' = w_log w ++ [CollectorRun collector kGcCauseBackground false]
                  /\ (collector = SemiSpace \/ GetGcType collector = kGcTypeFull)))
      /\ (is_gc_running_ (w_heap w) = false ->
          IsCompactingGC (collector_type_ (w_heap w)) = false ->
          current_allocator_ (w_heap w) = kAllocatorTypeRosAlloc
          \/ current_allocator_ (w_heap w) = kAllocatorTypeDlMalloc ->
          exists collector w',
            UpdateProcessState process_state w = Returns tt w'
            /\ GetGcType collector = kGcTypeFull
            /\ w_log w' = w_log w ++ [CollectorRun collector kGcCauseBackground false]
            /\ process_state_ (w_heap w') = process_state)).
Proof using Type.
  intros target.
  assert (Hstep : process_state_ (w_heap w) <> process_state ->
    UpdateProcessState process_state w
    = TransitionCollector target
        (with_heap (set_process_state_ process_state (w_heap w)) w)).
  { intros Hchanged. unfold UpdateProcessState.
    cbv beta iota delta [bind get_heap modify_heap].
    destruct (decide (process_state_ (w_heap w) <> process_state)); [|contradiction].
    subst target. destruct (decide (process_state = kProcessStateJankPerceptible));
      reflexivity. }
  assert (Hreturns : forall w',
    TransitionCollector target
      (with_heap (set_process_state_ process_state (w_heap w)) w) = Returns tt w' ->
    collector_type_ (w_heap w) <> target ->
    collector_type_ (w_heap w') = target /\ process_state_ (w_heap w') = process_state).
  { intros w' Ht Hother.
    apply TransitionCollector_Returns in Ht
      as (w1 & Eb & Hct & _ & Hp & _); [|simpl; congruence].
    apply busy_wait_StartGC_process_state in Eb. simpl in Eb.
    split; [exact Hct | congruence]. }
  split.
  - intros Hchanged. rewrite (Hstep Hchanged). split.
    + intros Hsame. unfold TransitionCollector. cbv beta iota delta [bind get_heap]. simpl.
      destruct (decide (target = collector_type_ (w_heap w))); [reflexivity|].
      symmetry in Hsame. contradiction.
    + intros Hother. split.
      * intros w' H. apply Hreturns; assumption.
      * intros Hnone Hr Hpin Hm Hmain Hmap.
        destruct (TransitionCollector_idle target
                    (with_heap (set_process_state_ process_state (w_heap w)) w))
          as (w' & Et & _ & _ & _ & _ & _ & _ & _ & Hl); try assumption.
        { simpl. congruence. }
        exists w'. split; [exact Et|].
        destruct (Hreturns w' Et Hother) as (Hct & Hps).
        split; [exact Hct|]. split; [exact Hps|]. exact Hl.
  - intros Hsame.
    assert (Hcollect : UpdateProcessState process_state w
                       = (CollectGarbageInternal kGcTypeFull kGcCauseBackground false ;;
                          ret tt) w).
    { unfold UpdateProcessState. cbv beta iota delta [bind get_heap].
      destruct (decide (process_state_ (w_heap w) <> process_state)); [contradiction|].
      reflexivity. }
    rewrite Hcollect. cbv beta iota delta [bind ret].
    assert (Hevents : forall g w1,
      CollectGarbageInternal kGcTypeFull kGcCauseBackground false w = Returns g w1 ->
      process_state_ (w_heap w1) = process_state).
    { intros g w1 Ec. apply CollectGarbageInternal_Returns in Ec as (Hp & _). congruence. }
    split.
    + intros w' H.
      destruct (CollectGarbageInternal kGcTypeFull kGcCauseBackground false w)
        as [g w1| |] eqn:Ec; [|discriminate H..].
      injection H as <-. split; [eapply Hevents; reflexivity|].
      apply CollectGarbageInternal_Returns in Ec as (_ & _ & Hlog).
      destruct Hlog as [(_ & [Hw|Hw])|(collector & Hl & Hc)].
      * destruct Hw as (Hw & _). discriminate Hw.
      * left. exact Hw.
      * right. exists collector. split; [exact Hl|].
        destruct Hc as [(-> & _)|(Hc & _)]; auto.
    + intros Hr Hc Ha.
      destruct (CollectGarbageInternal_mark_sweep_idle kGcTypeFull kGcCauseBackground false
                  w Hr Hc Ha) as (collector & w' & Ec & Hg & _ & Hl & _);
        [discriminate|discriminate|].
      exists collector, w'. rewrite Ec. split; [reflexivity|].
      split; [exact Hg|]. split; [exact Hl|]. eapply Hevents. exact Ec.
Qed.

(** X25.  A collector transition requested on a heap with no collection in progress
    and nothing pinned does not wait: it returns with the heap configured for
    the new collector, compacts once, with the semi-space collector, exactly
    when the old or the new collector is a compacting one, and leaves no
    collection marked as running. *)
Theorem TransitionCollector_on_idle_heap collector_type w :
  collector_type <> collector_type_ (w_heap w) ->
  collector_type <> kCollectorTypeNone ->
  is_gc_running_ (w_heap w) = false ->
  disable_moving_gc_count_ (w_heap w) = 0 ->
  kMovingCollector = true ->
  (IsCompactingGC collector_type = true -> main_space_ (w_heap w) <> None) ->
  (IsCompactingGC collector_type = false ->
   IsCompactingGC (collector_type_ (w_heap w)) = true ->
   allocator_mem_map_ (w_heap w) <> None /\ main_space_ (w_heap w) = None) ->
  exists w',
    TransitionCollector collector_type w = Returns tt w'
    /\ collector_type_ (w_heap w') = collector_type
    /\ (concurrent_gc_ (w_heap w'), gc_plan_ (w_heap w'), current_allocator_ (w_heap w'))
       = collector_configuration collector_type (use_tlab_ (w_heap w))
    /\ (main_space_ (w_heap w'), allocator_mem_map_ (w_heap w'))
       = transitioned_spaces collector_type (w_heap w)
    /\ is_gc_running_ (w_heap w') = false
    /\ w_others w' = w_others w
    /\ w_log w'
       = w_log w
         ++ (if IsCompactingGC collector_type || IsCompactingGC (collector_type_ (w_heap w))
             then [CollectorRun SemiSpace kGcCauseCollectorTransition false] else []).
Proof using Type.
  intros Hne Hnone Hr Hd Hm Hmain Hmap.
  destruct (TransitionCollector_idle collector_type w)
    as (w' & E & Hcfg & Hr' & _ & _ & _ & _ & Ho & Hl); try assumption; [auto|].
  exists w'. split; [exact E|].
  unfold heap_configuration in Hcfg. injection Hcfg as -> -> -> -> -> ->.
  destruct (collector_configuration _ _) as [[? ?] ?].
  destruct (transitioned_spaces _ _) as [? ?].
  repeat split; assumption.
Qed.

(** X26.  From a mark-sweep configuration to a compacting collector and back: the
    first transition releases the main space to the memory map kept aside and
    switches to a bump-pointer allocator, the second creates the main space
    again, and the heap has the collector, the plan, the allocator and the
    spaces it started with. *)
Theorem TransitionCollector_there_and_back compacting w :
  let mark_sweep := collector_type_ (w_heap w) in
  kMovingCollector = true ->
  IsCompactingGC compacting = true ->
  IsCompactingGC mark_sweep = false ->
  mark_sweep <> kCollectorTypeNone ->
  (concurrent_gc_ (w_heap w), gc_plan_ (w_heap w), current_allocator_ (w_heap w))
  = collector_configuration mark_sweep (use_tlab_ (w_heap w)) ->
  main_space_ (w_heap w) = Some (if kUseRosAlloc then RosAllocSpace else DlMallocSpace) ->
  allocator_mem_map_ (w_heap w) = None ->
  is_gc_running_ (w_heap w) = false ->
  disable_moving_gc_count_ (w_heap w) = 0 ->
  exists w1 w2,
    TransitionCollector compacting w = Returns tt w1
    /\ heap_configuration (w_heap w1)
       = (compacting, false, [kGcTypeFull],
          if use_tlab_ (w_heap w) then kAllocatorTypeTLAB else kAllocatorTypeBumpPointer,
          None, Some AllocSpaceMemMap)
    /\ TransitionCollector mark_sweep w1 = Returns tt w2
    /\ heap_configuration (w_heap w2) = heap_configuration (w_heap w)
    /\ w_log w2
       = w_log w ++ [CollectorRun SemiSpace kGcCauseCollectorTransition false;
                     CollectorRun SemiSpace kGcCauseCollectorTransition false].
Proof using Type.
  intros mark_sweep Hm Hc Hms Hnone Hcfg Hmain Hmap Hr Hd.
  destruct (TransitionCollector_idle compacting w)
    as (w1 & E1 & Hcfg1 & Hr1 & Hd1 & Ht1 & Hb1 & Hp1 & Ho1 & Hl1); try assumption.
  { intros E. fold mark_sweep in E. rewrite E in Hc. congruence. }
  { intros ->. discriminate Hc. }
  { intros _. exact Hd. }
  { intros _. rewrite Hmain. discriminate. }
  { intros E. congruence. }
  unfold collector_configuration, transitioned_spaces in Hcfg1. rewrite Hc in Hcfg1.
  simpl in Hcfg1.
  pose proof Hcfg1 as Hfields. unfold heap_configuration in Hfields.
  injection Hfields as Hf1 Hf2 Hf3 Hf4 Hf5 Hf6.
  destruct (TransitionCollector_idle mark_sweep w1)
    as (w2 & E2 & Hcfg2 & Hr2 & _ & _ & _ & _ & _ & Hl2); try assumption.
  { rewrite Hf1. intros E. rewrite E in Hms. congruence. }
  { intros _. congruence. }
  { intros E. congruence. }
  { intros _ _. rewrite Hf5, Hf6. split; [discriminate|reflexivity]. }
  exists w1, w2. split; [exact E1|]. split; [exact Hcfg1|]. split; [exact E2|].
  split.
  - rewrite Hcfg2. unfold transitioned_spaces. rewrite Hms, Hf1, Hc, Ht1.
    unfold heap_configuration. fold mark_sweep.
    rewrite <- Hcfg, Hmain, Hmap. reflexivity.
  - rewrite Hl2, Hl1, Hf1, Hc, Hms. simpl. rewrite <- app_assoc. reflexivity.
Qed.

(** ** Native frees under races *)

Lemma loaded_sizes_first racing counter : loaded_sizes racing counter !! 0%nat = Some counter.
Proof using Type. destruct racing; reflexivity. Qed.

Lemma RegisterNativeFree_loop_rounds racing bytes counter :
  let loaded := loaded_sizes racing counter in
  exists rounds expected_size,
    loaded !! rounds = Some expected_size
    /\ (forall n size,
          (n < rounds)%nat -> loaded !! n = Some size ->
          0 <= to_int (size - bytes) /\ loaded !! S n <> Some size)
    /\ RegisterNativeFree_loop racing bytes counter
       = (if to_int (expected_size - bytes) <? 0
          then (expected_size, Some (RuntimeException_native_free bytes expected_size))
          else (to_int (expected_size - bytes), None))
    /\ (0 <= to_int (expected_size - bytes) ->
        loaded !! S rounds = None \/ loaded !! S rounds = Some expected_size).
Proof using Type.
  revert counter. induction racing as [|change racing IH]; intros counter; cbv zeta.
  - exists 0%nat, counter. split; [reflexivity|]. split; [intros n size Hn; lia|].
    split; [simpl; destruct (_ <? 0); reflexivity|]. intros _. left. reflexivity.
  - destruct (Z.ltb_spec (to_int (counter - bytes)) 0) as [Hneg|Hneg].
    { exists 0%nat, counter. split; [reflexivity|]. split; [intros n size Hn; lia|].
      split; [|lia]. simpl.
      destruct (Z.ltb_spec (to_int (counter - bytes)) 0); [reflexivity|lia]. }
    destruct (Z.eqb_spec (to_int (counter + change)) counter) as [Hcas|Hcas].
    { exists 0%nat, counter. split; [reflexivity|]. split; [intros n size Hn; lia|].
      split.
      - simpl. destruct (Z.ltb_spec (to_int (counter - bytes)) 0); [lia|].
        destruct (Z.eqb_spec (to_int (counter + change)) counter); [reflexivity|contradiction].
      - intros _. right. simpl. rewrite loaded_sizes_first, Hcas. reflexivity. }
    destruct (IH (to_int (counter + change))) as (rounds & expected_size & Hl & Hb & El & Hc).
    exists (S rounds), expected_size. split; [exact Hl|]. split; [|split].
    + intros [|n] size Hn Hs.
      * injection Hs as <-. split; [exact Hneg|]. simpl. rewrite loaded_sizes_first.
        congruence.
      * apply (Hb n size); [lia|exact Hs].
    + simpl. destruct (Z.ltb_spec (to_int (counter - bytes)) 0); [lia|].
      destruct (Z.eqb_spec (to_int (counter + change)) counter); [contradiction|].
      exact El.
    + exact Hc.
Qed.

(** X27.  Whatever other threads do to the counter between the load and the
    compare-and-swap of [RegisterNativeFree], the call ends in the first
    round in which the value it loaded, less [bytes], is negative, or in
    which the counter is still what it loaded when it comes to the exchange:
    in the first case it throws and leaves the counter at that value, in the
    second it stores that value less [bytes], which is not negative.  No
    other member of the heap changes. *)
Theorem RegisterNativeFree_never_stores_a_negative_count racing bytes h :
  let loaded := loaded_sizes racing (native_bytes_allocated_ h) in
  let '(h', exception) := RegisterNativeFree racing bytes h in
  exists rounds expected_size,
    loaded !! rounds = Some expected_size
    /\ (forall n size,
          (n < rounds)%nat -> loaded !! n = Some size ->
          0 <= to_int (size - bytes) /\ loaded !! S n <> Some size)
    /\ match exception with
       | Some (RuntimeException_native_free freed size) =>
           freed = bytes
           /\ size = expected_size
           /\ to_int (expected_size - bytes) < 0
           /\ native_bytes_allocated_ h' = expected_size
       | None =>
           0 <= native_bytes_allocated_ h'
           /\ native_bytes_allocated_ h' = to_int (expected_size - bytes)
           /\ (loaded !! S rounds = None \/ loaded !! S rounds = Some expected_size)
       end
    /\ h' = set_native_bytes_allocated_ (native_bytes_allocated_ h') h.
Proof using Type.
  intros loaded. unfold RegisterNativeFree.
  destruct (RegisterNativeFree_loop_rounds racing bytes (native_bytes_allocated_ h))
    as (rounds & expected_size & Hl & Hb & -> & Hc).
  destruct (Z.ltb_spec (to_int (expected_size - bytes)) 0) as [Hneg|Hneg]; simpl;
    exists rounds, expected_size; (split; [exact Hl|]); (split; [exact Hb|]);
    (split; [|reflexivity]).
  - auto.
  - split; [exact Hneg|]. split; [reflexivity|]. apply Hc. exact Hneg.
Qed.

(** ** Bins and bytes *)

Lemma bins_total_Permutation bins bins' :
  bins ≡ₚ bins' -> bins_total bins = bins_total bins'.
Proof using Type.
  induction 1 as [|bin l l' _ IH|a b l|l l' l'' _ IH1 _ IH2]; simpl; lia.
Qed.

Lemma bins_total_nonempty bins :
  bins_total (List.filter nonempty_gap bins) = bins_total bins.
Proof using Type.
  induction bins as [|bin bins IH]; simpl; [reflexivity|].
  unfold nonempty_gap at 1. destruct (Z.eqb_spec (fst bin) 0) as [E|E]; simpl.
  - rewrite IH, E. reflexivity.
  - rewrite IH. reflexivity.
Qed.

Lemma gaps_from_total prev objs space_end :
  bins_total (gaps_from prev objs space_end) + objects_total objs = space_end - prev.
Proof using Type.
  revert prev. induction objs as [|[addr size] objs IH]; intros prev; simpl; [lia|].
  specialize (IH (addr + size)). lia.
Qed.

Lemma gaps_from_within prev objs space_end :
  laid_out prev objs space_end ->
  Forall (fun gap => 0 <= fst gap /\ prev <= snd gap /\ snd gap + fst gap <= space_end)
         (gaps_from prev objs space_end).
Proof using Type.
  revert prev. induction objs as [|[addr size] objs IH]; intros prev Hl; simpl in *.
  - constructor; [simpl; lia|constructor].
  - destruct Hl as (Hp & Hs & Hl). pose proof (laid_out_le _ _ _ Hl) as Hle.
    constructor; [simpl; lia|].
    apply (Forall_impl _ _ _ (IH _ Hl)). intros gap (H0 & H1 & H2). lia.
Qed.

(** X28.  The bins that [BuildBins] makes of a space whose live objects lie one
    after the other account for every byte of the space that no live object
    occupies: their sizes and the aligned sizes of the live objects add up to
    the size of the space, and every bin is a non-empty range inside the
    space. *)
Theorem BuildBins_accounts_for_every_free_byte SizeOf space collector :
  bins_ collector = [] ->
  0 <= begin_ space ->
  end_ space <= SIZE_MAX ->
  laid_out (begin_ space) (live_objects SizeOf space) (end_ space) ->
  bins_total (bins_ (BuildBins SizeOf space collector))
  + objects_total (live_objects SizeOf space)
  = end_ space - begin_ space
  /\ Forall (fun bin => 0 < fst bin
                        /\ begin_ space <= snd bin
                        /\ snd bin + fst bin <= end_ space)
            (bins_ (BuildBins SizeOf space collector)).
Proof using Type.
  intros Hempty Hb He Hl.
  destruct (BuildBins_gaps SizeOf space collector Hempty Hb He Hl) as (Hperm & _).
  split.
  - rewrite (bins_total_Permutation _ _ Hperm), bins_total_nonempty.
    apply gaps_from_total.
  - rewrite Hperm. apply List.Forall_forall. intros bin Hin.
    apply List.filter_In in Hin as (Hin & Hne).
    pose proof (gaps_from_within _ _ _ Hl) as Hw.
    rewrite List.Forall_forall in Hw. destruct (Hw bin Hin) as (H0 & H1 & H2).
    unfold nonempty_gap in Hne. destruct (Z.eqb_spec (fst bin) 0); [discriminate|].
    lia.
Qed.

(** ** The allocation slow path stops at the first success *)

Lemma collect_garbage_no_retry gc_type clear_soft_references w g w' :
  collect_garbage gc_type clear_soft_references w = Returns g w' ->
  exists events,
    w_log w' = w_log w ++ events
    /\ Forall (fun e => successful_retry e = false) events.
Proof using Type.
  intros H. apply collect_garbage_Returns in H as (_ & events & Hl & _ & Hs).
  exists events. split; [exact Hl|]. apply List.Forall_forall. intros e Hin.
  destruct e; try reflexivity.
  assert (Hc : In (CallTryToAllocate kGrow allocator alloc_size result)
                  (slow_path_calls events))
    by (apply List.filter_In; split; [exact Hin|reflexivity]).
  rewrite Hs in Hc. destruct Hc as [Hc|[]]. discriminate Hc.
Qed.

Lemma try_to_allocate_retry kGrow allocator alloc_size w :
  exists ptr w',
    try_to_allocate kGrow allocator alloc_size w = Returns ptr w'
    /\ w_log w' = w_log w ++ [CallTryToAllocate kGrow allocator alloc_size ptr].
Proof using Type.
  destruct (try_to_allocate_Returns kGrow allocator alloc_size w) as (ptr & footprint & E).
  eexists _, _. split; [exact E|reflexivity].
Qed.

Lemma gc_plan_loop_break plan was_default_allocator allocator alloc_size ptr w :
  ptr <> 0 ->
  gc_plan_loop plan was_default_allocator allocator alloc_size ptr w
  = Returns (EndOfLoop ptr) w.
Proof using Type.
  intros Hp. destruct plan; simpl; [reflexivity|].
  rewrite (bool_decide_eq_true_2 _ Hp). reflexivity.
Qed.

Lemma gc_plan_loop_first_success plan was_default_allocator allocator alloc_size ptr0 w
    exit w' :
  gc_plan_loop plan was_default_allocator allocator alloc_size ptr0 w = Returns exit w' ->
  exists events,
    w_log w' = w_log w ++ events
    /\ match exit with
       | ReturnNullptr => Forall (fun e => successful_retry e = false) events
       | EndOfLoop ptr =>
           (ptr = ptr0 /\ Forall (fun e => successful_retry e = false) events)
           \/ (ptr <> 0
               /\ exists before,
                    events = before ++ [CallTryToAllocate false allocator alloc_size ptr]
                    /\ Forall (fun e => successful_retry e = false) before)
       end.
Proof using Type.
  revert ptr0 w. induction plan as [|gc_type plan IH]; intros ptr0 w H; simpl in H.
  - injection H as <- <-. exists []. rewrite app_nil_r. split; [reflexivity|].
    left. split; [reflexivity|constructor].
  - destruct (bool_decide (ptr0 <> 0)) eqn:Hptr.
    + injection H as <- <-. exists []. rewrite app_nil_r. split; [reflexivity|].
      left. split; [reflexivity|constructor].
    + apply bool_decide_eq_false, dec_stable in Hptr. subst ptr0.
      step H. apply collect_garbage_no_retry in E as (events1 & Hl1 & Hn1).
      cbv beta iota delta [bind get_heap] in H.
      destruct (was_default_allocator
                && bool_decide (allocator <> GetCurrentAllocator (w_heap w0))).
      * injection H as <- <-. exists events1. split; [exact Hl1|exact Hn1].
      * destruct (bool_decide (r <> kGcTypeNone)).
        -- destruct (try_to_allocate_retry false allocator alloc_size w0)
             as (ptr1 & w1 & Et & Hlt).
           rewrite Et in H. destruct (decide (ptr1 = 0)) as [->|Hp1].
           ++ apply IH in H as (events2 & Hl2 & Hexit).
              exists (events1 ++ CallTryToAllocate false allocator alloc_size 0 :: events2).
              split; [rewrite Hl2, Hlt, Hl1, <- !app_assoc; reflexivity|].
              destruct exit as [|ptr].
              ** apply Forall_app. split; [exact Hn1|]. constructor; [reflexivity|exact Hexit].
              ** destruct Hexit as [(-> & Hn2)|(Hp & before & -> & Hb)].
                 --- left. split; [reflexivity|]. apply Forall_app. split; [exact Hn1|].
                     constructor; [reflexivity|exact Hn2].
                 --- right. split; [exact Hp|].
                     exists (events1 ++ CallTryToAllocate false allocator alloc_size 0 :: before).
                     split; [rewrite <- !app_assoc; reflexivity|].
                     apply Forall_app. split; [exact Hn1|]. constructor; [reflexivity|exact Hb].
           ++ rewrite gc_plan_loop_break in H by assumption. injection H as <- <-.
              exists (events1 ++ [CallTryToAllocate false allocator alloc_size ptr1]).
              split; [rewrite Hlt, Hl1, <- !app_assoc; reflexivity|].
              right. split; [exact Hp1|]. exists events1. split; [reflexivity|exact Hn1].
        -- cbv beta iota delta [ret] in H.
           apply IH in H as (events2 & Hl2 & Hexit).
           exists (events1 ++ events2).
           split; [rewrite Hl2, Hl1, <- !app_assoc; reflexivity|].
           destruct exit as [|ptr].
           ++ apply Forall_app. split; assumption.
           ++ destruct Hexit as [(-> & Hn2)|(Hp & before & -> & Hb)].
              ** left. split; [reflexivity|]. apply Forall_app. split; assumption.
              ** right. split; [exact Hp|]. exists (events1 ++ before).
                 split; [rewrite <- !app_assoc; reflexivity|].
                 apply Forall_app. split; assumption.
Qed.

(** X29.  [AllocateInternalWithGc] stops at the first retry of the allocation that
    succeeds: a result that is not null is the pointer which the last call it
    made, a [TryToAllocate], returned, and no retry before that one had
    succeeded; when the result is null, no retry has succeeded at all. *)
Theorem AllocateInternalWithGc_returns_first_success allocator alloc_size w ptr w' :
  AllocateInternalWithGc allocator alloc_size w = Returns ptr w' ->
  exists events,
    w_log w' = w_log w ++ events
    /\ (ptr = 0 -> Forall (fun e => successful_retry e = false) events)
    /\ (ptr <> 0 ->
        exists before kGrow,
          events = before ++ [CallTryToAllocate kGrow allocator alloc_size ptr]
          /\ Forall (fun e => successful_retry e = false) before).
Proof using Type.
  unfold AllocateInternalWithGc. intros H. cbv beta iota delta [bind get_heap] in H.
  destruct (WaitForGcToComplete w) as [last_gc w1| |] eqn:Ew; [|discriminate H..].
  apply WaitForGcToCompleteLocked_Returns in Ew as (Hl1 & _).
  cbv beta iota delta [bind log_event get_heap] in H.
  set (w2 := emit (CallWaitForGcToComplete last_gc) w1) in *.
  assert (Hl2 : w_log w2 = w_log w ++ [CallWaitForGcToComplete last_gc])
    by (simpl; rewrite Hl1; reflexivity).
  clearbody w2. clear Hl1 w1.
  set (was_default_allocator := bool_decide (allocator = GetCurrentAllocator (w_heap w))) in *.
  clearbody was_default_allocator.
  destruct (bool_decide (last_gc <> kGcTypeNone)
            && (was_default_allocator
                && bool_decide (allocator <> GetCurrentAllocator (w_heap w2)))).
  { injection H as <- <-. eexists. split; [exact Hl2|].
    split; [intros _; repeat constructor|congruence]. }
  assert (Hfirst : exists ptr1 w3 retry,
    (if bool_decide (last_gc <> kGcTypeNone)
     then try_to_allocate false allocator alloc_size else ret 0) w2 = Returns ptr1 w3
    /\ w_log w3 = w_log w ++ CallWaitForGcToComplete last_gc :: retry
    /\ (ptr1 = 0 -> Forall (fun e => successful_retry e = false) retry)
    /\ (ptr1 <> 0 -> retry = [CallTryToAllocate false allocator alloc_size ptr1])).
  { destruct (bool_decide (last_gc <> kGcTypeNone)).
    - destruct (try_to_allocate_retry false allocator alloc_size w2) as (ptr1 & w3 & Et & Hlt).
      exists ptr1, w3, [CallTryToAllocate false allocator alloc_size ptr1].
      split; [exact Et|]. split; [rewrite Hlt, Hl2, <- app_assoc; reflexivity|].
      split; [intros ->; repeat constructor|reflexivity].
    - exists 0, w2, []. split; [reflexivity|]. split; [exact Hl2|].
      split; [constructor|congruence]. }
  destruct Hfirst as (ptr1 & w3 & retry & Ef & Hl3 & Hzero & Hsome).
  rewrite Ef in H. clear Ef Hl2 w2.
  cbv beta iota delta [bind get_heap] in H.
  destruct (decide (ptr1 = 0)) as [->|Hp1].
  2:{ rewrite gc_plan_loop_break in H by assumption.
      rewrite (bool_decide_eq_false_2 _ Hp1) in H. cbv beta iota delta [ret] in H.
      rewrite (bool_decide_eq_false_2 _ Hp1) in H. injection H as <- <-.
      eexists. split; [exact Hl3|]. split; [contradiction|]. intros _.
      exists [CallWaitForGcToComplete last_gc], false.
      rewrite (Hsome Hp1). split; [reflexivity|repeat constructor]. }
  specialize (Hzero eq_refl). clear Hsome.
  destruct (gc_plan_loop _ _ _ _ 0 w3) as [exit w4| |] eqn:El; [|discriminate H..].
  apply gc_plan_loop_first_success in El as (events_loop & Hl4 & Hexit).
  assert (Hpre : Forall (fun e => successful_retry e = false)
                   (CallWaitForGcToComplete last_gc :: retry))
    by (constructor; [reflexivity|exact Hzero]).
  assert (Hl4' : w_log w4
                 = w_log w ++ (CallWaitForGcToComplete last_gc :: retry) ++ events_loop)
    by (rewrite Hl4, Hl3, <- app_assoc; reflexivity).
  clear Hl4 Hl3 Hzero.
  set (pre := CallWaitForGcToComplete last_gc :: retry) in *. clearbody pre.
  destruct exit as [|ptr2].
  { injection H as <- <-. eexists. split; [exact Hl4'|].
    split; [intros _; apply Forall_app; split; assumption|congruence]. }
  destruct Hexit as [(-> & Hn)|(Hp2 & before & -> & Hb)].
  2:{ rewrite (bool_decide_eq_false_2 _ Hp2) in H. cbv beta iota delta [ret] in H.
      rewrite (bool_decide_eq_false_2 _ Hp2) in H. injection H as <- <-.
      eexists. split; [exact Hl4'|]. split; [contradiction|]. intros _.
      exists (pre ++ before), false. split; [rewrite <- app_assoc; reflexivity|].
      apply Forall_app. split; assumption. }
  rewrite bool_decide_eq_true_2 in H by reflexivity.
  destruct (try_to_allocate_retry true allocator alloc_size w4) as (ptr3 & w5 & Et & Hl5).
  rewrite Et in H. clear Et.
  assert (Hsofar : Forall (fun e => successful_retry e = false) (pre ++ events_loop))
    by (apply Forall_app; split; assumption).
  rewrite Hl4' in Hl5. clear Hl4' Hn Hpre.
  set (sofar := pre ++ events_loop) in *. clearbody sofar. clear pre events_loop w3 w4.
  destruct (decide (ptr3 = 0)) as [->|Hp3].
  2:{ rewrite (bool_decide_eq_false_2 _ Hp3) in H. injection H as <- <-.
      eexists. split; [rewrite Hl5, <- app_assoc; reflexivity|].
      split; [contradiction|]. intros _. exists sofar, true. auto. }
  rewrite bool_decide_eq_true_2 in H by reflexivity.
  cbv beta iota delta [bind get_heap] in H.
  destruct (last (gc_plan_ (w_heap w5))) as [gc_type|]; [|discriminate H].
  cbv beta iota delta [bind get_heap] in H.
  destruct (collect_garbage gc_type true w5) as [g w6| |] eqn:Ec; [|discriminate H..].
  apply collect_garbage_no_retry in Ec as (events_gc & Hl6 & Hngc).
  assert (Hsofar' : Forall (fun e => successful_retry e = false)
                      (sofar ++ [CallTryToAllocate true allocator alloc_size 0] ++ events_gc)).
  { apply Forall_app. split; [exact Hsofar|]. apply Forall_app. split; [|exact Hngc].
    repeat constructor. }
  assert (Hl6' : w_log w6
                 = w_log w
                   ++ (sofar ++ [CallTryToAllocate true allocator alloc_size 0] ++ events_gc))
    by (rewrite Hl6, Hl5, <- !app_assoc; reflexivity).
  clear Hl6 Hl5 Hsofar Hngc.
  set (sofar' := sofar ++ [CallTryToAllocate true allocator alloc_size 0] ++ events_gc) in *.
  clearbody sofar'.
  destruct (was_default_allocator
            && bool_decide (allocator <> GetCurrentAllocator (w_heap w6))).
  { injection H as <- <-. eexists. split; [exact Hl6'|].
    split; [intros _; exact Hsofar'|congruence]. }
  cbv beta iota delta [bind] in H.
  destruct (try_to_allocate_retry true allocator alloc_size w6) as (ptr4 & w7 & Et & Hl7).
  rewrite Et in H. clear Et.
  destruct (decide (ptr4 = 0)) as [->|Hp4].
  - rewrite bool_decide_eq_true_2 in H by reflexivity.
    cbv beta iota delta [bind log_event ret] in H. injection H as <- <-.
    eexists. split; [simpl; rewrite Hl7, Hl6', <- !app_assoc; reflexivity|].
    split; [|congruence]. intros _. apply Forall_app. split; [exact Hsofar'|].
    repeat constructor.
  - rewrite (bool_decide_eq_false_2 _ Hp4) in H.
    cbv beta iota delta [bind ret] in H. injection H as <- <-.
    eexists. split; [rewrite Hl7, Hl6', <- !app_assoc; reflexivity|].
    split; [contradiction|]. intros _. exists sofar', true. auto.
Qed.

End HeapManager.

(** * Sample runs *)

(** ** C1 *)

Lemma AllocateInternalWithGc_throws_only_after_full_escalation_witness :
  exists w' events,
    AllocateInternalWithGc true true utilization_one_half estimate_exactly
      run_frees_nothing temp_space_stays_empty allocation_fails kAllocatorTypeRosAlloc 4096
      (sample_world sample_heap []) = Returns 0 w'
    /\ w_log w' = events
    /\ In (ThrowOutOfMemoryError 4096) events
    /\ exists last_gc plan results last_type last_result,
         slow_path_calls events
         = full_escalation kAllocatorTypeRosAlloc 4096 last_gc plan results
             last_type last_result
         /\ length results = length plan
         /\ (no_transition [] ->
             plan = [kGcTypeSticky; kGcTypePartial; kGcTypeFull]
             /\ last plan = Some last_type).
Proof.
  eexists _, _. split; [vm_compute; reflexivity|]. split; [reflexivity|].
  split; [vm_compute; tauto|].
  eapply (AllocateInternalWithGc_throws_only_after_full_escalation
            true true utilization_one_half estimate_exactly run_frees_nothing
            temp_space_stays_empty allocation_fails kAllocatorTypeRosAlloc 4096
            (sample_world sample_heap [])).
  - vm_compute. reflexivity.
  - reflexivity.
  - vm_compute. tauto.
Defined.

(** ** C2 *)


(** The weak reference that marking meets while the finalizer references are
    enqueued is cleared by the second pass over the weak queue. *)
Example ProcessReferences_clears_reference_met_by_finalizer_marking :
  match ProcessReferences 5 true false sample_is_marked_callback sample_mark_callback
          sample_reference_heap with
  | Some (rh, _) =>
      list_ rh cleared_references_ = [500; 300; 100]
      /\ GetReferenceReferent 500 rh = 0
      /\ GetFieldObject zombie 300 (objects rh) = 3000
      /\ GetReferenceReferent 400 rh = 3000
  | None => False
  end.
Proof. vm_compute. repeat split. Qed.

(** ** C3 *)

Lemma GrowForUtilization_after_non_sticky_gc_witness :
  kGcTypeFull <> kGcTypeSticky
  /\ fst (GrowForUtilization_target_size utilization_one_half kGcTypeFull sample_heap)
     = 2 * MB
  /\ next_gc_type_
       (GrowForUtilization utilization_one_half estimate_exactly 0 kGcTypeFull 0 sample_heap)
     = kGcTypeSticky
  /\ max_allowed_footprint_
       (GrowForUtilization utilization_one_half estimate_exactly 0 kGcTypeFull 0 sample_heap)
     = 2 * MB.
Proof.
  split; [discriminate|].
  apply (GrowForUtilization_after_non_sticky_gc utilization_one_half estimate_exactly
           0 kGcTypeFull 0 sample_heap).
  - discriminate.
  - vm_compute. discriminate.
  - vm_compute. split; discriminate.
  - vm_compute. discriminate.
Defined.

(** With [min_free_] above [max_free_] the upper bound wins: six megabytes
    where the formula of the claim gives eight. *)
Lemma GrowForUtilization_target_is_not_the_claimed_maximum :
  let h := heap_with_min_free_above_max_free in
  let h' := GrowForUtilization utilization_one_half estimate_exactly 0 kGcTypeFull 0 h in
  let claimed :=
    Z.max (Z.min (utilization_one_half (GetBytesAllocated h))
                 (GetBytesAllocated h + max_free_ h))
          (GetBytesAllocated h + min_free_ h) in
  kGcTypeFull <> kGcTypeSticky
  /\ fst (GrowForUtilization_target_size utilization_one_half kGcTypeFull h) = 6 * MB
  /\ max_allowed_footprint_ h' = 6 * MB
  /\ claimed = 8 * MB
  /\ max_allowed_footprint_ h' <> claimed.
Proof. vm_compute. repeat split; discriminate. Qed.

(** ** C4 *)

Lemma GrowForUtilization_concurrent_start_bytes_after_gc_witness :
  concurrent_gc_ small_concurrent_heap = true
  /\ ignore_max_footprint_ small_concurrent_heap = false
  /\ concurrent_start_bytes_
       (GrowForUtilization utilization_one_half estimate_exactly 0 kGcTypeSticky 1000000000
          small_concurrent_heap)
     = 172 * KB.
Proof.
  split; [reflexivity|]. split; [reflexivity|].
  apply (GrowForUtilization_concurrent_start_bytes_after_gc utilization_one_half
           estimate_exactly 0 kGcTypeSticky 1000000000 small_concurrent_heap);
    reflexivity.
Defined.

(** An estimate of 400 KiB against an allowed footprint of 300 KiB: the
    trigger is 300 KiB - 128 KiB, where the formula of the claim gives the
    100 KiB that are allocated (its difference is negative). *)
Lemma concurrent_start_bytes_is_not_the_claimed_maximum :
  let h := small_concurrent_heap in
  let h' :=
    GrowForUtilization utilization_one_half estimate_exactly 0 kGcTypeSticky 1000000000 h in
  let clamped :=
    Z.max (Z.min (estimate_exactly (allocation_rate_ h) (NsToMs 1000000000))
                 (512 * KB))
          (128 * KB) in
  let claimed := Z.max (max_allowed_footprint_ h' - clamped) (GetBytesAllocated h) in
  concurrent_gc_ h = true
  /\ ignore_max_footprint_ h = false
  /\ max_allowed_footprint_ h' = 300 * KB
  /\ clamped = 400 * KB
  /\ concurrent_start_bytes_ h' = 172 * KB
  /\ claimed = 100 * KB
  /\ concurrent_start_bytes_ h' <> claimed.
Proof. vm_compute. repeat split; discriminate. Qed.

(** ** C5 *)

Lemma UpdateProcessState_transitions_or_collects_witness :
  let w := sample_world sample_heap [] in
  process_state_ (w_heap w) = kProcessStateJankPerceptible
  /\ collector_type_ (w_heap w) <> background_collector_type_ (w_heap w)
  /\ (exists w',
        UpdateProcessState true true utilization_one_half estimate_exactly
          run_frees_nothing temp_space_stays_empty kProcessStateJankImperceptible w
        = Returns tt w'
        /\ collector_type_ (w_heap w') = kCollectorTypeSS
        /\ process_state_ (w_heap w') = kProcessStateJankImperceptible
        /\ w_log w' = [CollectorRun SemiSpace kGcCauseCollectorTransition false])
  /\ (exists collector w',
        UpdateProcessState true true utilization_one_half estimate_exactly
          run_frees_nothing temp_space_stays_empty kProcessStateJankPerceptible w
        = Returns tt w'
        /\ GetGcType collector = kGcTypeFull
        /\ w_log w' = [CollectorRun collector kGcCauseBackground false]
        /\ process_state_ (w_heap w') = kProcessStateJankPerceptible).
Proof.
  intros w. split; [reflexivity|]. split; [discriminate|]. split.
  - destruct (UpdateProcessState_transitions_or_collects true true utilization_one_half
                estimate_exactly run_frees_nothing temp_space_stays_empty
                kProcessStateJankImperceptible w) as (Hchanged & _).
    destruct Hchanged as (_ & Htransition); [discriminate|].
    destruct Htransition as (_ & Hreturns); [discriminate|].
    apply Hreturns.
    + discriminate.
    + reflexivity.
    + reflexivity.
    + reflexivity.
    + discriminate.
    + discriminate.
  - destruct (UpdateProcessState_transitions_or_collects true true utilization_one_half
                estimate_exactly run_frees_nothing temp_space_stays_empty
                kProcessStateJankPerceptible w) as (_ & Hsame).
    destruct Hsame as (_ & Hcollects); [reflexivity|].
    apply Hcollects.
    + reflexivity.
    + reflexivity.
    + left. reflexivity.
Defined.

(** The process goes to the background while the heap already uses the
    background collector: the state is recorded and no collection is run. *)
Lemma UpdateProcessState_runs_no_collection_when_already_in_collector :
  let w := sample_world small_concurrent_heap [] in
  process_state_ (w_heap w) <> kProcessStateJankImperceptible
  /\ collector_type_ (w_heap w) = background_collector_type_ (w_heap w)
  /\ UpdateProcessState true true utilization_one_half estimate_exactly run_frees_nothing
       temp_space_stays_empty kProcessStateJankImperceptible w
     = Returns tt
         (with_heap (set_process_state_ kProcessStateJankImperceptible (w_heap w)) w)
  /\ w_log (with_heap (set_process_state_ kProcessStateJankImperceptible (w_heap w)) w) = [].
Proof. split; [discriminate|]. split; [reflexivity|]. split; reflexivity. Qed.

(** ** C6 *)



(** ** C7 *)

Lemma RegisterNativeFree_throws_or_decreases_witness :
  INT_MIN <= native_bytes_allocated_ sample_heap - 5000 <= INT_MAX
  /\ RegisterNativeFree [] 5000 sample_heap
     = (sample_heap, Some (RuntimeException_native_free 5000 4096))
  /\ RegisterNativeFree [] 96 sample_heap
     = (set_native_bytes_allocated_ 4000 sample_heap, None).
Proof.
  assert (H1 : INT_MIN <= native_bytes_allocated_ sample_heap - 5000 <= INT_MAX)
    by (vm_compute; split; discriminate).
  assert (H2 : INT_MIN <= native_bytes_allocated_ sample_heap - 96 <= INT_MAX)
    by (vm_compute; split; discriminate).
  split; [exact H1|].
  pose proof (RegisterNativeFree_throws_or_decreases 5000 sample_heap H1) as Hthrow.
  pose proof (RegisterNativeFree_throws_or_decreases 96 sample_heap H2) as Hfree.
  cbv zeta in Hthrow, Hfree.
  destruct (RegisterNativeFree [] 5000 sample_heap) as [h1 e1].
  destruct (RegisterNativeFree [] 96 sample_heap) as [h2 e2].
  change (native_bytes_allocated_ sample_heap - 5000 <? 0) with true in Hthrow.
  change (native_bytes_allocated_ sample_heap - 96 <? 0) with false in Hfree.
  destruct Hthrow as (-> & ->). destruct Hfree as (-> & _ & ->).
  split; reflexivity.
Defined.

(** ** C8 *)

Lemma zygote_bins_are_gaps_and_objects_go_to_best_fit_witness :
  bins_sorted (bins_ sample_collector)
  /\ bins_ (BuildBins sample_SizeOf sample_space sample_collector)
     ≡ₚ [(16, 4096); (64, 4136); (3968, 4224)].
Proof.
  assert (Hsorted : bins_sorted (bins_ sample_collector)) by constructor.
  split; [exact Hsorted|].
  refine (proj1 (proj1 (zygote_bins_are_gaps_and_objects_go_to_best_fit
                          sample_SizeOf sample_space sample_collector 100000 Hsorted)
                   eq_refl _ _ _)).
  - discriminate.
  - vm_compute. discriminate.
  - vm_compute. repeat split; discriminate.
Defined.

(** An object of 24 bytes goes to the bin of 64 bytes, not to the one of
    3968, and leaves a bin of 40 bytes behind. *)
Example MarkNonForwardedObject_best_fit :
  match MarkNonForwardedObject sample_SizeOf 100000
          (BuildBins sample_SizeOf sample_space sample_collector) with
  | Some (forward_address, collector) =>
      forward_address = 4136
      /\ bins_ collector = [(16, 4096); (40, 4160); (3968, 4224)]
  | None => False
  end.
Proof. vm_compute. split; reflexivity. Qed.

(** The only live object starts 16 bytes into the space: those 16 bytes are a
    bin, and they are no gap between consecutive live objects nor the gap at
    the end. *)
Lemma BuildBins_makes_a_bin_before_the_first_object :
  let objs := live_objects sample_SizeOf space_with_one_object in
  bins_ (BuildBins sample_SizeOf space_with_one_object sample_collector)
  = [(16, 4096); (4056, 4136)]
  /\ gaps_between_consecutive_objects_and_tail objs (end_ space_with_one_object)
     = [(4056, 4136)]
  /\ ~ (bins_ (BuildBins sample_SizeOf space_with_one_object sample_collector)
        ≡ₚ List.filter nonempty_gap
             (gaps_between_consecutive_objects_and_tail objs (end_ space_with_one_object))).
Proof.
  split; [vm_compute; reflexivity|]. split; [vm_compute; reflexivity|].
  intros H. apply Permutation_length in H. vm_compute in H. discriminate H.
Qed.

(** ** C9 *)





(** ** C10 *)

Lemma CollectGarbageInternal_partial_without_zygote_space_witness :
  have_zygote_space_ sample_heap = false
  /\ CollectGarbageInternal true true utilization_one_half estimate_exactly run_frees_nothing
       temp_space_stays_empty kGcTypePartial kGcCauseForAlloc false (sample_world sample_heap [])
     = Returns kGcTypeNone (sample_world sample_heap []).
Proof.
  split; [reflexivity|].
  apply (CollectGarbageInternal_partial_without_zygote_space true true utilization_one_half
           estimate_exactly run_frees_nothing temp_space_stays_empty kGcCauseForAlloc false
           (sample_world sample_heap [])).
  reflexivity.
Defined.

(** * Sample runs of the further properties *)

(** ** X1 *)

Lemma GrowForUtilization_after_sticky_gc_witness :
  let h' :=
    GrowForUtilization utilization_one_half estimate_exactly 0 kGcTypeSticky 0 sample_heap in
  0 <= GetBytesAllocated sample_heap
  /\ GetBytesAllocated sample_heap + max_free_ sample_heap <= SIZE_MAX
  /\ next_gc_type_ h' = kGcTypeSticky
  /\ max_allowed_footprint_ h' = 2 * MB.
Proof.
  intros h'.
  assert (H1 : 0 <= GetBytesAllocated sample_heap) by (vm_compute; discriminate).
  assert (H2 : 0 <= min_free_ sample_heap) by (vm_compute; discriminate).
  assert (H3 : 0 <= max_free_ sample_heap) by (vm_compute; discriminate).
  assert (H4 : GetBytesAllocated sample_heap + min_free_ sample_heap <= SIZE_MAX)
    by (vm_compute; discriminate).
  assert (H5 : GetBytesAllocated sample_heap + max_free_ sample_heap <= SIZE_MAX)
    by (vm_compute; discriminate).
  split; [exact H1|]. split; [exact H5|].
  destruct (GrowForUtilization_after_sticky_gc utilization_one_half estimate_exactly 0 0
              sample_heap H1 H2 H3 H4 H5) as (Hnext & _ & Hfootprint).
  split; [exact Hnext|]. exact (proj1 (Hfootprint eq_refl)).
Defined.

(** ** X2 *)

Lemma GrowForUtilization_footprint_within_growth_limit_witness :
  ignore_max_footprint_ sample_heap = false
  /\ max_allowed_footprint_
       (GrowForUtilization utilization_one_half estimate_exactly 0 kGcTypeFull 0 sample_heap)
     <= growth_limit_ sample_heap.
Proof.
  split; [reflexivity|].
  destruct (GrowForUtilization_footprint_within_growth_limit utilization_one_half
              estimate_exactly 0 kGcTypeFull 0 sample_heap) as (_ & Hlimit & _).
  exact (Hlimit eq_refl).
Defined.

(** ** X3 *)

Lemma GrowForUtilization_concurrent_start_bytes_bounds_witness :
  let h' :=
    GrowForUtilization utilization_one_half estimate_exactly 0 kGcTypeSticky 1000000000
      small_concurrent_heap in
  concurrent_gc_ small_concurrent_heap = true
  /\ ignore_max_footprint_ small_concurrent_heap = false
  /\ 0 <= max_allowed_footprint_ h' <= SIZE_MAX
  /\ GetBytesAllocated small_concurrent_heap <= concurrent_start_bytes_ h'
  /\ concurrent_start_bytes_ h' <= max_allowed_footprint_ h' - kMinConcurrentRemainingBytes.
Proof.
  intros h'.
  assert (H : 0 <= max_allowed_footprint_ h' <= SIZE_MAX)
    by (vm_compute; split; discriminate).
  split; [reflexivity|]. split; [reflexivity|]. split; [exact H|].
  destruct (GrowForUtilization_concurrent_start_bytes_bounds utilization_one_half
              estimate_exactly 0 kGcTypeSticky 1000000000 small_concurrent_heap
              eq_refl eq_refl H) as (Hlow & Hhigh & _).
  split; [exact Hlow|].
  refine (Z.le_trans _ _ _ (Hhigh _) _); vm_compute; discriminate.
Defined.

(** ** X4 *)

Lemma CollectGarbageInternal_runs_requested_type_witness :
  is_gc_running_ sample_heap = false
  /\ IsCompactingGC (collector_type_ sample_heap) = false
  /\ exists collector w',
       CollectGarbageInternal true true utilization_one_half estimate_exactly
         run_frees_nothing temp_space_stays_empty kGcTypeSticky kGcCauseForAlloc false
         (sample_world sample_heap [])
       = Returns kGcTypeSticky w'
       /\ GetGcType collector = kGcTypeSticky
       /\ w_log w' = [CollectorRun collector kGcCauseForAlloc false]
       /\ last_gc_type_ (w_heap w') = kGcTypeSticky.
Proof.
  split; [reflexivity|]. split; [reflexivity|].
  destruct (CollectGarbageInternal_runs_requested_type true true utilization_one_half
              estimate_exactly run_frees_nothing temp_space_stays_empty kGcTypeSticky
              kGcCauseForAlloc false
              (sample_world sample_heap []))
    as (collector & w' & E & Htype & _ & Hlog & _ & Hlast & _).
  - reflexivity.
  - reflexivity.
  - left. reflexivity.
  - discriminate.
  - discriminate.
  - exists collector, w'. repeat split; assumption.
Defined.

(** ** X5 *)

Lemma CollectGarbageInternal_compacting_is_full_witness :
  let w := sample_world (set_collector_type_ kCollectorTypeSS sample_heap) [] in
  let after_a_run := emit (CollectorRun SemiSpace kGcCauseBackground false) w in
  IsCompactingGC (collector_type_ (w_heap w)) = true
  /\ disable_moving_gc_count_ (w_heap w) = 0
  /\ (exists w',
        CollectGarbageInternal true true utilization_one_half estimate_exactly
          run_frees_nothing temp_space_used_after_compaction kGcTypeSticky
          kGcCauseBackground false w
        = Returns kGcTypeFull w'
        /\ w_log w' = [CollectorRun SemiSpace kGcCauseBackground false]
        /\ last_gc_type_ (w_heap w') = kGcTypeFull)
  /\ (exists w',
        CollectGarbageInternal true true utilization_one_half estimate_exactly
          run_frees_nothing temp_space_used_after_compaction kGcTypeSticky
          kGcCauseBackground false after_a_run
        = Aborts w'
        /\ w_log w' = w_log after_a_run).
Proof.
  intros w after_a_run. split; [reflexivity|]. split; [reflexivity|]. split.
  - destruct (CollectGarbageInternal_compacting_is_full true true utilization_one_half
                estimate_exactly run_frees_nothing temp_space_used_after_compaction
                kGcTypeSticky kGcCauseBackground false w) as (Hruns & _).
    + reflexivity.
    + reflexivity.
    + reflexivity.
    + reflexivity.
    + discriminate.
    + destruct Hruns as (w' & E & Hlog & _ & Hlast & _).
      { intros w0 H0. unfold temp_space_used_after_compaction. rewrite H0. reflexivity. }
      exists w'. repeat split; assumption.
  - destruct (CollectGarbageInternal_compacting_is_full true true utilization_one_half
                estimate_exactly run_frees_nothing temp_space_used_after_compaction
                kGcTypeSticky kGcCauseBackground false after_a_run) as (_ & Haborts).
    + reflexivity.
    + reflexivity.
    + reflexivity.
    + reflexivity.
    + discriminate.
    + apply Haborts. intros w0 H0. unfold temp_space_used_after_compaction.
      rewrite H0. reflexivity.
Defined.

(** ** X6 *)

Lemma CollectGarbageInternal_leaves_no_collection_running_witness :
  exists g w',
    CollectGarbageInternal true true utilization_one_half estimate_exactly
      run_frees_nothing temp_space_stays_empty kGcTypeFull kGcCauseExplicit true
      (sample_world sample_heap [])
    = Returns g w'
    /\ g <> kGcTypeNone
    /\ is_gc_running_ (w_heap w') = false
    /\ last_gc_type_ (w_heap w') = g.
Proof.
  eexists _, _. split; [vm_compute; reflexivity|]. split; [discriminate|].
  refine (proj2 (CollectGarbageInternal_leaves_no_collection_running true true
                   utilization_one_half estimate_exactly run_frees_nothing
                   temp_space_stays_empty kGcTypeFull kGcCauseExplicit true
                   (sample_world sample_heap []) _ _ _) _).
  - vm_compute. reflexivity.
  - discriminate.
Defined.

(** ** X7 *)

Lemma WaitForGcToComplete_outcomes_witness :
  let idle := sample_world sample_heap [] in
  let w :=
    sample_world (set_is_gc_running_ true sample_heap) [OtherFinishGC kGcTypeSticky] in
  is_gc_running_ (w_heap idle) = false
  /\ WaitForGcToComplete true idle
     = Returns kGcTypeNone
         (with_heap (set_total_wait_time_ 1000 sample_heap) (with_now 5000002000 idle))
  /\ is_gc_running_ (w_heap w) = true
  /\ exists w',
       WaitForGcToComplete true w = Returns kGcTypeSticky w'
       /\ w_others w' = []
       /\ is_gc_running_ (w_heap w') = false
       /\ last_gc_type_ (w_heap w') = kGcTypeSticky.
Proof.
  intros idle w. split; [reflexivity|]. split.
  { exact (proj1 (WaitForGcToComplete_outcomes true idle) eq_refl). }
  split; [reflexivity|].
  destruct (WaitForGcToComplete_outcomes true w) as (_ & _ & Hfinished).
  destruct (Hfinished eq_refl kGcTypeSticky [] eq_refl)
    as (w' & E & Hothers & Hrunning & Hlast & _).
  exists w'. repeat split; assumption.
Defined.

(** ** X8 *)

Lemma IncrementDisableMovingGC_protects_until_decrement_witness :
  let w := sample_world sample_heap [] in
  let pinned := with_heap (IncrementDisableMovingGC sample_heap) w in
  0 <= disable_moving_gc_count_ (w_heap w) < SIZE_MAX
  /\ is_gc_running_ (w_heap w) = false
  /\ disable_moving_gc_count_ (w_heap pinned) = 1
  /\ (exists w',
        StartGC true true pinned = Returns false w'
        /\ w_log w' = [LogWarningSkippingGC 1])
  /\ DecrementDisableMovingGC (w_heap pinned) = sample_heap.
Proof.
  intros w pinned.
  assert (H : 0 <= disable_moving_gc_count_ (w_heap w) < SIZE_MAX)
    by (vm_compute; split; [discriminate|reflexivity]).
  split; [exact H|]. split; [reflexivity|].
  destruct (IncrementDisableMovingGC_protects_until_decrement true w H eq_refl)
    as (Hcount & (w' & E & Hlog & _) & Hback).
  split; [exact Hcount|]. split; [|exact Hback].
  exists w'. split; [exact E|exact Hlog].
Defined.

(** ** X9 *)


(** ** X10 *)

Lemma CollectGarbage_runs_a_full_collection_witness :
  last (gc_plan_ sample_heap) = Some kGcTypeFull
  /\ exists w',
       CollectGarbage true true utilization_one_half estimate_exactly run_frees_nothing
         temp_space_stays_empty false (sample_world sample_heap []) = Returns tt w'
       /\ w_log w' = [CollectorRun (MarkSweep false) kGcCauseExplicit false]
       /\ last_gc_type_ (w_heap w') = kGcTypeFull.
Proof.
  split; [reflexivity|].
  destruct (CollectGarbage_runs_a_full_collection true true utilization_one_half
              estimate_exactly run_frees_nothing temp_space_stays_empty false
              (sample_world sample_heap []))
    as (w' & E & Hlog & Hlast & _).
  - reflexivity.
  - reflexivity.
  - reflexivity.
  - left. reflexivity.
  - exists w'. repeat split; assumption.
Defined.

(** ** X11 *)

Lemma ConcurrentGC_runs_at_most_one_collector_witness :
  exists w' events,
    ConcurrentGC true true utilization_one_half estimate_exactly run_frees_nothing
      temp_space_stays_empty sample_GcType_gt false (sample_world small_concurrent_heap [])
    = Returns tt w'
    /\ w_log w' = events
    /\ (length (collector_runs events) <= 1)%nat.
Proof.
  assert (E : exists w',
             ConcurrentGC true true utilization_one_half estimate_exactly
               run_frees_nothing temp_space_stays_empty sample_GcType_gt false
               (sample_world small_concurrent_heap []) = Returns tt w')
    by (eexists; vm_compute; reflexivity).
  destruct E as (w' & E).
  destruct (ConcurrentGC_runs_at_most_one_collector true true utilization_one_half
              estimate_exactly run_frees_nothing temp_space_stays_empty sample_GcType_gt false
              (sample_world small_concurrent_heap [])) as (Hruns & _).
  destruct (Hruns w' E) as (events & Hlog & Hone).
  exists w', events. split; [exact E|]. split; [exact Hlog|exact Hone].
Defined.

(** ** X12 *)

Lemma ConcurrentGC_falls_back_to_a_full_collection_witness :
  next_gc_type_ sample_heap = kGcTypePartial
  /\ have_zygote_space_ sample_heap = false
  /\ exists w',
       ConcurrentGC true true utilization_one_half estimate_exactly run_frees_nothing
         temp_space_stays_empty sample_GcType_gt false (sample_world sample_heap [])
       = Returns tt w'
       /\ w_log w' = [CollectorRun (MarkSweep false) kGcCauseBackground false]
       /\ last_gc_type_ (w_heap w') = kGcTypeFull.
Proof.
  split; [reflexivity|]. split; [reflexivity|].
  destruct (ConcurrentGC_falls_back_to_a_full_collection true true utilization_one_half
              estimate_exactly run_frees_nothing temp_space_stays_empty sample_GcType_gt
              (sample_world sample_heap []))
    as (w' & E & Hlog & Hlast); try reflexivity.
  - left. reflexivity.
  - exists w'. repeat split; assumption.
Defined.

(** ** X13 *)

Lemma UpdateMaxNativeFootprint_window_witness :
  let footprint := UpdateMaxNativeFootprint utilization_one_half sample_heap in
  0 <= min_free_ sample_heap <= max_free_ sample_heap
  /\ native_footprint_gc_watermark_ footprint = 4096 + 512 * KB
  /\ native_footprint_gc_watermark_ footprint <= native_footprint_limit_ footprint.
Proof.
  intros footprint.
  assert (H1 : 0 <= native_bytes_allocated_ sample_heap) by (vm_compute; discriminate).
  assert (H2 : 0 <= min_free_ sample_heap <= max_free_ sample_heap)
    by (vm_compute; split; discriminate).
  assert (H3 : native_bytes_allocated_ sample_heap + 2 * max_free_ sample_heap <= SIZE_MAX)
    by (vm_compute; discriminate).
  split; [exact H2|].
  destruct (UpdateMaxNativeFootprint_window utilization_one_half sample_heap H1 H2 H3)
    as (Hwatermark & _ & _ & Hlimit).
  split; [exact Hwatermark|exact Hlimit].
Defined.

(** ** X15 *)

Lemma RemoveSpace_undoes_AddSpace_witness :
  StronglySorted begins_before [sample_image_space; sample_malloc_space]
  /\ AddSpace sample_bump_pointer_space [sample_image_space; sample_malloc_space]
     = [sample_image_space; sample_bump_pointer_space; sample_malloc_space]
  /\ RemoveSpace sample_bump_pointer_space
       (AddSpace sample_bump_pointer_space [sample_image_space; sample_malloc_space])
     = Some [sample_image_space; sample_malloc_space].
Proof.
  assert (Hsorted : StronglySorted begins_before [sample_image_space; sample_malloc_space]).
  { repeat constructor. vm_compute. discriminate. }
  split; [exact Hsorted|]. split; [vm_compute; reflexivity|].
  refine (proj1 (RemoveSpace_undoes_AddSpace sample_bump_pointer_space
                   [sample_image_space; sample_malloc_space] Hsorted _ _)).
  - intros a b [<-|[<-|[]]] [<-|[<-|[]]] H; try reflexivity; discriminate H.
  - repeat (constructor; [discriminate|]). constructor.
Defined.

(** ** X16 *)

Lemma FindContinuousSpaceFromObject_finds_lowest_space_witness :
  let continuous_spaces :=
    [sample_image_space; sample_bump_pointer_space; sample_malloc_space] in
  FindContinuousSpaceFromObject sample_Contains 70000 false continuous_spaces
  = FoundSpace sample_bump_pointer_space
  /\ forall s,
       In s continuous_spaces -> sample_Contains s 70000 = true ->
       Begin sample_bump_pointer_space <= Begin s.
Proof.
  intros continuous_spaces.
  assert (E : FindContinuousSpaceFromObject sample_Contains 70000 false continuous_spaces
              = FoundSpace sample_bump_pointer_space) by reflexivity.
  split; [exact E|].
  pose proof (FindContinuousSpaceFromObject_finds_lowest_space sample_Contains 70000 false
                continuous_spaces) as Hfound.
  rewrite E in Hfound. destruct Hfound as (_ & _ & Hlowest).
  apply Hlowest. repeat constructor; vm_compute; discriminate.
Defined.

(** ** X18 *)

Lemma GetInstances_Visit_collects_first_instances_witness :
  INT_MIN <= 2 <= INT_MAX
  /\ GetInstances_Visit sample_GetClass 800 2 [8; 16; 24; 40; 56] [] = [8; 24].
Proof.
  assert (H : INT_MIN <= 2 <= INT_MAX) by (vm_compute; split; discriminate).
  split; [exact H|].
  destruct (GetInstances_Visit_collects_first_instances sample_GetClass 800 2
              [8; 16; 24; 40; 56] H) as (_ & Hfirst & _).
  exact (proj1 (Hfirst eq_refl)).
Defined.

(** ** X19 *)

Lemma CountInstances_Visit_counts_instances_witness :
  [0; 0] !! 0%nat = Some 0
  /\ CountInstances_Visit sample_GetClass sample_IsAssignableFrom [800; 1600] false
       [8; 16; 24; 40] [0; 0] !! 0%nat
     = Some 3.
Proof.
  split; [reflexivity|].
  refine (CountInstances_Visit_counts_instances sample_GetClass sample_IsAssignableFrom
            [800; 1600] false [8; 16; 24; 40] [0; 0] 0%nat 0 eq_refl _).
  vm_compute. split; [discriminate|reflexivity].
Defined.

(** ** X21 *)

Lemma ModifySuspendCount_keeps_flag_in_step_witness :
  INT_MIN <= suspend_count_ sample_thread + 1 <= INT_MAX
  /\ match ModifySuspendCount 1 1 false sample_thread with
     | Some t' =>
         suspend_count_ t' = 1
         /\ Z.land (state_and_flags_ t') 1 = 1
         /\ checkpoint_functions_ t' = checkpoint_functions_ sample_thread
     | None => False
     end.
Proof.
  assert (H : INT_MIN <= suspend_count_ sample_thread + 1 <= INT_MAX)
    by (vm_compute; split; discriminate).
  split; [exact H|].
  pose proof (ModifySuspendCount_keeps_flag_in_step 1 1 false sample_thread H) as Hstep.
  destruct (ModifySuspendCount 1 1 false sample_thread) as [t'|].
  - destruct Hstep as (_ & Hcount & Hflag & _ & Hfunctions).
    split; [exact Hcount|]. split; [|exact Hfunctions].
    rewrite Hflag, Hcount. reflexivity.
  - destruct Hstep as (Hdelta & _). discriminate Hdelta.
Defined.

(** ** X22 *)

Lemma ModifySuspendCount_resume_undoes_suspend_witness :
  0 <= suspend_count_ sample_thread < INT_MAX
  /\ exists suspended,
       ModifySuspendCount 1 1 false sample_thread = Some suspended
       /\ suspend_count_ suspended = 1
       /\ ModifySuspendCount 1 (-1) false suspended = Some sample_thread.
Proof.
  assert (H : 0 <= suspend_count_ sample_thread < INT_MAX)
    by (vm_compute; split; [discriminate|reflexivity]).
  split; [exact H|].
  destruct (ModifySuspendCount_resume_undoes_suspend 1 sample_thread H eq_refl)
    as (suspended & E1 & Hcount & _ & E2).
  exists suspended. split; [exact E1|]. split; [exact Hcount|exact E2].
Defined.

(** ** X23 *)

Lemma RequestCheckpoint_installs_or_refuses_witness :
  as_struct_state (state_and_flags_ sample_thread) = 67
  /\ exists requested,
       RequestCheckpoint 2 67 sample_ReadFlag 9000 None sample_thread
       = Some (true, requested)
       /\ checkpoint_functions_ requested = [9000; 0; 0]
       /\ as_struct_flags (state_and_flags_ requested) = 2.
Proof.
  split; [reflexivity|].
  destruct (RequestCheckpoint_installs_or_refuses 2 67 sample_ReadFlag 9000 None
              sample_thread) as (_ & _ & Hinstall).
  destruct (Hinstall eq_refl 0%nat eq_refl) as (Hinstalled & _).
  destruct (Hinstalled eq_refl) as (requested & E & Hfunctions & _ & _ & Hflags & _).
  assert (Hread : sample_ReadFlag 2 requested = true)
    by (unfold sample_ReadFlag; rewrite Hflags; reflexivity).
  rewrite Hread in E.
  exists requested. split; [exact E|]. split; [exact Hfunctions|exact Hflags].
Defined.

(** ** X24 *)

Lemma RunCheckpointFunction_runs_what_was_requested_witness :
  exists requested run t',
    RequestCheckpoint 2 67 sample_ReadFlag 9000 None sample_thread = Some (true, requested)
    /\ RunCheckpointFunction 2 requested = Some (run, t')
    /\ In 9000 run
    /\ RunCheckpointFunction 2 t' = None.
Proof.
  assert (E : exists requested,
             RequestCheckpoint 2 67 sample_ReadFlag 9000 None sample_thread
             = Some (true, requested))
    by (eexists; vm_compute; reflexivity).
  destruct E as (requested & E).
  assert (H : 9000 <> 0) by discriminate.
  destruct (RunCheckpointFunction_runs_what_was_requested 2 67 sample_ReadFlag 9000
              sample_thread requested H E)
    as (run & t' & Hrun & Hin & _ & _ & _ & _ & Hagain).
  exists requested, run, t'.
  split; [exact E|]. split; [exact Hrun|]. split; [exact Hin|exact Hagain].
Defined.

(** ** X25 *)

Lemma TransitionCollector_on_idle_heap_witness :
  kCollectorTypeSS <> collector_type_ sample_heap
  /\ is_gc_running_ sample_heap = false
  /\ exists w',
       TransitionCollector true true utilization_one_half estimate_exactly
         run_frees_nothing kCollectorTypeSS (sample_world sample_heap []) = Returns tt w'
       /\ collector_type_ (w_heap w') = kCollectorTypeSS
       /\ w_log w' = [CollectorRun SemiSpace kGcCauseCollectorTransition false].
Proof.
  split; [discriminate|]. split; [reflexivity|].
  destruct (TransitionCollector_on_idle_heap true true utilization_one_half
              estimate_exactly run_frees_nothing kCollectorTypeSS
              (sample_world sample_heap []))
    as (w' & E & Htype & _ & _ & _ & _ & Hlog).
  - discriminate.
  - discriminate.
  - reflexivity.
  - reflexivity.
  - reflexivity.
  - discriminate.
  - discriminate.
  - exists w'. split; [exact E|]. split; [exact Htype|exact Hlog].
Defined.

(** ** X26 *)

Lemma TransitionCollector_there_and_back_witness :
  let w := sample_world sample_heap [] in
  IsCompactingGC kCollectorTypeSS = true
  /\ IsCompactingGC (collector_type_ sample_heap) = false
  /\ exists w1 w2,
       TransitionCollector true true utilization_one_half estimate_exactly
         run_frees_nothing kCollectorTypeSS w = Returns tt w1
       /\ TransitionCollector true true utilization_one_half estimate_exactly
            run_frees_nothing kCollectorTypeMS w1 = Returns tt w2
       /\ heap_configuration (w_heap w2) = heap_configuration sample_heap.
Proof.
  intros w. split; [reflexivity|]. split; [reflexivity|].
  destruct (TransitionCollector_there_and_back true true utilization_one_half
              estimate_exactly run_frees_nothing kCollectorTypeSS w)
    as (w1 & w2 & E1 & _ & E2 & Hback & _); try reflexivity.
  - discriminate.
  - exists w1, w2. split; [exact E1|]. split; [exact E2|exact Hback].
Defined.

(** ** X27 *)

(** Another thread frees 4000 of the 4096 bytes between the load and the
    exchange: the first exchange fails, and the second round stores what it
    then finds, less the bytes freed. *)
Example RegisterNativeFree_retries_after_a_race :
  loaded_sizes [-4000] (native_bytes_allocated_ sample_heap) = [4096; 96]
  /\ RegisterNativeFree [-4000] 96 sample_heap
     = (set_native_bytes_allocated_ 0 sample_heap, None)
  /\ RegisterNativeFree [-4000] 97 sample_heap
     = (set_native_bytes_allocated_ 96 sample_heap,
        Some (RuntimeException_native_free 97 96)).
Proof. split; [|split]; reflexivity. Qed.

(** ** X28 *)

Lemma BuildBins_accounts_for_every_free_byte_witness :
  bins_ sample_collector = []
  /\ bins_total (bins_ (BuildBins sample_SizeOf sample_space sample_collector))
     + objects_total (live_objects sample_SizeOf sample_space)
     = end_ sample_space - begin_ sample_space.
Proof.
  split; [reflexivity|].
  refine (proj1 (BuildBins_accounts_for_every_free_byte sample_SizeOf sample_space
                   sample_collector eq_refl _ _ _)).
  - vm_compute. discriminate.
  - vm_compute. discriminate.
  - vm_compute. repeat split; discriminate.
Defined.

(** ** X29 *)

Lemma AllocateInternalWithGc_returns_first_success_witness :
  exists w' before kGrow,
    AllocateInternalWithGc true true utilization_one_half estimate_exactly
      run_frees_nothing temp_space_stays_empty allocation_needs_growth kAllocatorTypeRosAlloc 4096
      (sample_world sample_heap []) = Returns 8192 w'
    /\ w_log w' = before ++ [CallTryToAllocate kGrow kAllocatorTypeRosAlloc 4096 8192]
    /\ Forall (fun e => successful_retry e = false) before.
Proof.
  assert (E : exists w',
             AllocateInternalWithGc true true utilization_one_half estimate_exactly
               run_frees_nothing temp_space_stays_empty allocation_needs_growth
               kAllocatorTypeRosAlloc 4096
               (sample_world sample_heap []) = Returns 8192 w')
    by (eexists; vm_compute; reflexivity).
  destruct E as (w' & E).
  destruct (AllocateInternalWithGc_returns_first_success true true utilization_one_half
              estimate_exactly run_frees_nothing temp_space_stays_empty allocation_needs_growth
              kAllocatorTypeRosAlloc 4096 (sample_world sample_heap []) 8192 w' E)
    as (events & Hlog & _ & Hsuccess).
  destruct Hsuccess as (before & kGrow & -> & Hbefore); [discriminate|].
  exists w', before, kGrow. split; [exact E|]. split; [exact Hlog|exact Hbefore].
Defined.
